(** * AWS Backup Analyzer: the aggregation and report-shaping pipeline

    A shallow embedding of [src/main.py] (class [AWSBackupAnalyzer]) and the
    properties of its resource normalizer, status classifier, report
    assembler and tabular projector.

    Modelling conventions.
    - A Python [str] is a [string]; [str.lower] acts on the ASCII letters.
    - A boto3 record is a [Record]: a key the source indexes with [d['k']]
      is a mandatory field, a key it reads with [d.get('k', default)] is an
      [option] field.
    - A Python [dict] whose iteration order is observed is an association
      list in insertion order; the [defaultdict(int)] of the status
      classifier, whose order no property depends on, is a [gmap].
    - A Python [float] holding a size is an exact rational ([Q]); no
      property below depends on how a sum or a quotient is rounded, and
      [round(x, 2)] is a parameter of the projector.
    - A raised exception is the [Raise] branch of [res]. *)

From Stdlib Require Import ZArith QArith Ascii String List.
From Stdlib Require Import DecimalString DecimalNat DecimalFacts.
From stdpp Require Import base option list strings gmap sorting.

Local Open Scope Z_scope.

(** ** Exceptions *)

Inductive exn : Type :=
| ValueError (msg : string)
| ZeroDivisionError
| ClientError (msg : string).

Inductive res (A : Type) : Type :=
| Ok (a : A)
| Raise (e : exn).
Arguments Ok {A} a.
Arguments Raise {A} e.

Definition res_bind {A B} (r : res A) (k : A -> res B) : res B :=
  match r with
  | Ok a => k a
  | Raise e => Raise e
  end.

Notation "'let!' x ':=' r 'in' k" := (res_bind r (fun x => k))
  (at level 10, x name, r at level 100, k at level 200).

(** ** The [str] methods the analyzer calls *)

Module PyStr.

(** [c.lower()] on one character. *)
Definition lower_ascii (c : ascii) : ascii :=
  let n := nat_of_ascii c in
  if (65 <=? n)%nat && (n <=? 90)%nat then ascii_of_nat (n + 32) else c.

(** [s.lower()]. *)
Fixpoint lower (s : string) : string :=
  match s with
  | EmptyString => EmptyString
  | String c s' => String (lower_ascii c) (lower s')
  end.

(** [s.startswith(p)]. *)
Fixpoint startswith (s p : string) {struct p} : bool :=
  match p, s with
  | EmptyString, _ => true
  | String _ _, EmptyString => false
  | String a p', String b s' => Ascii.eqb a b && startswith s' p'
  end.

(** [s.find(sub)]: the lowest index at which [sub] occurs, or [-1]. *)
Fixpoint find_from (i : nat) (s sub : string) : Z :=
  if startswith s sub then Z.of_nat i
  else match s with
       | EmptyString => -1
       | String _ s' => find_from (S i) s' sub
       end.

Definition find (s sub : string) : Z := find_from 0 s sub.

(** [s.split(sep)] for a one-character separator: never an empty list. *)
Fixpoint split (sep : ascii) (s : string) : list string :=
  match s with
  | EmptyString => [EmptyString]
  | String c s' =>
      if Ascii.eqb c sep then EmptyString :: split sep s'
      else match split sep s' with
           | w :: ws => String c w :: ws
           | [] => [String c EmptyString]
           end
  end.

(** [l[-1]] on a list that [split] returned (which is never empty, so the
    [IndexError] of an empty list cannot occur: [split_nonempty]). *)
Definition last_item (l : list string) : string := List.last l EmptyString.

(** [sep.join(l)] for a one-character separator. *)
Fixpoint join (sep : ascii) (l : list string) : string :=
  match l with
  | [] => EmptyString
  | [w] => w
  | w :: ws => w +:+ String sep (join sep ws)
  end.

(** [c in s] for a character. *)
Fixpoint has_char (c : ascii) (s : string) : bool :=
  match s with
  | EmptyString => false
  | String a s' => Ascii.eqb a c || has_char c s'
  end.

(** [s[:n]]. *)
Definition take (n : nat) (s : string) : string := String.substring 0 n s.

End PyStr.

(** ** Timestamps and [strftime('%Y-%m-%d %H:%M')] *)

Record datetime : Type := {
  dt_year : nat;
  dt_month : nat;
  dt_day : nat;
  dt_hour : nat;
  dt_minute : nat
}.

Definition digit (n : nat) : ascii := ascii_of_nat (48 + n mod 10).

Definition pad2 (n : nat) : string :=
  String (digit (n / 10)) (String (digit n) EmptyString).

Definition pad4 (n : nat) : string :=
  String (digit (n / 1000)) (String (digit (n / 100)) (pad2 n)).

(** [d.strftime('%Y-%m-%d %H:%M')]. *)
Definition strftime (d : datetime) : string :=
  pad4 (dt_year d) +:+ "-" +:+ pad2 (dt_month d) +:+ "-" +:+ pad2 (dt_day d)
  +:+ " " +:+ pad2 (dt_hour d) +:+ ":" +:+ pad2 (dt_minute d).

(** ** Raw records, as the backup service returns them *)

Record BackupJob : Type := {
  BackupJobId : option string;
  ResourceArn : string;
  ResourceType : option string;
  BackupSizeInBytes : option Z;
  CreationDate : datetime;
  CompletionDate : option datetime;
  State : string;
  StatusMessage : option string;
  BackupVaultName : option string;
  RecoveryPointArn : option string
}.

(** ** Status classifier: [get_job_status_summary] *)

(** [d[k] += 1] on a [defaultdict(int)]. *)
Definition incr (k : string) (d : gmap string nat) : gmap string nat :=
  <[k := S (d !!! k)]> d.

(** One iteration of the loop over [jobs]. *)
Definition status_step (status_summary : gmap string nat) (job : BackupJob)
  : gmap string nat :=
  let state := State job in
  if String.eqb state "COMPLETED"
     && negb (PyStr.find (PyStr.lower (default EmptyString (StatusMessage job))) "issue" =? -1)
  then incr "COMPLETED_WITH_ISSUES" status_summary
  else incr state status_summary.

Definition get_job_status_summary (jobs : list BackupJob) : gmap string nat :=
  foldl status_step ∅ jobs.

(** [sum(summary.values())]. *)
Definition sum_values (d : gmap string nat) : nat :=
  map_fold (fun _ v acc => (v + acc)%nat) 0%nat d.

(** ** Insertion-ordered dictionaries with string keys *)

Module ODict.
Section Ops.
Context {V : Type}.

Definition t : Type := list (string * V).

(** [k in d]. *)
Definition mem (k : string) (d : list (string * V)) : bool :=
  existsb (fun kv => String.eqb (fst kv) k) d.

(** [d.get(k)]. *)
Fixpoint get (k : string) (d : list (string * V)) : option V :=
  match d with
  | [] => None
  | (k', v) :: d' => if String.eqb k' k then Some v else get k d'
  end.

(** [d[k] = v]: a present key keeps its position, a new key goes last. *)
Fixpoint set (k : string) (v : V) (d : list (string * V)) : list (string * V) :=
  match d with
  | [] => [(k, v)]
  | (k', v') :: d' =>
      if String.eqb k' k then (k', v) :: d' else (k', v') :: set k v d'
  end.

(** The lookup of a [defaultdict]: a missing key is first bound to the
    default. *)
Definition touch (k : string) (dflt : V) (d : list (string * V))
  : list (string * V) :=
  if mem k d then d else set k dflt d.

(** In-place update of the value bound to [k]. *)
Fixpoint alter (f : V -> V) (k : string) (d : list (string * V))
  : list (string * V) :=
  match d with
  | [] => []
  | (k', v) :: d' =>
      if String.eqb k' k then (k', f v) :: d' else (k', v) :: alter f k d'
  end.

(** [list(d.values())]. *)
Definition values (d : list (string * V)) : list V := map snd d.

Definition keys (d : list (string * V)) : list string := map fst d.
End Ops.
End ODict.

(** ** Resource normalizer: [get_unique_resources] *)

Record ResourceRecord : Type := {
  ur_resource_id : string;
  ur_resource_type : string;
  ur_resource_arn : string;
  ur_last_backup : string;
  ur_backup_vault : string
}.

(** One iteration of the loop over [jobs]. *)
Definition unique_step (unique_resources : list (string * ResourceRecord))
  (job : BackupJob) : list (string * ResourceRecord) :=
  let resource_id := PyStr.last_item (PyStr.split "/" (ResourceArn job)) in
  if negb (ODict.mem resource_id unique_resources)
  then ODict.set resource_id
         {| ur_resource_id := resource_id;
            ur_resource_type := default "N/A" (ResourceType job);
            ur_resource_arn := ResourceArn job;
            ur_last_backup := strftime (CreationDate job);
            ur_backup_vault := default "N/A" (BackupVaultName job) |}
         unique_resources
  else unique_resources.

Definition get_unique_resources (jobs : list BackupJob) : list ResourceRecord :=
  ODict.values (foldl unique_step [] jobs).

(** ** The per-job view built by [generate_backup_report] *)

Record BackupView : Type := {
  bk_backup_job_id : string;
  bk_resource_id : string;
  bk_resource_type : string;
  bk_backup_size_gb : Q;
  bk_creation_date : string;
  bk_completion_date : string;
  bk_state : string;
  bk_status_message : string;
  bk_vault_name : string;
  bk_recovery_point_arn : string
}.

(** The dictionary of the list comprehension over [jobs]. [State] is a
    mandatory field here because [get_job_status_summary] has indexed it
    on every job before the view is built, so the default of
    [job.get('State', 'N/A')] is never taken. *)
Definition backup_view (job : BackupJob) : BackupView :=
  {| bk_backup_job_id := default "N/A" (BackupJobId job);
     bk_resource_id := PyStr.last_item (PyStr.split "/" (ResourceArn job));
     bk_resource_type := default "N/A" (ResourceType job);
     bk_backup_size_gb :=
       Qdiv (inject_Z (default 0 (BackupSizeInBytes job))) (inject_Z (1024 ^ 3));
     bk_creation_date := strftime (CreationDate job);
     bk_completion_date :=
       match CompletionDate job with
       | Some d => strftime d
       | None => "N/A"
       end;
     bk_state := State job;
     bk_status_message := default "N/A" (StatusMessage job);
     bk_vault_name := default "N/A" (BackupVaultName job);
     bk_recovery_point_arn := default "N/A" (RecoveryPointArn job) |}.

(** ** Backup plans: [get_backup_plans] against the backup service *)

(** What iterating a paginator yields: pages, until the end or a failing
    request. *)
Inductive pages (A : Type) : Type :=
| PagesEnd
| PagesFail (e : exn)
| Page (items : list A) (rest : pages A).
Arguments PagesEnd {A}.
Arguments PagesFail {A} e.
Arguments Page {A} items rest.

(** A cell that holds a string, an integer, a number or a boolean. *)
Inductive value : Type :=
| VStr (s : string)
| VInt (z : Z)
| VNum (q : Q)
| VBool (b : bool).

Record Lifecycle : Type := {
  DeleteAfterDays : option Z;
  MoveToColdStorageAfterDays : option Z
}.

Definition empty_lifecycle : Lifecycle :=
  {| DeleteAfterDays := None; MoveToColdStorageAfterDays := None |}.

Record PlanSummary : Type := {
  BackupPlanId : string;
  BackupPlanName : option string;
  VersionId : option string;
  PlanCreationDate : datetime;
  DeploymentStatus : option string
}.

Record RawRule : Type := {
  RuleName : option string;
  TargetBackupVaultName : option string;
  ScheduleExpression : option string;
  StartWindowMinutes : option Z;
  CompletionWindowMinutes : option Z;
  RuleLifecycle : option Lifecycle;
  EnableContinuousBackup : option bool
}.

(** [plan_details['BackupPlan']]. *)
Record PlanDetails : Type := { Rules : option (list RawRule) }.

Record SelectionSummary : Type := { SelectionId : string }.

(** [sel_details['BackupSelection']]. *)
Record SelectionDetails : Type := {
  SelectionName : option string;
  IamRoleArn : option string;
  Resources : option (list string);
  Conditions : option (list (string * string))
}.

(** The four calls of the backup client that [get_backup_plans] makes. *)
Record BackupClient : Type := {
  list_backup_plans : pages PlanSummary;
  get_backup_plan : string -> res PlanDetails;
  list_backup_selections : string -> pages SelectionSummary;
  get_backup_selection : string -> string -> res SelectionDetails
}.

Record Selection : Type := {
  selection_name : string;
  iam_role_arn : string;
  sel_resources : list string;
  sel_conditions : list (string * string)
}.

Record Rule : Type := {
  rule_name : string;
  target_vault_name : string;
  schedule_expression : string;
  start_window_minutes : value;
  completion_window_minutes : value;
  lifecycle : Lifecycle;
  enable_continuous_backup : bool
}.

Record Plan : Type := {
  plan_id : string;
  plan_name : string;
  version_id : string;
  plan_creation_date : string;
  deployment_status : string;
  rules : list Rule;
  selections : list Selection
}.

(** A line written by [print] in an exception handler. *)
Inductive log_line : Type :=
| SelectionsError (plan : string) (e : exn)
| PlansError (e : exn).

Definition int_or_na (o : option Z) : value :=
  match o with
  | Some z => VInt z
  | None => VStr "N/A"
  end.

Definition make_rule (rule : RawRule) : Rule :=
  {| rule_name := default "N/A" (RuleName rule);
     target_vault_name := default "N/A" (TargetBackupVaultName rule);
     schedule_expression := default "N/A" (ScheduleExpression rule);
     start_window_minutes := int_or_na (StartWindowMinutes rule);
     completion_window_minutes := int_or_na (CompletionWindowMinutes rule);
     lifecycle := default empty_lifecycle (RuleLifecycle rule);
     enable_continuous_backup := default false (EnableContinuousBackup rule) |}.

Definition make_selection (sel : SelectionDetails) : Selection :=
  {| selection_name := default "N/A" (SelectionName sel);
     iam_role_arn := default "N/A" (IamRoleArn sel);
     sel_resources := default [] (Resources sel);
     sel_conditions := default [] (Conditions sel) |}.

Section Plans.
Variable client : BackupClient.

(** The inner loop over one page of selections. The list [selections] is
    appended to in place, so what was collected before an exception stays
    in it; the second component is the exception that stopped the loop. *)
Fixpoint selections_of_page (plan : string) (items : list SelectionSummary)
  (selections : list Selection) : list Selection * option exn :=
  match items with
  | [] => (selections, None)
  | selection :: rest =>
      match get_backup_selection client plan (SelectionId selection) with
      | Raise e => (selections, Some e)
      | Ok sel_details =>
          selections_of_page plan rest (selections ++ [make_selection sel_details])
      end
  end.

Fixpoint selections_of_pages (plan : string) (ps : pages SelectionSummary)
  (selections : list Selection) : list Selection * option exn :=
  match ps with
  | PagesEnd => (selections, None)
  | PagesFail e => (selections, Some e)
  | Page items rest =>
      match selections_of_page plan items selections with
      | (selections', Some e) => (selections', Some e)
      | (selections', None) => selections_of_pages plan rest selections'
      end
  end.

(** The inner [try ... except Exception] around the selections of one
    plan: the exception is printed and swallowed. *)
Definition fetch_selections (plan : string) : list Selection * list log_line :=
  match selections_of_pages plan (list_backup_selections client plan) [] with
  | (selections, Some e) => (selections, [SelectionsError plan e])
  | (selections, None) => (selections, [])
  end.

Definition make_plan (plan : PlanSummary) (plan_details : PlanDetails)
  (selections : list Selection) : Plan :=
  {| plan_id := BackupPlanId plan;
     plan_name := default "N/A" (BackupPlanName plan);
     version_id := default "N/A" (VersionId plan);
     plan_creation_date := strftime (PlanCreationDate plan);
     deployment_status := default "N/A" (DeploymentStatus plan);
     rules := map make_rule (default [] (Rules plan_details));
     selections := selections |}.

(** The loop over one page of plans; [get_backup_plan] is outside the
    inner [try], so its exception leaves the loop. *)
Fixpoint plans_of_page (items : list PlanSummary) (plans : list Plan)
  (log : list log_line) : res (list Plan) * list log_line :=
  match items with
  | [] => (Ok plans, log)
  | plan :: rest =>
      match get_backup_plan client (BackupPlanId plan) with
      | Raise e => (Raise e, log)
      | Ok plan_details =>
          let '(selections, printed) := fetch_selections (BackupPlanId plan) in
          plans_of_page rest (plans ++ [make_plan plan plan_details selections])
            (log ++ printed)
      end
  end.

Fixpoint plans_of_pages (ps : pages PlanSummary) (plans : list Plan)
  (log : list log_line) : res (list Plan) * list log_line :=
  match ps with
  | PagesEnd => (Ok plans, log)
  | PagesFail e => (Raise e, log)
  | Page items rest =>
      match plans_of_page items plans log with
      | (Ok plans', log') => plans_of_pages rest plans' log'
      | (Raise e, log') => (Raise e, log')
      end
  end.

(** The outer [try ... except Exception]: any exception that left the
    loops is printed and the result is the empty list. *)
Definition get_backup_plans : list Plan * list log_line :=
  match plans_of_pages (list_backup_plans client) [] [] with
  | (Ok plans, log) => (plans, log)
  | (Raise e, log) => ([], log ++ [PlansError e])
  end.
End Plans.

(** ** The report document: [generate_backup_report] *)

Record VolumeInfo : Type := {
  vol_volume_id : string;
  vol_size_gb : Z;
  vol_volume_type : string;
  vol_state : string;
  vol_creation_date : string;
  vol_encrypted : bool;
  vol_availability_zone : string;
  vol_attached_instance : string;
  vol_device : string;
  vol_name : string
}.

Record SnapshotInfo : Type := {
  snap_snapshot_id : string;
  snap_volume_id : string;
  snap_start_time : string;
  snap_size_gb : Z;
  snap_state : string;
  snap_progress : string;
  snap_description : string;
  snap_encrypted : bool;
  snap_name : string
}.

Record Storage : Type := {
  ebs_volumes : list VolumeInfo;
  snapshots : list SnapshotInfo
}.

Record Report : Type := {
  generated_at : string;
  region : string;
  period_days : Z;
  total_backups : nat;
  job_status_summary : gmap string nat;
  plans : list Plan;
  unique_resources : list ResourceRecord;
  backups : list BackupView;
  storage : Storage
}.

(** What the run reads from outside the aggregation pipeline: the clock,
    the region, and the lists that [get_backup_jobs], [get_ebs_volumes] and
    [get_snapshots] return. *)
Record Collected : Type := {
  col_now : string;
  col_region : string;
  col_backup_jobs : Z -> list BackupJob;
  col_ebs_volumes : list VolumeInfo;
  col_snapshots : list SnapshotInfo
}.

Definition generate_backup_report (client : BackupClient) (col : Collected)
  (days : Z) : Report * list log_line :=
  let jobs := col_backup_jobs col days in
  let '(plans, log) := get_backup_plans client in
  let unique_resources := get_unique_resources jobs in
  let job_status := get_job_status_summary jobs in
  ({| generated_at := col_now col;
      region := col_region col;
      period_days := days;
      total_backups := length jobs;
      job_status_summary := job_status;
      plans := plans;
      unique_resources := unique_resources;
      backups := map backup_view jobs;
      storage := {| ebs_volumes := col_ebs_volumes col;
                    snapshots := col_snapshots col |} |},
   log).

(** ** Tabular projector: [create_excel_report] *)

(** [min(xs)] and [max(xs)] over strings: the first least (greatest)
    element, [ValueError] on an empty sequence. *)
Definition py_min (xs : list string) : res string :=
  match xs with
  | [] => Raise (ValueError "min() arg is an empty sequence")
  | x :: xs' => Ok (fold_left (fun m y => if String.ltb y m then y else m) xs' x)
  end.

Definition py_max (xs : list string) : res string :=
  match xs with
  | [] => Raise (ValueError "max() arg is an empty sequence")
  | x :: xs' => Ok (fold_left (fun m y => if String.ltb m y then y else m) xs' x)
  end.

(** [sum(xs)] over sizes. *)
Definition py_sum (xs : list Q) : Q := fold_left Qplus xs 0%Q.

(** [x / n]: [ZeroDivisionError] when the divisor is zero. *)
Definition py_truediv (x : Q) (n : nat) : res Q :=
  match n with
  | O => Raise ZeroDivisionError
  | S _ => Ok (Qdiv x (inject_Z (Z.of_nat n)))
  end.

(** [sorted(set(xs))], also the order in which a group-by lists its keys. *)
Definition sorted_set (xs : list string) : list string :=
  merge_sort String.le (remove_dups xs).

(** A data frame of numbers with labelled rows and columns; [None] is the
    missing value (NaN). *)
Record Frame : Type := {
  fr_columns : list string;
  fr_rows : list (string * list (option Q))
}.

Definition fr_index (fr : Frame) : list string := ODict.keys (fr_rows fr).

(** The cell at a row label and a column label; [None] when the row or the
    column does not exist or the cell is missing. *)
Definition row_get (columns : list string) (cells : list (option Q))
  (c : string) : option Q :=
  match ODict.get c (zip columns cells) with
  | Some cell => cell
  | None => None
  end.

Definition frame_get (fr : Frame) (r c : string) : option Q :=
  match ODict.get r (fr_rows fr) with
  | Some cells => row_get (fr_columns fr) cells c
  | None => None
  end.

(** [str(pd.to_datetime(s).to_period('M'))] of a ['%Y-%m-%d %H:%M'] string:
    its year and month, the first seven characters. *)
Definition to_period_M (creation_date : string) : string :=
  PyStr.take 7 creation_date.

Definition agg_mean (g : list Q) : Q :=
  Qdiv (py_sum g) (inject_Z (Z.of_nat (length g))).
Definition agg_count (g : list Q) : Q := inject_Z (Z.of_nat (length g)).
Definition agg_sum (g : list Q) : Q := py_sum g.

(** The sizes of the jobs of one resource in one month. *)
Definition group_sizes (df : list (BackupView * string)) (r m : string) : list Q :=
  map (fun row => bk_backup_size_gb (fst row))
    (List.filter
       (fun row => String.eqb (bk_resource_id (fst row)) r && String.eqb (snd row) m)
       df).

(** [pd.pivot_table(df, values='backup_size_gb', index=['resource_id'],
    columns=['Month'], aggfunc=agg, fill_value=0)]: one row per resource,
    one column per month that occurs in [df], both in sorted order; a pair
    without jobs aggregates to the missing value, which [fill_value]
    replaces. *)
Definition pivot_table (agg : list Q -> Q) (fill_value : Q)
  (df : list (BackupView * string)) : Frame :=
  let index := sorted_set (map (fun row => bk_resource_id (fst row)) df) in
  let columns := sorted_set (map snd df) in
  let aggregated (r m : string) : option Q :=
    match group_sizes df r m with
    | [] => None
    | g => Some (agg g)
    end in
  {| fr_columns := columns;
     fr_rows :=
       map (fun r => (r, map (fun m => Some (default fill_value (aggregated r m)))
                           columns))
         index |}.

(** [fr.columns = [f(col) for col in fr.columns]]. *)
Definition rename_columns (f : string -> string) (fr : Frame) : Frame :=
  {| fr_columns := map f (fr_columns fr); fr_rows := fr_rows fr |}.

(** The cells of row [r], missing values when the frame has no such row. *)
Definition row_or_missing (fr : Frame) (r : string) : list (option Q) :=
  match ODict.get r (fr_rows fr) with
  | Some cells => cells
  | None => map (fun _ => None) (fr_columns fr)
  end.

(** [pd.concat([a, b, c], axis=1)] of frames over one index (the three
    pivot tables are grouped by the same key: [pivot_table_index]); rows
    are aligned by label. *)
Definition concat3 (a b c : Frame) : Frame :=
  {| fr_columns := fr_columns a ++ fr_columns b ++ fr_columns c;
     fr_rows :=
       map (fun r => (r, row_or_missing a r ++ row_or_missing b r ++ row_or_missing c r))
         (fr_index a) |}.

(** [fr.reindex(columns=labels)]: a label that is not a column of [fr]
    gives a column of missing values. *)
Definition reindex_columns (labels : list string) (fr : Frame) : Frame :=
  {| fr_columns := labels;
     fr_rows :=
       map (fun row => (fst row, map (row_get (fr_columns fr) (snd row)) labels))
         (fr_rows fr) |}.

Definition first_item (l : list string) : string := hd EmptyString l.

(** Lines 357 and 367-413: the monthly pivot of the jobs frame. *)
Definition monthly_resource_summary (backups : list BackupView) : Frame :=
  let df_jobs := map (fun job => (job, to_period_M (bk_creation_date job))) backups in
  let size_pivot := pivot_table agg_mean 0%Q df_jobs in
  let count_pivot := pivot_table agg_count 0%Q df_jobs in
  let total_pivot := pivot_table agg_sum 0%Q df_jobs in
  let size_pivot := rename_columns (fun col => col +:+ " (GB Avg)") size_pivot in
  let count_pivot := rename_columns (fun col => col +:+ " (Count)") count_pivot in
  let total_pivot := rename_columns (fun col => col +:+ " (GB Total)") total_pivot in
  let all_months :=
    sorted_set (map (fun col => first_item (PyStr.split " " col))
                  (fr_columns size_pivot)) in
  let sorted_columns :=
    concat (map (fun month => [month +:+ " (Count)";
                               month +:+ " (GB Avg)";
                               month +:+ " (GB Total)"]) all_months) in
  let pivot_table := concat3 count_pivot size_pivot total_pivot in
  reindex_columns sorted_columns pivot_table.

Record PlanRow : Type := {
  pr_plan_name : string;
  pr_plan_id : string;
  pr_creation_date : string;
  pr_rule_name : string;
  pr_schedule : string;
  pr_vault : string;
  pr_retention_days : value;
  pr_resources_count : nat
}.

Record ResourceSummaryRow : Type := {
  rs_resource_id : string;
  rs_total_backups : nat;
  rs_total_size_tb : Q;
  rs_average_size_gb : Q
}.

Inductive Table : Type :=
| SummaryTable (information : list string) (values : list value)
| ResourcesTable (rows : list ResourceRecord)
| PlansTable (rows : list PlanRow)
| JobsTable (rows : list BackupView)
| ResourceSummaryTable (rows : list ResourceSummaryRow)
| VolumesTable (rows : list VolumeInfo)
| SnapshotsTable (rows : list SnapshotInfo)
| PivotTable (frame : Frame).

(** What [create_excel_report] can read and write: the report object it is
    handed by reference, and the sheets written to the workbook so far. *)
Record World : Type := {
  w_report : Report;
  w_sheets : list (string * Table)
}.

Definition Proj (A : Type) : Type := World -> res A * World.

Definition proj_ret {A} (a : A) : Proj A := fun w => (Ok a, w).

Definition proj_bind {A B} (m : Proj A) (k : A -> Proj B) : Proj B :=
  fun w =>
    match m w with
    | (Ok a, w') => k a w'
    | (Raise e, w') => (Raise e, w')
    end.

Notation "'run!' x ':=' m 'in' k" := (proj_bind m (fun x => k))
  (at level 10, x name, m at level 100, k at level 200).

(** Reading the argument [report]. *)
Definition get_report : Proj Report := fun w => (Ok (w_report w), w).

(** An expression that may raise. *)
Definition eval {A} (r : res A) : Proj A := fun w => (r, w).

(** [df.to_excel(writer, sheet_name=name)]. *)
Definition to_excel (t : Table) (name : string) : Proj unit :=
  fun w => (Ok tt, {| w_report := w_report w;
                      w_sheets := w_sheets w ++ [(name, t)] |}).

Definition summary_information : list string :=
  ["Report Generation Date"; "Region"; "Period (days)"; "First Backup Date";
   "Last Backup Date"; "Total Unique Resources"; "Total Backups";
   "Total Size (TB)"; EmptyString; "Job Status Summary:"; "COMPLETED";
   "COMPLETED_WITH_ISSUES"; "FAILED"; "EXPIRED"; "PARTIAL"].

(** [d.get(k, 0)] on the status summary. *)
Definition status_count (d : gmap string nat) (k : string) : value :=
  VInt (Z.of_nat (default 0%nat (d !! k))).

(** The default of [defaultdict(lambda: {'count': 0, 'size': 0})]. *)
Definition fresh_entry : nat * Q := (0%nat, 0%Q).

(** One iteration of the loop that fills [resource_summary]: each of the
    two statements looks [res_id] up, the first lookup binds a new key. *)
Definition resource_summary_step (resource_summary : list (string * (nat * Q)))
  (job : BackupView) : list (string * (nat * Q)) :=
  let res_id := bk_resource_id job in
  let d1 := ODict.alter (fun data => (S (fst data), snd data)) res_id
              (ODict.touch res_id fresh_entry resource_summary) in
  ODict.alter (fun data => (fst data, Qplus (snd data) (bk_backup_size_gb job)))
    res_id (ODict.touch res_id fresh_entry d1).

Definition resource_summary_of (backups : list BackupView)
  : list (string * (nat * Q)) :=
  foldl resource_summary_step [] backups.

Section Projector.
(** [round(x, 2)]. *)
Variable round2 : Q -> Q.

(** The list bound to ['Values'], evaluated left to right. *)
Definition summary_values (report : Report) : res (list value) :=
  let! first := py_min (map bk_creation_date (backups report)) in
  let! last := py_max (map bk_creation_date (backups report)) in
  Ok [VStr (generated_at report);
      VStr (region report);
      VInt (period_days report);
      VStr first;
      VStr last;
      VInt (Z.of_nat (length (unique_resources report)));
      VInt (Z.of_nat (length (backups report)));
      VNum (round2 (Qdiv (py_sum (map bk_backup_size_gb (backups report)))
                      (inject_Z 1024)));
      VStr EmptyString;
      VStr EmptyString;
      status_count (job_status_summary report) "COMPLETED";
      status_count (job_status_summary report) "COMPLETED_WITH_ISSUES";
      status_count (job_status_summary report) "FAILED";
      status_count (job_status_summary report) "EXPIRED";
      status_count (job_status_summary report) "PARTIAL"].

Definition retention_days (rule : Rule) : value :=
  int_or_na (DeleteAfterDays (lifecycle rule)).

Definition plans_data (plans : list Plan) : list PlanRow :=
  concat (map (fun plan =>
    map (fun rule =>
      {| pr_plan_name := plan_name plan;
         pr_plan_id := plan_id plan;
         pr_creation_date := plan_creation_date plan;
         pr_rule_name := rule_name rule;
         pr_schedule := schedule_expression rule;
         pr_vault := target_vault_name rule;
         pr_retention_days := retention_days rule;
         pr_resources_count :=
           list_sum (map (fun sel => length (sel_resources sel)) (selections plan)) |})
      (rules plan)) plans).

(** The list comprehension over [resource_summary.items()]. *)
Fixpoint resource_data (items : list (string * (nat * Q)))
  : res (list ResourceSummaryRow) :=
  match items with
  | [] => Ok []
  | (res_id, data) :: rest =>
      let! average := py_truediv (snd data) (fst data) in
      let! rows := resource_data rest in
      Ok ({| rs_resource_id := res_id;
             rs_total_backups := fst data;
             rs_total_size_tb := round2 (Qdiv (snd data) (inject_Z 1024));
             rs_average_size_gb := round2 average |} :: rows)
  end.

(** The body of [create_excel_report], sheet after sheet in the order of
    the source. The number format and the explicit [add_worksheet] call
    before the first sheet are styling of the workbook and are left out. *)
Definition create_excel_report : Proj unit :=
  run! report := get_report in
  run! values := eval (summary_values report) in
  run! _ := to_excel (SummaryTable summary_information values) "Summary" in
  run! _ := to_excel (ResourcesTable (unique_resources report)) "Unique Resources" in
  run! _ := to_excel (PlansTable (plans_data (plans report))) "Backup Plans" in
  run! _ := to_excel (JobsTable (backups report)) "Backup Jobs" in
  run! rows := eval (resource_data (resource_summary_of (backups report))) in
  run! _ := to_excel (ResourceSummaryTable rows) "Resource Summary" in
  run! _ := to_excel (VolumesTable (ebs_volumes (storage report))) "EBS Volumes" in
  run! _ := to_excel (SnapshotsTable (snapshots (storage report))) "Snapshots" in
  to_excel (PivotTable (monthly_resource_summary (backups report)))
    "Monthly Resource Summary".

(** One call [create_excel_report(report, output_file)]: a fresh workbook
    is opened on the report; the result is what was raised, if anything,
    the report object after the call, and the sheets written. *)
Definition project (report : Report)
  : res unit * Report * list (string * Table) :=
  let '(r, w) := create_excel_report {| w_report := report; w_sheets := [] |} in
  (r, w_report w, w_sheets w).

(** [n] calls in a row on one report object: each call is handed the
    object as the call before left it. The result is the object after
    the last call and, per call, what was raised and the sheets written. *)
Fixpoint project_times (n : nat) (report : Report)
  : Report * list (res unit * list (string * Table)) :=
  match n with
  | O => (report, [])
  | S n' =>
      let '(r, report', sheets) := project report in
      let '(report'', outs) := project_times n' report' in
      (report'', (r, sheets) :: outs)
  end.
End Projector.

(** ** Vocabulary of the properties *)



(** The counter that one loop iteration of [get_job_status_summary]
    increments for [job]. *)
Definition status_key (job : BackupJob) : string :=
  if String.eqb (State job) "COMPLETED"
     && negb (PyStr.find (PyStr.lower (default EmptyString (StatusMessage job))) "issue" =? -1)
  then "COMPLETED_WITH_ISSUES"
  else State job.

(** [r] is the final path segment of [arn]: what follows the last
    separator, the whole of [arn] when it has none. *)
Definition is_final_segment (arn r : string) : Prop :=
  PyStr.has_char "/" r = false
  /\ ((PyStr.has_char "/" arn = false /\ r = arn)
      \/ exists pre, arn = pre +:+ "/" +:+ r).

(** The record that the normalizer writes when [job] is the first job of
    its resource. *)
Definition record_of (job : BackupJob) : ResourceRecord :=
  {| ur_resource_id := PyStr.last_item (PyStr.split "/" (ResourceArn job));
     ur_resource_type := default "N/A" (ResourceType job);
     ur_resource_arn := ResourceArn job;
     ur_last_backup := strftime (CreationDate job);
     ur_backup_vault := default "N/A" (BackupVaultName job) |}.

(** An entry of the normalizer's dictionary is bound to the record of the
    first job of [jobs] with that resource identity. *)
Definition first_of (jobs : list BackupJob) (kv : string * ResourceRecord) : Prop :=
  exists pre job post,
    jobs = pre ++ job :: post
    /\ (forall earlier, earlier ∈ pre ->
          ur_resource_id (record_of earlier) <> ur_resource_id (record_of job))
    /\ fst kv = ur_resource_id (record_of job) /\ snd kv = record_of job.


(** An entry of the Resource Summary grouping and the row made of it. *)
Definition summary_row_of (round2 : Q -> Q) (kv : string * (nat * Q))
  (row : ResourceSummaryRow) : Prop :=
  rs_resource_id row = fst kv
  /\ rs_total_backups row = fst (snd kv)
  /\ rs_average_size_gb row
     = round2 (Qdiv (snd (snd kv)) (inject_Z (Z.of_nat (fst (snd kv))))).

(** The items that iterating a paginator yields before it ends or fails,
    and whether it ends without a failing request. *)
Fixpoint pages_items {A : Type} (ps : pages A) : list A :=
  match ps with
  | Page items rest => items ++ pages_items rest
  | PagesEnd | PagesFail _ => []
  end.

Fixpoint pages_complete {A : Type} (ps : pages A) : bool :=
  match ps with
  | PagesEnd => true
  | PagesFail _ => false
  | Page _ rest => pages_complete rest
  end.

Definition selection_ok (client : BackupClient) (plan : string)
  (selection : SelectionSummary) : bool :=
  match get_backup_selection client plan (SelectionId selection) with
  | Ok _ => true
  | Raise _ => false
  end.

(** The selections of [plan] whose details were fetched before the first
    failing request. *)
Fixpoint fetched_before_failure (client : BackupClient) (plan : string)
  (items : list SelectionSummary) : list Selection :=
  match items with
  | [] => []
  | selection :: rest =>
      match get_backup_selection client plan (SelectionId selection) with
      | Ok sel_details =>
          make_selection sel_details :: fetched_before_failure client plan rest
      | Raise _ => []
      end
  end.

(** Fetching the selections of [plan] fails: a page request or a detail
    request raises. *)
Definition selections_fetch_fails (client : BackupClient) (plan : string) : Prop :=
  pages_complete (list_backup_selections client plan) = false
  \/ forallb (selection_ok client plan)
       (pages_items (list_backup_selections client plan)) = false.

(** The details of a listed plan can be fetched. *)
Definition details_ok (client : BackupClient) (plan : PlanSummary) : Prop :=
  exists plan_details, get_backup_plan client (BackupPlanId plan) = Ok plan_details.

(** The entry of the plan list for a listed plan: every field but
    [selections] comes from the plan and its details, and [selections]
    holds what was fetched before a failure, if any. *)
Definition plan_entry_of (client : BackupClient) (plan : PlanSummary)
  (entry : Plan) : Prop :=
  exists plan_details,
    get_backup_plan client (BackupPlanId plan) = Ok plan_details
    /\ plan_id entry = BackupPlanId plan
    /\ plan_name entry = default "N/A" (BackupPlanName plan)
    /\ version_id entry = default "N/A" (VersionId plan)
    /\ plan_creation_date entry = strftime (PlanCreationDate plan)
    /\ deployment_status entry = default "N/A" (DeploymentStatus plan)
    /\ rules entry = map make_rule (default [] (Rules plan_details))
    /\ selections entry
       = fetched_before_failure client (BackupPlanId plan)
           (pages_items (list_backup_selections client (BackupPlanId plan)))
    /\ (forall e, list_backup_selections client (BackupPlanId plan) = PagesFail e ->
          selections entry = []).

(** The month of a job of the report, and the frame of jobs with its added
    ['Month'] column. *)
Definition month_of (b : BackupView) : string := to_period_M (bk_creation_date b).

Definition jobs_frame (backups : list BackupView) : list (BackupView * string) :=
  map (fun job => (job, to_period_M (bk_creation_date job))) backups.

(** The three column labels of a month, in the order of the sheet. *)
Definition month_columns (m : string) : list string :=
  [m +:+ " (Count)"; m +:+ " (GB Avg)"; m +:+ " (GB Total)"].

(** A pivot cell: the aggregate of the sizes, the fill value without any. *)
Definition filled (agg : list Q -> Q) (g : list Q) : option Q :=
  match g with
  | [] => Some 0%Q
  | _ => Some (agg g)
  end.



(** ** Worked inputs *)

Definition example_job (arn : string) (size : option Z) (year month : nat)
  (state : string) (message : option string) : BackupJob :=
  {| BackupJobId := Some "job";
     ResourceArn := arn;
     ResourceType := Some "EBS";
     BackupSizeInBytes := size;
     CreationDate := {| dt_year := year; dt_month := month; dt_day := 5;
                        dt_hour := 10; dt_minute := 0 |};
     CompletionDate := None;
     State := state;
     StatusMessage := message;
     BackupVaultName := None;
     RecoveryPointArn := None |}.

Definition example_job_jan : BackupJob :=
  example_job "arn:aws:ec2:us-east-1:123456789012:volume/vol-1"
    (Some (5 * 1024 ^ 3)) 2024 1 "COMPLETED" (Some "Completed with ISSUE: xyz").

Definition example_job_mar : BackupJob :=
  example_job "arn:aws:ec2:us-east-1:123456789012:volume/vol-1"
    (Some (3 * 1024 ^ 3)) 2024 3 "FAILED" None.

Definition example_job_other : BackupJob :=
  example_job "vol-2" None 2024 3 "COMPLETED" None.

Definition example_jobs : list BackupJob :=
  [example_job_jan; example_job_mar; example_job_other].

(** Two plans; the first request for the selections of the first fails. *)
Definition example_client : BackupClient :=
  {| list_backup_plans :=
       Page [{| BackupPlanId := "plan-1"; BackupPlanName := Some "daily";
                VersionId := None;
                PlanCreationDate := {| dt_year := 2024; dt_month := 1; dt_day := 1;
                                       dt_hour := 0; dt_minute := 0 |};
                DeploymentStatus := None |};
             {| BackupPlanId := "plan-2"; BackupPlanName := Some "weekly";
                VersionId := None;
                PlanCreationDate := {| dt_year := 2024; dt_month := 2; dt_day := 1;
                                       dt_hour := 0; dt_minute := 0 |};
                DeploymentStatus := None |}]
         PagesEnd;
     get_backup_plan := fun _ => Ok {| Rules := None |};
     list_backup_selections := fun plan =>
       if String.eqb plan "plan-1" then PagesFail (ClientError "AccessDenied")
       else Page [{| SelectionId := "sel-1" |}] PagesEnd;
     get_backup_selection := fun _ _ =>
       Ok {| SelectionName := Some "volumes"; IamRoleArn := None;
             Resources := Some ["arn:aws:ec2:*:*:volume/*"]; Conditions := None |} |}.

Definition example_collected : Collected :=
  {| col_now := "2024-04-01 00:00:00";
     col_region := "us-east-1";
     col_backup_jobs := fun _ => example_jobs;
     col_ebs_volumes := [];
     col_snapshots := [] |}.

(** The report of a run that found no job. *)
Definition example_empty_report : Report :=
  {| generated_at := "2024-04-01 00:00:00";
     region := "us-east-1";
     period_days := 90;
     total_backups := 0;
     job_status_summary := get_job_status_summary [];
     plans := [];
     unique_resources := get_unique_resources [];
     backups := map backup_view [];
     storage := {| ebs_volumes := []; snapshots := [] |} |}.

(** ** The simple collectors: jobs, volumes, snapshots *)

(** A line written by [print] in the exception handler of a collector. *)
Inductive collector_line : Type :=
| JobsError (e : exn)
| VolumesError (e : exn)
| SnapshotsError (e : exn).

(** [for page in pages: acc.extend(f(x) for x in page)], until a request
    fails. *)
Fixpoint extend_pages {A B : Type} (f : A -> B) (ps : pages A) (acc : list B)
  : res (list B) :=
  match ps with
  | PagesEnd => Ok acc
  | PagesFail e => Raise e
  | Page items rest => extend_pages f rest (acc ++ map f items)
  end.

(** The states that [get_backup_jobs] asks for, in its order. *)
Definition states : list string := ["COMPLETED"; "FAILED"; "EXPIRED"; "PARTIAL"].

Section Jobs.
(** [paginate(ByCreatedAfter=(now - days).isoformat(), ByState=state)] of
    the ['list_backup_jobs'] paginator. *)
Variable list_backup_jobs : Z -> string -> pages BackupJob.

(** The loop over [states]. *)
Fixpoint jobs_of_states (days : Z) (sts : list string) (jobs : list BackupJob)
  : res (list BackupJob) :=
  match sts with
  | [] => Ok jobs
  | state :: rest =>
      let! jobs' := extend_pages (fun job => job) (list_backup_jobs days state) jobs in
      jobs_of_states days rest jobs'
  end.

(** The [try ... except Exception] around it: the exception is printed
    and the result is the empty list. *)
Definition get_backup_jobs (days : Z) : list BackupJob * list collector_line :=
  match jobs_of_states days states [] with
  | Ok jobs => (jobs, [])
  | Raise e => ([], [JobsError e])
  end.
End Jobs.

Module RawVolume.
Record Attachment : Type := { InstanceId : string; Device : string }.
Record Tag : Type := { Key : string; Value : string }.
Record t : Type := {
  VolumeId : string;
  Size : Z;
  VolumeType : string;
  State : string;
  CreateTime : datetime;
  Encrypted : option bool;
  AvailabilityZone : string;
  Attachments : list Attachment;
  Tags : option (list Tag)
}.
End RawVolume.

Module RawSnapshot.
Record t : Type := {
  SnapshotId : string;
  VolumeId : option string;
  StartTime : datetime;
  VolumeSize : Z;
  State : string;
  Progress : string;
  Description : option string;
  Encrypted : option bool;
  Tags : option (list RawVolume.Tag)
}.
End RawSnapshot.

(** [next((tag['Value'] for tag in tags if tag['Key'] == 'Name'), 'N/A')]. *)
Fixpoint name_tag (tags : list RawVolume.Tag) : string :=
  match tags with
  | [] => "N/A"
  | tag :: rest =>
      if String.eqb (RawVolume.Key tag) "Name" then RawVolume.Value tag
      else name_tag rest
  end.

(** The dictionary built for one volume: the attachment fields start as
    the sentinels and are updated from the first attachment, if any. *)
Definition volume_info (volume : RawVolume.t) : VolumeInfo :=
  let attached :=
    match RawVolume.Attachments volume with
    | attachment :: _ =>
        (RawVolume.InstanceId attachment, RawVolume.Device attachment)
    | [] => ("Not Attached", "N/A")
    end in
  {| vol_volume_id := RawVolume.VolumeId volume;
     vol_size_gb := RawVolume.Size volume;
     vol_volume_type := RawVolume.VolumeType volume;
     vol_state := RawVolume.State volume;
     vol_creation_date := strftime (RawVolume.CreateTime volume);
     vol_encrypted := default false (RawVolume.Encrypted volume);
     vol_availability_zone := RawVolume.AvailabilityZone volume;
     vol_attached_instance := fst attached;
     vol_device := snd attached;
     vol_name := name_tag (default [] (RawVolume.Tags volume)) |}.

Definition snapshot_info (snapshot : RawSnapshot.t) : SnapshotInfo :=
  {| snap_snapshot_id := RawSnapshot.SnapshotId snapshot;
     snap_volume_id := default "N/A" (RawSnapshot.VolumeId snapshot);
     snap_start_time := strftime (RawSnapshot.StartTime snapshot);
     snap_size_gb := RawSnapshot.VolumeSize snapshot;
     snap_state := RawSnapshot.State snapshot;
     snap_progress := RawSnapshot.Progress snapshot;
     snap_description := default "N/A" (RawSnapshot.Description snapshot);
     snap_encrypted := default false (RawSnapshot.Encrypted snapshot);
     snap_name := name_tag (default [] (RawSnapshot.Tags snapshot)) |}.

(** [get_ebs_volumes] over the pages of ['describe_volumes']. *)
Definition get_ebs_volumes (describe_volumes : pages RawVolume.t)
  : list VolumeInfo * list collector_line :=
  match extend_pages volume_info describe_volumes [] with
  | Ok volumes => (volumes, [])
  | Raise e => ([], [VolumesError e])
  end.

(** [get_snapshots] over the pages of ['describe_snapshots'] for the
    owner ['self']. *)
Definition get_snapshots (describe_snapshots : pages RawSnapshot.t)
  : list SnapshotInfo * list collector_line :=
  match extend_pages snapshot_info describe_snapshots [] with
  | Ok snapshots => (snapshots, [])
  | Raise e => ([], [SnapshotsError e])
  end.

(** What a run collects from the service, given the clock reading and the
    region: the input of [generate_backup_report]. *)
Definition collect (now region : string)
  (list_backup_jobs : Z -> string -> pages BackupJob)
  (describe_volumes : pages RawVolume.t)
  (describe_snapshots : pages RawSnapshot.t) : Collected :=
  {| col_now := now;
     col_region := region;
     col_backup_jobs := fun days => fst (get_backup_jobs list_backup_jobs days);
     col_ebs_volumes := fst (get_ebs_volumes describe_volumes);
     col_snapshots := fst (get_snapshots describe_snapshots) |}.

(** ** Vocabulary of the further properties *)

(** The status names that have a row of their own in the Summary table. *)
Definition fixed_status_rows : list string :=
  ["COMPLETED"; "COMPLETED_WITH_ISSUES"; "FAILED"; "EXPIRED"; "PARTIAL"].

(** The sum of the numbers shown in those rows. *)
Definition fixed_rows_total (d : gmap string nat) : nat :=
  list_sum (map (fun k => default 0%nat (d !! k)) fixed_status_rows).

(** The listing of jobs honours its [ByState] filter. *)
Definition state_filter_honoured (list_backup_jobs : Z -> string -> pages BackupJob)
  (days : Z) : Prop :=
  forall state job,
    job ∈ pages_items (list_backup_jobs days state) -> State job = state.

(** A listing in which the request for the EXPIRED jobs fails after the
    COMPLETED and FAILED ones were fetched. *)
Definition example_failing_listing (days : Z) (state : string) : pages BackupJob :=
  if String.eqb state "COMPLETED" then Page [example_job_jan; example_job_other] PagesEnd
  else if String.eqb state "FAILED" then Page [example_job_mar] PagesEnd
  else if String.eqb state "EXPIRED" then PagesFail (ClientError "Throttling")
  else PagesEnd.

(** The same listing without the failure. *)
Definition example_listing (days : Z) (state : string) : pages BackupJob :=
  if String.eqb state "COMPLETED" then Page [example_job_jan; example_job_other] PagesEnd
  else if String.eqb state "FAILED" then Page [example_job_mar] PagesEnd
  else PagesEnd.

(** The example client again, but the details of the second plan cannot
    be fetched. *)
Definition example_client_broken : BackupClient :=
  {| list_backup_plans := list_backup_plans example_client;
     get_backup_plan := fun plan =>
       if String.eqb plan "plan-2" then Raise (ClientError "ResourceNotFound")
       else get_backup_plan example_client plan;
     list_backup_selections := fun _ => PagesEnd;
     get_backup_selection := get_backup_selection example_client |}.

(** The names of the sheets, in the order in which they are written. *)
Definition sheet_names : list string :=
  ["Summary"; "Unique Resources"; "Backup Plans"; "Backup Jobs";
   "Resource Summary"; "EBS Volumes"; "Snapshots"; "Monthly Resource Summary"].

(** No tag of the list has the key ['Name']. *)
Definition no_name_tag (tags : list RawVolume.Tag) : Prop :=
  Forall (fun tag => RawVolume.Key tag <> "Name") tags.

(** A volume with two attachments and two ['Name'] tags. *)
Definition example_volume : RawVolume.t :=
  {| RawVolume.VolumeId := "vol-1";
     RawVolume.Size := 100;
     RawVolume.VolumeType := "gp3";
     RawVolume.State := "in-use";
     RawVolume.CreateTime := {| dt_year := 2023; dt_month := 12; dt_day := 24;
                                dt_hour := 8; dt_minute := 30 |};
     RawVolume.Encrypted := None;
     RawVolume.AvailabilityZone := "us-east-1a";
     RawVolume.Attachments :=
       [{| RawVolume.InstanceId := "i-1"; RawVolume.Device := "/dev/sda1" |};
        {| RawVolume.InstanceId := "i-2"; RawVolume.Device := "/dev/sdf" |}];
     RawVolume.Tags :=
       Some [{| RawVolume.Key := "env"; RawVolume.Value := "prod" |};
             {| RawVolume.Key := "Name"; RawVolume.Value := "data" |};
             {| RawVolume.Key := "Name"; RawVolume.Value := "other" |}] |}.

(** The sizes of the jobs of a resource, and of a resource in a month, in
    the order of the jobs. *)
Definition sizes_of (backups : list BackupView) (r : string) : list Q :=
  map bk_backup_size_gb (filter (fun b => bk_resource_id b = r) backups).

Definition cell_sizes (backups : list BackupView) (r m : string) : list Q :=
  map bk_backup_size_gb
    (filter (fun b => bk_resource_id b = r /\ month_of b = m) backups).

(** What a row of the Resource Summary sheet holds for a resource. *)
Definition summary_row_for (round2 : Q -> Q) (backups : list BackupView)
  (row : ResourceSummaryRow) : Prop :=
  rs_total_backups row = length (sizes_of backups (rs_resource_id row))
  /\ (1 <= rs_total_backups row)%nat
  /\ rs_total_size_tb row
     = round2 (Qdiv (py_sum (sizes_of backups (rs_resource_id row))) (inject_Z 1024))
  /\ rs_average_size_gb row
     = round2 (Qdiv (py_sum (sizes_of backups (rs_resource_id row)))
                 (inject_Z (Z.of_nat (length (sizes_of backups (rs_resource_id row)))))).

(** The fields of a timestamp that [strftime('%Y-%m-%d %H:%M')] renders,
    most significant first, and their comparison one after the other:
    the order of time, to the minute. *)
Definition dt_fields (d : datetime) : list nat :=
  [dt_year d; dt_month d; dt_day d; dt_hour d; dt_minute d].

Fixpoint lex_compare (a b : list nat) : comparison :=
  match a, b with
  | x :: a', y :: b' =>
      match Nat.compare x y with
      | Eq => lex_compare a' b'
      | c => c
      end
  | _, _ => Eq
  end.

Definition dt_compare (d1 d2 : datetime) : comparison :=
  lex_compare (dt_fields d1) (dt_fields d2).

(** The timestamps that the service returns: a year of four digits and
    calendar values in the other fields. *)
Definition calendar_datetime (d : datetime) : Prop :=
  (1000 <= dt_year d < 10 * 1000 /\ 1 <= dt_month d <= 12 /\ 1 <= dt_day d <= 31
   /\ dt_hour d <= 23 /\ dt_minute d <= 59)%nat.


(** The report generated from the example jobs by the example client. *)
Definition example_report : Report :=
  fst (generate_backup_report example_client example_collected 90).

(** ** The region prompt: [prompt_region_selection] *)

(** The [str] methods of the prompt, on ASCII text. *)
Module PyInput.

(** The ASCII characters that [str.strip()] removes. *)
Definition is_space (c : ascii) : bool :=
  let n := nat_of_ascii c in
  ((9 <=? n)%nat && (n <=? 13)%nat) || ((28 <=? n)%nat && (n <=? 32)%nat).

Fixpoint lstrip (s : string) : string :=
  match s with
  | EmptyString => EmptyString
  | String c s' => if is_space c then lstrip s' else s
  end.

Fixpoint rstrip (s : string) : string :=
  match s with
  | EmptyString => EmptyString
  | String c s' =>
      match rstrip s' with
      | EmptyString => if is_space c then EmptyString else String c EmptyString
      | r => String c r
      end
  end.

(** [s.strip()]. *)
Definition strip (s : string) : string := rstrip (lstrip s).

Definition is_digit (c : ascii) : bool :=
  let n := nat_of_ascii c in (48 <=? n)%nat && (n <=? 57)%nat.

Fixpoint all_digits (s : string) : bool :=
  match s with
  | EmptyString => true
  | String c s' => is_digit c && all_digits s'
  end.

(** [s.isdigit()]: at least one character, and only digits. *)
Definition isdigit (s : string) : bool :=
  match s with
  | EmptyString => false
  | _ => all_digits s
  end.

Fixpoint int_from (acc : Z) (s : string) : Z :=
  match s with
  | EmptyString => acc
  | String c s' => int_from (10 * acc + (Z.of_nat (nat_of_ascii c) - 48)) s'
  end.

(** [int(s)] for a string of digits. *)
Definition int (s : string) : Z := int_from 0 s.

End PyInput.

(** One pass through the body of the [while True] loop on the line that
    [input] returned: the region to return, or [None] when the choice is
    rejected and the loop goes on. A choice made of digits is only read
    as a number, never as a region name. *)
Definition region_choice (available_regions : list string) (line : string)
  : option string :=
  let choice := PyInput.strip line in
  if PyInput.isdigit choice then
    let index := PyInput.int choice - 1 in
    if (0 <=? index) && (index <? Z.of_nat (length available_regions))
    then available_regions !! Z.to_nat index
    else None
  else if existsb (String.eqb choice) available_regions then Some choice
  else None.

(** The loop over the lines typed by the user; [None] when the input ends
    before a choice is accepted (the [EOFError] of [input] is not caught). *)
Fixpoint prompt_region_selection (available_regions : list string)
  (lines : list string) : option string :=
  match lines with
  | [] => None
  | line :: rest =>
      match region_choice available_regions line with
      | Some region => Some region
      | None => prompt_region_selection available_regions rest
      end
  end.

(** The decimal numeral of a number, as the menu prints it. *)
Definition numeral (k : nat) : string := NilZero.string_of_uint (Nat.to_uint k).

(** * Properties *)

(** ** Strings *)

Section StringFacts.
Local Open Scope nat_scope.

Lemma append_cons (c : ascii) (s t : string) :
  String c s +:+ t = String c (s +:+ t).
Proof. reflexivity. Qed.

Lemma append_nil_l (s : string) : EmptyString +:+ s = s.
Proof. reflexivity. Qed.

Lemma append_nil_r (s : string) : s +:+ EmptyString = s.
Proof.
  induction s as [|c s IH]; [reflexivity | now rewrite append_cons, IH].
Qed.

Lemma append_assoc (a b c : string) : (a +:+ b) +:+ c = a +:+ b +:+ c.
Proof.
  induction a as [|x a IH]; [reflexivity | now rewrite !append_cons, IH].
Qed.






End StringFacts.

(** ** Status classifier *)

Section StatusClassifier.
Local Open Scope nat_scope.



Lemma status_step_key (d : gmap string nat) (job : BackupJob) :
  status_step d job = incr (status_key job) d.
Proof.
  unfold status_step, status_key.
  destruct (String.eqb (State job) "COMPLETED" && _); reflexivity.
Qed.

Lemma summary_snoc (jobs : list BackupJob) (job : BackupJob) :
  get_job_status_summary (jobs ++ [job])
  = incr (status_key job) (get_job_status_summary jobs).
Proof.
  unfold get_job_status_summary. rewrite foldl_app. simpl. apply status_step_key.
Qed.

Lemma incr_lookup_total (k k' : string) (d : gmap string nat) :
  incr k d !!! k' = if decide (k = k') then S (d !!! k') else d !!! k'.
Proof.
  unfold incr. case_decide as E.
  - subst. now rewrite lookup_total_insert_eq.
  - now rewrite lookup_total_insert_ne.
Qed.

(** Each counter holds the number of jobs classified under its key. *)
Lemma summary_counts (jobs : list BackupJob) (k : string) :
  get_job_status_summary jobs !!! k
  = length (filter (fun job => status_key job = k) jobs).
Proof.
  induction jobs as [|job jobs IH] using rev_ind.
  - unfold get_job_status_summary. simpl. now rewrite lookup_total_empty.
  - rewrite summary_snoc, incr_lookup_total, filter_app, length_app, IH.
    rewrite filter_cons, filter_nil.
    case_decide; simpl; lia.
Qed.

(** A key is bound exactly when some job is classified under it. *)
Lemma summary_bound (jobs : list BackupJob) (k : string) :
  is_Some (get_job_status_summary jobs !! k)
  <-> exists job, job ∈ jobs /\ status_key job = k.
Proof.
  induction jobs as [|job jobs IH] using rev_ind.
  - unfold get_job_status_summary. simpl. rewrite lookup_empty. split.
    + intros [? ?]. discriminate.
    + intros (? & H & _). inversion H.
  - rewrite summary_snoc. unfold incr.
    destruct (decide (status_key job = k)) as [E|E].
    + subst. rewrite lookup_insert_eq. split; [|eauto].
      intros _. exists job. split; [|reflexivity].
      apply elem_of_app. right. constructor.
    + rewrite lookup_insert_ne by done. rewrite IH. split.
      * intros (j & Hj & Hk). exists j. split; [|done].
        apply elem_of_app. now left.
      * intros (j & Hj & Hk). apply elem_of_app in Hj as [Hj|Hj]; [eauto|].
        apply list_elem_of_singleton in Hj. congruence.
Qed.

Lemma sum_values_incr (k : string) (d : gmap string nat) :
  sum_values (incr k d) = S (sum_values d).
Proof.
  unfold sum_values, incr.
  destruct (d !! k) as [n|] eqn:E.
  - rewrite <- (insert_delete_eq d k (S (d !!! k))).
    rewrite map_fold_insert_L; [| intros; lia | apply lookup_delete_eq].
    rewrite (map_fold_delete_L _ _ k n d); [| intros; lia | exact E].
    rewrite lookup_total_alt, E. simpl. lia.
  - rewrite map_fold_insert_L; [| intros; lia | exact E].
    rewrite lookup_total_alt, E. reflexivity.
Qed.
End StatusClassifier.


(** C4. The counts of the status summary add up to the number of jobs. *)
Theorem status_sum_invariant (jobs : list BackupJob) :
  sum_values (get_job_status_summary jobs) = length jobs.
Proof.
  induction jobs as [|job jobs IH] using rev_ind.
  - reflexivity.
  - rewrite summary_snoc, sum_values_incr, IH, length_app. simpl. lia.
Qed.

(** ** Final path segments *)

Section SplitFacts.
Variable sep : ascii.

Lemma split_nonempty (s : string) : PyStr.split sep s <> [].
Proof.
  destruct s as [|c s]; simpl; [discriminate|].
  destruct (Ascii.eqb c sep); [discriminate|].
  destruct (PyStr.split sep s); discriminate.
Qed.

Lemma split_segments (s : string) :
  Forall (fun w => PyStr.has_char sep w = false) (PyStr.split sep s).
Proof.
  induction s as [|c s IH]; simpl.
  - repeat constructor.
  - destruct (Ascii.eqb c sep) eqn:E.
    + constructor; [reflexivity | exact IH].
    + destruct (PyStr.split sep s) as [|w ws]; [repeat constructor; simpl; now rewrite E|].
      inversion IH as [|? ? Hw Hws]; subst.
      constructor; [simpl; now rewrite E, Hw | exact Hws].
Qed.

Lemma join_cons (w : string) (ws : list string) :
  ws <> [] -> PyStr.join sep (w :: ws) = w +:+ String sep (PyStr.join sep ws).
Proof. destruct ws; [congruence | reflexivity]. Qed.

Lemma join_split (s : string) : PyStr.join sep (PyStr.split sep s) = s.
Proof.
  induction s as [|c s IH]; simpl; [reflexivity|].
  pose proof (split_nonempty s) as Hne.
  destruct (Ascii.eqb c sep) eqn:E.
  - apply Ascii.eqb_eq in E. subst c.
    rewrite join_cons by exact Hne. now rewrite IH.
  - destruct (PyStr.split sep s) as [|w ws]; [congruence|].
    destruct ws as [|w' ws].
    + simpl in *. now rewrite IH.
    + rewrite join_cons in IH by discriminate.
      rewrite join_cons by discriminate.
      now rewrite append_cons, IH.
Qed.

(** The text joined from segments ends with the last segment, right
    after a separator unless it is the only segment. *)
Lemma join_last (l : list string) :
  l <> [] ->
  (l = [PyStr.last_item l] /\ PyStr.join sep l = PyStr.last_item l)
  \/ exists pre, PyStr.join sep l = pre +:+ String sep (PyStr.last_item l).
Proof.
  induction l as [|w ws IH]; [congruence|]. intros _.
  destruct ws as [|w' ws]; [left; split; reflexivity|].
  right. rewrite join_cons by discriminate.
  destruct IH as [[Hl Hj]|[pre Hj]]; [discriminate| |].
  - exists w. unfold PyStr.last_item in *.
    change (List.last (w :: w' :: ws) EmptyString) with (List.last (w' :: ws) EmptyString). now rewrite <- Hj.
  - exists (w +:+ String sep pre). unfold PyStr.last_item in *.
    change (List.last (w :: w' :: ws) EmptyString) with (List.last (w' :: ws) EmptyString).
    rewrite Hj. now rewrite append_assoc, append_cons.
Qed.

Lemma last_item_in (l : list string) : l <> [] -> In (PyStr.last_item l) l.
Proof.
  induction l as [|w ws IH]; [congruence|]. intros _.
  destruct ws as [|w' ws]; [now left|].
  right. apply IH. discriminate.
Qed.
End SplitFacts.

(** [arn.split('/')[-1]] is the final path segment of [arn]. *)
Lemma split_last_final_segment (arn : string) :
  is_final_segment arn (PyStr.last_item (PyStr.split "/" arn)).
Proof.
  pose proof (split_nonempty "/" arn) as Hne.
  pose proof (split_segments "/" arn) as Hseg.
  pose proof (join_split "/" arn) as Hjoin.
  split.
  - rewrite Forall_forall in Hseg. apply Hseg.
    apply list_elem_of_In. now apply last_item_in.
  - destruct (join_last "/" _ Hne) as [[Hl Hj]|[pre Hj]].
    + left. rewrite Hjoin in Hj. split; [|now symmetry].
      rewrite Forall_forall in Hseg. rewrite Hj at 1. apply Hseg.
      apply list_elem_of_In. now apply last_item_in.
    + right. exists pre. rewrite Hjoin in Hj. exact Hj.
Qed.

(** ** Insertion-ordered dictionaries *)

Section ODictFacts.
Context {V : Type}.
Implicit Types (d : list (string * V)) (k : string) (v : V).

Lemma odict_mem_keys k d : ODict.mem k d = true <-> k ∈ ODict.keys d.
Proof.
  unfold ODict.mem, ODict.keys. induction d as [|[k' v'] d IH]; simpl.
  - split; [discriminate | intros H; inversion H].
  - rewrite orb_true_iff, IH, String.eqb_eq, elem_of_cons. intuition congruence.
Qed.

Lemma odict_mem_false k d : ODict.mem k d = false <-> k ∉ ODict.keys d.
Proof.
  rewrite <- odict_mem_keys. destruct (ODict.mem k d); intuition congruence.
Qed.

(** Binding a new key appends it. *)
Lemma odict_set_fresh k v d :
  ODict.mem k d = false -> ODict.set k v d = d ++ [(k, v)].
Proof.
  unfold ODict.mem. induction d as [|[k' v'] d IH]; simpl; [reflexivity|].
  intros H. apply orb_false_iff in H as [Hk Hd].
  rewrite Hk. now rewrite IH.
Qed.

Lemma odict_alter_keys (f : V -> V) k d :
  ODict.keys (ODict.alter f k d) = ODict.keys d.
Proof.
  unfold ODict.keys. induction d as [|[k' v'] d IH]; simpl; [reflexivity|].
  destruct (String.eqb k' k); simpl; [reflexivity | now rewrite IH].
Qed.

Lemma odict_touch_mem k v d : ODict.mem k (ODict.touch k v d) = true.
Proof.
  unfold ODict.touch. destruct (ODict.mem k d) eqn:E; [exact E|].
  rewrite odict_set_fresh by exact E.
  apply odict_mem_keys. unfold ODict.keys. rewrite map_app.
  apply elem_of_app. right. constructor.
Qed.

Lemma odict_touch_present k v d :
  ODict.mem k d = true -> ODict.touch k v d = d.
Proof. unfold ODict.touch. now intros ->. Qed.

Lemma odict_alter_app_fresh (f : V -> V) k v d :
  ODict.mem k d = false ->
  ODict.alter f k (d ++ [(k, v)]) = d ++ [(k, f v)].
Proof.
  unfold ODict.mem. induction d as [|[k' v'] d IH]; simpl; intros H.
  - now rewrite String.eqb_refl.
  - apply orb_false_iff in H as [Hk Hd]. rewrite Hk. now rewrite IH.
Qed.

Lemma odict_alter_Forall (P : V -> Prop) (f : V -> V) k d :
  (forall v, P v -> P (f v)) ->
  Forall (fun kv => P (snd kv)) d ->
  Forall (fun kv => P (snd kv)) (ODict.alter f k d).
Proof.
  intros Hf. induction 1 as [|[k' v'] d Hhd Htl IH]; simpl; [constructor|].
  destruct (String.eqb k' k); constructor; simpl in *; auto.
Qed.

(** Looking a key up in a [defaultdict] and updating what is bound to it
    keeps a property that the update preserves and establishes on the
    default. *)
Lemma odict_alter_touch_Forall (P : V -> Prop) (f : V -> V) k dflt d :
  (forall v, P v -> P (f v)) -> P (f dflt) ->
  Forall (fun kv => P (snd kv)) d ->
  Forall (fun kv => P (snd kv)) (ODict.alter f k (ODict.touch k dflt d)).
Proof.
  intros Hf Hd HP. unfold ODict.touch. destruct (ODict.mem k d) eqn:E.
  - now apply odict_alter_Forall.
  - rewrite odict_set_fresh, odict_alter_app_fresh by exact E.
    apply Forall_app. split; [exact HP | repeat constructor; exact Hd].
Qed.

Lemma odict_touch_keys k dflt d :
  ODict.keys (ODict.touch k dflt d)
  = if ODict.mem k d then ODict.keys d else ODict.keys d ++ [k].
Proof.
  unfold ODict.touch. destruct (ODict.mem k d) eqn:E; [reflexivity|].
  rewrite odict_set_fresh by exact E. unfold ODict.keys. now rewrite map_app.
Qed.

Lemma odict_alter_mem (f : V -> V) k k' d :
  ODict.mem k' (ODict.alter f k d) = ODict.mem k' d.
Proof.
  destruct (ODict.mem k' d) eqn:E.
  - apply odict_mem_keys. rewrite odict_alter_keys. now apply odict_mem_keys.
  - apply odict_mem_false. rewrite odict_alter_keys. now apply odict_mem_false.
Qed.
End ODictFacts.

(** ** Resource normalizer *)

Section Normalizer.
Local Open Scope nat_scope.

Local Abbreviation id_of job := (ur_resource_id (record_of job)).

Lemma unique_step_record (d : list (string * ResourceRecord)) (job : BackupJob) :
  unique_step d job
  = if ODict.mem (id_of job) d then d else d ++ [(id_of job, record_of job)].
Proof.
  unfold unique_step. simpl.
  destruct (ODict.mem _ d) eqn:E; simpl; [reflexivity|].
  now rewrite odict_set_fresh by exact E.
Qed.

Lemma unique_snoc (jobs : list BackupJob) (job : BackupJob) :
  foldl unique_step [] (jobs ++ [job])
  = if ODict.mem (id_of job) (foldl unique_step [] jobs)
    then foldl unique_step [] jobs
    else foldl unique_step [] jobs ++ [(id_of job, record_of job)].
Proof. rewrite foldl_app. simpl. apply unique_step_record. Qed.

Lemma unique_invariant (jobs : list BackupJob) :
  NoDup (ODict.keys (foldl unique_step [] jobs))
  /\ (forall job, job ∈ jobs -> id_of job ∈ ODict.keys (foldl unique_step [] jobs))
  /\ Forall (first_of jobs) (foldl unique_step [] jobs).
Proof.
  induction jobs as [|x jobs (Hnd & Hall & Hfirst)] using rev_ind.
  - simpl. split; [constructor|]. split; [|constructor].
    intros job H. inversion H.
  - rewrite unique_snoc.
    assert (Hext : Forall (first_of (jobs ++ [x])) (foldl unique_step [] jobs)).
    { eapply Forall_impl; [exact Hfirst|].
      intros kv (pre & job & post & -> & Hpre & Hk & Hr).
      exists pre, job, (post ++ [x]). rewrite <- app_assoc. auto. }
    destruct (ODict.mem (id_of x) _) eqn:E.
    + split; [exact Hnd|]. split; [|exact Hext].
      intros job Hj. apply elem_of_app in Hj as [Hj|Hj]; [auto|].
      apply list_elem_of_singleton in Hj. subst. now apply odict_mem_keys.
    + apply odict_mem_false in E.
      split; [|split].
      * unfold ODict.keys in *. rewrite map_app. simpl.
        apply NoDup_app. split; [exact Hnd|]. split; [|apply NoDup_singleton].
        intros k Hk Hx. apply list_elem_of_singleton in Hx. now subst.
      * intros job Hj. unfold ODict.keys in *. rewrite map_app.
        apply elem_of_app. apply elem_of_app in Hj as [Hj|Hj]; [left; auto|].
        right. apply list_elem_of_singleton in Hj. subst. constructor.
      * apply Forall_app. split; [exact Hext|]. repeat constructor.
        exists jobs, x, []. repeat split; try reflexivity.
        intros earlier He Heq. apply E. rewrite <- Heq. auto.
Qed.

Lemma unique_values_ids (jobs : list BackupJob) :
  map ur_resource_id (get_unique_resources jobs)
  = ODict.keys (foldl unique_step [] jobs).
Proof.
  unfold get_unique_resources, ODict.values, ODict.keys.
  destruct (unique_invariant jobs) as (_ & _ & Hfirst).
  induction Hfirst as [|[k r] d (pre & job & post & _ & _ & Hk & Hr) _ IH];
    simpl; [reflexivity|].
  simpl in Hk, Hr. rewrite IH. now subst.
Qed.
End Normalizer.

(** C6. The resource normalizer scans the jobs from left to right and keeps
    one record per resource identity, filled from the first job that bears
    it: the identities of the result are pairwise distinct, every job's
    identity has a record, every record is the one written for a job that
    no earlier job shares its identity with, and a further job whose
    identity is already present leaves the result as it is. *)
Theorem first_write_wins (jobs : list BackupJob) :
  NoDup (map ur_resource_id (get_unique_resources jobs))
  /\ (forall job, job ∈ jobs ->
        exists rec, rec ∈ get_unique_resources jobs
                    /\ ur_resource_id rec = ur_resource_id (record_of job))
  /\ (forall rec, rec ∈ get_unique_resources jobs ->
        exists pre job post,
          jobs = pre ++ job :: post
          /\ (forall earlier, earlier ∈ pre ->
                ur_resource_id (record_of earlier) <> ur_resource_id (record_of job))
          /\ rec = record_of job)
  /\ (forall later,
        get_unique_resources (jobs ++ [later])
        = if decide (ur_resource_id (record_of later)
                       ∈ map ur_resource_id (get_unique_resources jobs))
          then get_unique_resources jobs
          else get_unique_resources jobs ++ [record_of later]).
Proof.
  destruct (unique_invariant jobs) as (Hnd & Hall & Hfirst).
  split; [now rewrite unique_values_ids|].
  split; [|split].
  - intros job Hj. apply Hall in Hj. rewrite <- unique_values_ids in Hj.
    apply list_elem_of_fmap in Hj as (rec & Hid & Hrec). eauto.
  - intros rec Hrec. unfold get_unique_resources, ODict.values in Hrec.
    apply list_elem_of_fmap in Hrec as ([k r] & -> & Hkv).
    rewrite Forall_forall in Hfirst.
    destruct (Hfirst _ Hkv) as (pre & job & post & Hj & Hpre & _ & Hr).
    exists pre, job, post. auto.
  - intros later. rewrite unique_values_ids.
    unfold get_unique_resources. rewrite unique_snoc.
    case_decide as Hin.
    + apply odict_mem_keys in Hin. now rewrite Hin.
    + apply odict_mem_false in Hin. rewrite Hin.
      unfold ODict.values. now rewrite map_app.
Qed.

(** ** Per-job view *)



Lemma report_backups (client : BackupClient) (col : Collected) (days : Z) :
  backups (fst (generate_backup_report client col days))
  = map backup_view (col_backup_jobs col days).
Proof.
  unfold generate_backup_report. now destruct (get_backup_plans client).
Qed.


(** ** Resource Summary grouping *)

Section ResourceSummary.
Local Open Scope nat_scope.

Lemma resource_summary_step_eq (d : list (string * (nat * Q))) (job : BackupView) :
  resource_summary_step d job
  = ODict.alter (fun data => (fst data, Qplus (snd data) (bk_backup_size_gb job)))
      (bk_resource_id job)
      (ODict.alter (fun data => (S (fst data), snd data)) (bk_resource_id job)
         (ODict.touch (bk_resource_id job) fresh_entry d)).
Proof.
  unfold resource_summary_step.
  rewrite (odict_touch_present _ _ (ODict.alter _ _ _)); [reflexivity|].
  rewrite odict_alter_mem. apply odict_touch_mem.
Qed.

(** The count of an entry is raised in the very iteration that binds its
    key, so no entry is ever left with a count of zero. *)
Lemma resource_summary_step_counts (d : list (string * (nat * Q))) (job : BackupView) :
  Forall (fun kv => 1 <= fst (snd kv)) d ->
  Forall (fun kv => 1 <= fst (snd kv)) (resource_summary_step d job).
Proof.
  intros Hd. rewrite resource_summary_step_eq.
  apply (odict_alter_Forall (fun data => 1 <= fst data)); [auto|].
  apply (odict_alter_touch_Forall (fun data => 1 <= fst data));
    simpl; [lia | lia | exact Hd].
Qed.

Lemma resource_summary_step_keys (d : list (string * (nat * Q))) (job : BackupView) :
  ODict.keys (resource_summary_step d job)
  = if ODict.mem (bk_resource_id job) d then ODict.keys d
    else ODict.keys d ++ [bk_resource_id job].
Proof.
  rewrite resource_summary_step_eq, !odict_alter_keys. apply odict_touch_keys.
Qed.

Lemma resource_summary_snoc (backups : list BackupView) (job : BackupView) :
  resource_summary_of (backups ++ [job])
  = resource_summary_step (resource_summary_of backups) job.
Proof. unfold resource_summary_of. now rewrite foldl_app. Qed.

Lemma resource_summary_counts (backups : list BackupView) :
  Forall (fun kv => 1 <= fst (snd kv)) (resource_summary_of backups).
Proof.
  induction backups as [|job backups IH] using rev_ind; [constructor|].
  rewrite resource_summary_snoc. now apply resource_summary_step_counts.
Qed.

(** The keys of the grouping are the resource identities of the jobs. *)
Lemma resource_summary_keys (backups : list BackupView) (k : string) :
  k ∈ ODict.keys (resource_summary_of backups) <-> k ∈ map bk_resource_id backups.
Proof.
  induction backups as [|job backups IH] using rev_ind.
  - simpl. split; intros H; inversion H.
  - rewrite resource_summary_snoc, resource_summary_step_keys, map_app.
    destruct (ODict.mem _ _) eqn:E.
    + apply odict_mem_keys in E. rewrite elem_of_app, <- IH. simpl.
      rewrite list_elem_of_singleton. split; [auto|]. intros [H| ->]; auto.
    + rewrite !elem_of_app, IH. reflexivity.
Qed.

Variable round2 : Q -> Q.

Lemma resource_data_defined (items : list (string * (nat * Q))) :
  Forall (fun kv => 1 <= fst (snd kv)) items ->
  exists rows, resource_data round2 items = Ok rows
               /\ Forall2 (summary_row_of round2) items rows.
Proof.
  induction 1 as [|[res_id [count size]] items Hc _ (rows & IH & Hrows)]; simpl.
  - exists []. split; [reflexivity | constructor].
  - simpl in Hc. destruct count as [|count]; [lia|]. simpl. rewrite IH. simpl.
    eexists. split; [reflexivity|]. constructor; [|exact Hrows].
    repeat split.
Qed.

(** The division of the model does raise on a zero count. *)
Lemma resource_data_zero_count (res_id : string) (size : Q)
  (rest : list (string * (nat * Q))) :
  resource_data round2 ((res_id, (0, size)) :: rest) = Raise ZeroDivisionError.
Proof. reflexivity. Qed.
End ResourceSummary.

(** C10. In the Resource Summary table the division behind 'Average Size
    (GB)' is always defined: every key of the grouping is the resource
    identity of some job and is bound in the iteration that counts that
    job, so every count is at least 1 and every row is computed. *)
Theorem average_size_defined (round2 : Q -> Q) (backups : list BackupView) :
  Forall (fun kv => (1 <= fst (snd kv))%nat
                    /\ exists job, job ∈ backups /\ bk_resource_id job = fst kv)
    (resource_summary_of backups)
  /\ exists rows,
       resource_data round2 (resource_summary_of backups) = Ok rows
       /\ Forall2 (summary_row_of round2) (resource_summary_of backups) rows.
Proof.
  split; [|apply resource_data_defined, resource_summary_counts].
  pose proof (resource_summary_counts backups) as Hc.
  rewrite Forall_forall in Hc. apply Forall_forall. intros [k data] Hin.
  split; [now apply (Hc (k, data))|].
  assert (Hk : k ∈ ODict.keys (resource_summary_of backups)).
  { unfold ODict.keys. apply list_elem_of_fmap. now exists (k, data). }
  apply resource_summary_keys, list_elem_of_fmap in Hk as (job & -> & Hj).
  eauto.
Qed.

(** ** Summary table and the projector as a whole *)

Section ProjectorFacts.
Variable round2 : Q -> Q.

Lemma summary_values_empty (report : Report) :
  backups report = [] ->
  summary_values round2 report
  = Raise (ValueError "min() arg is an empty sequence").
Proof. unfold summary_values. now intros ->. Qed.

(** A call leaves the report object as it found it, and adds to the
    workbook sheets that depend on the report alone. *)
Lemma create_excel_report_world (w : World) :
  create_excel_report round2 w
  = (fst (fst (project round2 (w_report w))),
     {| w_report := w_report w;
        w_sheets := w_sheets w ++ snd (project round2 (w_report w)) |}).
Proof.
  unfold project, create_excel_report, proj_bind, get_report, eval, to_excel.
  simpl.
  destruct (summary_values round2 (w_report w)); simpl;
    [|now rewrite app_nil_r; destruct w].
  destruct (resource_data round2 _); simpl;
    repeat rewrite <- app_assoc; reflexivity.
Qed.

Lemma project_report (report : Report) :
  snd (fst (project round2 report)) = report.
Proof.
  unfold project.
  now rewrite (create_excel_report_world {| w_report := report; w_sheets := [] |}).
Qed.

Lemma project_times_spec (n : nat) (report : Report) :
  project_times round2 n report
  = (report,
     replicate n (fst (fst (project round2 report)), snd (project round2 report))).
Proof.
  induction n as [|n IH]; simpl; [reflexivity|].
  pose proof (project_report report) as Hrep.
  destruct (project round2 report) as [[r report'] sheets]. simpl in *. subst report'.
  now rewrite IH.
Qed.
End ProjectorFacts.

(** C2, as the code behaves: with an empty backups list the 'Values' column
    of the Summary table is not built. The minimum over no creation date
    raises [ValueError], the call ends with that exception and no sheet is
    written; no "N/A" row is produced for the first and last backup
    date. *)
Theorem empty_backups_raise (round2 : Q -> Q) (report : Report) :
  backups report = [] ->
  summary_values round2 report = Raise (ValueError "min() arg is an empty sequence")
  /\ project round2 report
     = (Raise (ValueError "min() arg is an empty sequence"), report, []).
Proof.
  intros He. split; [now apply summary_values_empty|].
  unfold project, create_excel_report, proj_bind, get_report, eval. simpl.
  now rewrite summary_values_empty.
Qed.

(** C9. The tabular projector leaves the report document unchanged, and any
    number of calls in a row on the same document give, call after call,
    the same outcome and the same sheets with the same contents; within a
    workbook it only appends sheets that depend on the report alone. *)
Theorem projector_pure (round2 : Q -> Q) (report : Report) (n : nat) :
  snd (fst (project round2 report)) = report
  /\ fst (project_times round2 n report) = report
  /\ snd (project_times round2 n report)
     = replicate n (fst (fst (project round2 report)), snd (project round2 report))
  /\ (forall w : World,
        w_report w = report ->
        w_report (snd (create_excel_report round2 w)) = report
        /\ fst (create_excel_report round2 w) = fst (fst (project round2 report))
        /\ w_sheets (snd (create_excel_report round2 w))
           = w_sheets w ++ snd (project round2 report)).
Proof.
  split; [apply project_report|].
  rewrite project_times_spec. split; [reflexivity|]. split; [reflexivity|].
  intros w <-. now rewrite create_excel_report_world.
Qed.

(** ** Backup plans *)

Section PlanFacts.
Variable client : BackupClient.

Lemma fetched_app (plan : string) (a b : list SelectionSummary) :
  fetched_before_failure client plan (a ++ b)
  = if forallb (selection_ok client plan) a
    then fetched_before_failure client plan a ++ fetched_before_failure client plan b
    else fetched_before_failure client plan a.
Proof.
  induction a as [|x a IH]; simpl; [reflexivity|]. unfold selection_ok at 1.
  destruct (get_backup_selection client plan (SelectionId x)); simpl; [|reflexivity].
  rewrite IH. now destruct (forallb _ a).
Qed.

Lemma selections_of_page_spec (plan : string) (items : list SelectionSummary)
  (acc : list Selection) :
  fst (selections_of_page client plan items acc)
  = acc ++ fetched_before_failure client plan items
  /\ (snd (selections_of_page client plan items acc) = None
      <-> forallb (selection_ok client plan) items = true).
Proof.
  revert acc. induction items as [|x items IH]; intros acc; simpl.
  - now rewrite app_nil_r.
  - unfold selection_ok at 1.
    destruct (get_backup_selection client plan (SelectionId x)); simpl.
    + destruct (IH (acc ++ [make_selection a])) as [-> ->].
      now rewrite <- app_assoc.
    + rewrite app_nil_r. split; [reflexivity | split; discriminate].
Qed.

Lemma selections_of_pages_spec (plan : string) (ps : pages SelectionSummary)
  (acc : list Selection) :
  fst (selections_of_pages client plan ps acc)
  = acc ++ fetched_before_failure client plan (pages_items ps)
  /\ (snd (selections_of_pages client plan ps acc) = None
      <-> pages_complete ps = true
          /\ forallb (selection_ok client plan) (pages_items ps) = true).
Proof.
  revert acc. induction ps as [|e|items rest IH]; intros acc; simpl.
  - rewrite app_nil_r. tauto.
  - rewrite app_nil_r. split; [reflexivity|]. split; [discriminate|]. now intros [? _].
  - destruct (selections_of_page_spec plan items acc) as [Hf Hs].
    destruct (selections_of_page client plan items acc) as [sels [e|]];
      simpl in Hf, Hs; rewrite fetched_app, forallb_app.
    + destruct (forallb (selection_ok client plan) items).
      * destruct Hs as [_ Hs]. now specialize (Hs eq_refl).
      * simpl. split; [exact Hf|]. split; [discriminate|]. now intros [_ ?].
    + destruct Hs as [Hs _]. rewrite (Hs eq_refl). simpl.
      destruct (IH sels) as [-> ->]. subst sels. now rewrite <- app_assoc.
Qed.

(** The selections kept for a plan, and what is printed about them. *)
Lemma fetch_selections_spec (plan : string) :
  fst (fetch_selections client plan)
  = fetched_before_failure client plan (pages_items (list_backup_selections client plan))
  /\ (selections_fetch_fails client plan ->
      exists e, snd (fetch_selections client plan) = [SelectionsError plan e]).
Proof.
  unfold fetch_selections, selections_fetch_fails.
  destruct (selections_of_pages_spec plan (list_backup_selections client plan) [])
    as [Hf Hs].
  destruct (selections_of_pages client plan _ []) as [sels [e|]]; simpl in *.
  - split; [exact Hf | eauto].
  - split; [exact Hf|]. destruct Hs as [Hs _]. destruct (Hs eq_refl) as [H1 H2].
    rewrite H1, H2. now intros [?|?].
Qed.

Lemma make_plan_entry (plan : PlanSummary) (plan_details : PlanDetails) :
  get_backup_plan client (BackupPlanId plan) = Ok plan_details ->
  plan_entry_of client plan
    (make_plan plan plan_details (fst (fetch_selections client (BackupPlanId plan)))).
Proof.
  intros Hd. exists plan_details. simpl.
  destruct (fetch_selections_spec (BackupPlanId plan)) as [Hf _].
  repeat (split; [first [exact Hd | exact Hf | reflexivity]|]).
  intros e He. rewrite Hf, He. reflexivity.
Qed.

Lemma plans_of_page_spec (items : list PlanSummary) (acc : list Plan)
  (log : list log_line) :
  Forall (details_ok client) items ->
  exists entries printed,
    plans_of_page client items acc log = (Ok (acc ++ entries), log ++ printed)
    /\ Forall2 (plan_entry_of client) items entries
    /\ (forall plan, plan ∈ items ->
          selections_fetch_fails client (BackupPlanId plan) ->
          exists e, SelectionsError (BackupPlanId plan) e ∈ printed).
Proof.
  intros Hok. revert acc log.
  induction Hok as [|plan items [plan_details Hd] _ IH]; intros acc log; simpl.
  - exists [], []. rewrite !app_nil_r. split; [reflexivity|].
    split; [constructor|]. intros plan H. inversion H.
  - rewrite Hd.
    pose proof (make_plan_entry plan plan_details Hd) as Hentry.
    destruct (fetch_selections_spec (BackupPlanId plan)) as [_ Hfail].
    destruct (fetch_selections client (BackupPlanId plan)) as [sels printed1].
    simpl in Hentry, Hfail.
    destruct (IH (acc ++ [make_plan plan plan_details sels]) (log ++ printed1))
      as (entries & printed & -> & Hall & Hlog).
    exists (make_plan plan plan_details sels :: entries), (printed1 ++ printed).
    rewrite <- !app_assoc. split; [reflexivity|].
    split; [now constructor|].
    intros q Hq Hf. apply elem_of_cons in Hq as [->|Hq].
    + destruct (Hfail Hf) as [e ->]. exists e. apply elem_of_app. left. constructor.
    + destruct (Hlog q Hq Hf) as [e He]. exists e. apply elem_of_app. now right.
Qed.

Lemma plans_of_pages_spec (ps : pages PlanSummary) (acc : list Plan)
  (log : list log_line) :
  pages_complete ps = true ->
  Forall (details_ok client) (pages_items ps) ->
  exists entries printed,
    plans_of_pages client ps acc log = (Ok (acc ++ entries), log ++ printed)
    /\ Forall2 (plan_entry_of client) (pages_items ps) entries
    /\ (forall plan, plan ∈ pages_items ps ->
          selections_fetch_fails client (BackupPlanId plan) ->
          exists e, SelectionsError (BackupPlanId plan) e ∈ printed).
Proof.
  revert acc log. induction ps as [|e|items rest IH]; intros acc log Hc Hok; simpl in *.
  - exists [], []. rewrite !app_nil_r. split; [reflexivity|].
    split; [constructor|]. intros plan H. inversion H.
  - discriminate.
  - apply Forall_app in Hok as [Hok1 Hok2].
    destruct (plans_of_page_spec items acc log Hok1)
      as (entries1 & printed1 & -> & Hall1 & Hlog1).
    destruct (IH (acc ++ entries1) (log ++ printed1) Hc Hok2)
      as (entries2 & printed2 & -> & Hall2 & Hlog2).
    exists (entries1 ++ entries2), (printed1 ++ printed2).
    rewrite <- !app_assoc. split; [reflexivity|].
    split; [now apply Forall2_app|].
    intros q Hq Hf. apply elem_of_app in Hq as [Hq|Hq].
    + destruct (Hlog1 q Hq Hf) as [e He]. exists e. apply elem_of_app. now left.
    + destruct (Hlog2 q Hq Hf) as [e He]. exists e. apply elem_of_app. now right.
Qed.
End PlanFacts.

(** C8. When the plans are listed and their details fetched, a failure to
    fetch the selections of a plan does not abort anything: the plan list
    of the report has one entry per listed plan, in order, each with all
    its other fields filled in and with the selections fetched before the
    failure (none when the first request fails), the failure is printed,
    and every other part of the report is assembled from the collected
    data as usual. *)
Theorem selection_failure_degrades (client : BackupClient) (col : Collected)
  (days : Z) :
  pages_complete (list_backup_plans client) = true ->
  Forall (details_ok client) (pages_items (list_backup_plans client)) ->
  Forall2 (plan_entry_of client) (pages_items (list_backup_plans client))
    (plans (fst (generate_backup_report client col days)))
  /\ (forall plan, plan ∈ pages_items (list_backup_plans client) ->
        selections_fetch_fails client (BackupPlanId plan) ->
        exists e, SelectionsError (BackupPlanId plan) e
                  ∈ snd (generate_backup_report client col days))
  /\ total_backups (fst (generate_backup_report client col days))
     = length (col_backup_jobs col days)
  /\ job_status_summary (fst (generate_backup_report client col days))
     = get_job_status_summary (col_backup_jobs col days)
  /\ unique_resources (fst (generate_backup_report client col days))
     = get_unique_resources (col_backup_jobs col days)
  /\ backups (fst (generate_backup_report client col days))
     = map backup_view (col_backup_jobs col days)
  /\ storage (fst (generate_backup_report client col days))
     = {| ebs_volumes := col_ebs_volumes col; snapshots := col_snapshots col |}.
Proof.
  intros Hc Hok.
  destruct (plans_of_pages_spec client _ [] [] Hc Hok)
    as (entries & printed & Hrun & Hall & Hlog).
  unfold generate_backup_report, get_backup_plans. rewrite Hrun. simpl.
  repeat split; auto.
Qed.

(** ** Frames *)

Section SortedSet.
Lemma elem_of_sorted_set (x : string) (xs : list string) :
  x ∈ sorted_set xs <-> x ∈ xs.
Proof.
  unfold sorted_set. rewrite merge_sort_Permutation. apply elem_of_remove_dups.
Qed.

Lemma NoDup_sorted_set (xs : list string) : NoDup (sorted_set xs).
Proof.
  unfold sorted_set. rewrite merge_sort_Permutation. apply NoDup_remove_dups.
Qed.

Lemma Sorted_sorted_set (xs : list string) : Sorted String.le (sorted_set xs).
Proof. apply Sorted_merge_sort. apply _. Qed.
End SortedSet.

Section Lookups.
Context {V : Type}.

Lemma odict_get_app (k : string) (d1 d2 : list (string * V)) :
  ODict.get k (d1 ++ d2)
  = match ODict.get k d1 with
    | Some v => Some v
    | None => ODict.get k d2
    end.
Proof.
  induction d1 as [|[k' v'] d1 IH]; simpl; [reflexivity|].
  now destruct (String.eqb k' k).
Qed.

(** A dictionary built from its keys. *)
Lemma odict_get_tabulate (f : string -> V) (ks : list string) (k : string) :
  ODict.get k (map (fun x => (x, f x)) ks)
  = if decide (k ∈ ks) then Some (f k) else None.
Proof.
  induction ks as [|x ks IH]; cbn [map ODict.get].
  - rewrite decide_False; [reflexivity | intros H; inversion H].
  - destruct (String.eqb x k) eqn:E.
    + apply String.eqb_eq in E. subst. rewrite decide_True; [reflexivity | constructor].
    + apply String.eqb_neq in E. rewrite IH.
      destruct (decide (k ∈ ks)) as [H|H].
      * rewrite decide_True; [reflexivity | now constructor].
      * rewrite decide_False; [reflexivity|].
        intros H'. apply elem_of_cons in H' as [?|?]; congruence.
Qed.

Lemma odict_get_map_values {W : Type} (g : V -> W) (d : list (string * V))
  (k : string) :
  ODict.get k (map (fun kv => (fst kv, g (snd kv))) d) = g <$> ODict.get k d.
Proof.
  induction d as [|[k' v'] d IH]; simpl; [reflexivity|].
  now destruct (String.eqb k' k).
Qed.

Lemma odict_get_zip_None (ks : list string) (vs : list V) (k : string) :
  k ∉ ks -> ODict.get k (zip ks vs) = None.
Proof.
  revert vs. induction ks as [|x ks IH]; intros [|v vs] H; simpl; try reflexivity.
  destruct (String.eqb x k) eqn:E.
  - apply String.eqb_eq in E. subst. exfalso. apply H. constructor.
  - apply IH. intros H'. apply H. now constructor.
Qed.

(** Cells laid out along labels computed from the same list. *)
Lemma odict_get_zip_map (f : string -> string) (g : string -> V)
  (ms : list string) (m : string) :
  (forall a b, f a = f b -> a = b) -> m ∈ ms ->
  ODict.get (f m) (zip (map f ms) (map g ms)) = Some (g m).
Proof.
  intros Hinj. induction ms as [|x ms IH]; intros Hm; [inversion Hm|]. simpl.
  destruct (String.eqb (f x) (f m)) eqn:E.
  - apply String.eqb_eq, Hinj in E. now subst.
  - apply IH. apply elem_of_cons in Hm as [->|Hm]; [|exact Hm].
    now rewrite String.eqb_refl in E.
Qed.
End Lookups.

Section RowFacts.
Implicit Types (cols : list string) (cells : list (option Q)).

Lemma row_get_app cols1 cells1 cols2 cells2 (c : string) :
  length cols1 = length cells1 ->
  row_get (cols1 ++ cols2) (cells1 ++ cells2) c
  = if decide (c ∈ cols1) then row_get cols1 cells1 c else row_get cols2 cells2 c.
Proof.
  intros Hlen. unfold row_get.
  rewrite zip_with_app by exact Hlen. rewrite odict_get_app.
  case_decide as Hin.
  - destruct (ODict.get c (zip cols1 cells1)) eqn:E; [reflexivity|].
    exfalso. revert cells1 Hlen E.
    induction cols1 as [|x cols1 IH]; intros [|v cells1] Hlen E;
      simpl in *; try discriminate; [inversion Hin|].
    destruct (String.eqb x c) eqn:Ex; [discriminate|].
    apply elem_of_cons in Hin as [->|Hin]; [now rewrite String.eqb_refl in Ex|].
    apply (IH Hin cells1); [lia | exact E].
  - now rewrite odict_get_zip_None.
Qed.

Lemma row_get_map (f : string -> string) (g : string -> option Q)
  (ms : list string) (m : string) :
  (forall a b, f a = f b -> a = b) -> m ∈ ms ->
  row_get (map f ms) (map g ms) (f m) = g m.
Proof. intros Hinj Hm. unfold row_get. now rewrite odict_get_zip_map. Qed.

Lemma row_get_labels (g : string -> option Q) (labels : list string) (c : string) :
  c ∈ labels -> row_get labels (map g labels) c = g c.
Proof.
  intros Hc. rewrite <- (map_id labels) at 1.
  now apply (row_get_map (fun x => x)).
Qed.
End RowFacts.

Section Labels.
Local Open Scope nat_scope.

Lemma append_length (a b : string) :
  String.length (a +:+ b) = String.length a + String.length b.
Proof.
  induction a as [|x a IH]; [reflexivity|].
  rewrite append_cons. simpl. now rewrite IH.
Qed.

(** Texts that end in suffixes of one length agree part by part. *)
Lemma append_suffix_inv (a b s t : string) :
  String.length s = String.length t -> a +:+ s = b +:+ t -> a = b /\ s = t.
Proof.
  intros Hlen. revert b. induction a as [|x a IH]; intros [|y b] H.
  - now split.
  - exfalso. rewrite append_nil_l in H. subst s.
    rewrite append_cons in Hlen. simpl in Hlen. rewrite append_length in Hlen. lia.
  - exfalso. rewrite append_nil_l in H. subst t.
    rewrite append_cons in Hlen. simpl in Hlen. rewrite append_length in Hlen. lia.
  - rewrite !append_cons in H. injection H as -> H.
    destruct (IH _ H) as [-> ->]. now split.
Qed.

Lemma label_inj (suffix a b : string) : a +:+ suffix = b +:+ suffix -> a = b.
Proof. intros H. now apply append_suffix_inv in H as [? _]. Qed.

Lemma count_not_avg (a b : string) : a +:+ " (Count)" <> b +:+ " (GB Avg)".
Proof.
  change (b +:+ " (GB Avg)") with (b +:+ " " +:+ "(GB Avg)").
  rewrite <- append_assoc. intros H.
  apply append_suffix_inv in H as [_ H]; [discriminate | reflexivity].
Qed.

Lemma count_not_total (a b : string) : a +:+ " (Count)" <> b +:+ " (GB Total)".
Proof.
  change (b +:+ " (GB Total)") with (b +:+ " (G" +:+ "B Total)").
  rewrite <- append_assoc. intros H.
  apply append_suffix_inv in H as [_ H]; [discriminate | reflexivity].
Qed.

Lemma avg_not_total (a b : string) : a +:+ " (GB Avg)" <> b +:+ " (GB Total)".
Proof.
  change (b +:+ " (GB Total)") with (b +:+ " (" +:+ "GB Total)").
  rewrite <- append_assoc. intros H.
  apply append_suffix_inv in H as [_ H]; [discriminate | reflexivity].
Qed.

(** [label.split(' ')[0]] gives back a month that holds no space. *)
Lemma split_first (sep : ascii) (m rest : string) :
  PyStr.has_char sep m = false ->
  PyStr.split sep (m +:+ String sep rest) = m :: PyStr.split sep rest.
Proof.
  induction m as [|c m IH]; intros H.
  - rewrite append_nil_l. simpl. now rewrite Ascii.eqb_refl.
  - simpl in H. apply orb_false_iff in H as [Hc Hm].
    rewrite append_cons. simpl. rewrite Hc. now rewrite (IH Hm).
Qed.

Lemma digit_cases (n : nat) :
  In (digit n) ["0"; "1"; "2"; "3"; "4"; "5"; "6"; "7"; "8"; "9"]%char.
Proof.
  unfold digit. pose proof (Nat.mod_upper_bound n 10 ltac:(lia)) as H.
  remember (n mod 10) as k eqn:Hk. clear Hk.
  do 10 (destruct k as [|k]; [vm_compute; intuition|]).
  lia.
Qed.

Lemma digit_not_space (n : nat) : Ascii.eqb (digit n) " " = false.
Proof.
  pose proof (digit_cases n) as H. simpl in H.
  repeat (destruct H as [<-|H]; [reflexivity|]). contradiction.
Qed.

(** The month of a rendered timestamp: four digits of the year, a dash,
    two digits of the month. *)
Lemma period_of_strftime (d : datetime) :
  to_period_M (strftime d) = pad4 (dt_year d) +:+ "-" +:+ pad2 (dt_month d).
Proof. reflexivity. Qed.

Lemma period_no_space (d : datetime) :
  PyStr.has_char " " (to_period_M (strftime d)) = false.
Proof.
  rewrite period_of_strftime. unfold pad4, pad2.
  repeat (rewrite append_cons || rewrite append_nil_l).
  cbn [PyStr.has_char]. rewrite !digit_not_space. reflexivity.
Qed.
End Labels.

Section PivotFacts.
Lemma keys_tabulate {V : Type} (f : string -> V) (ks : list string) :
  ODict.keys (map (fun k => (k, f k)) ks) = ks.
Proof.
  unfold ODict.keys. rewrite map_map. simpl. apply map_id.
Qed.

(** The rows of a pivot table are the resources of the frame, whatever
    the aggregate. *)
Lemma pivot_table_index (agg : list Q -> Q) (fill : Q)
  (df : list (BackupView * string)) :
  fr_index (pivot_table agg fill df)
  = sorted_set (map (fun row => bk_resource_id (fst row)) df).
Proof. unfold fr_index, pivot_table. cbn [fr_rows]. apply keys_tabulate. Qed.

(** The row of a resource in a pivot table with renamed columns. *)
Lemma pivot_row (agg : list Q -> Q) (f : string -> string)
  (df : list (BackupView * string)) (r : string) :
  r ∈ sorted_set (map (fun row => bk_resource_id (fst row)) df) ->
  row_or_missing (rename_columns f (pivot_table agg 0%Q df)) r
  = map (fun m => filled agg (group_sizes df r m)) (sorted_set (map snd df)).
Proof.
  intros Hr. unfold row_or_missing, rename_columns, pivot_table. cbn [fr_rows].
  rewrite odict_get_tabulate, decide_True by exact Hr.
  apply map_ext. intros m. unfold filled. now destruct (group_sizes df r m).
Qed.

Lemma frame_get_reindex (labels : list string) (fr : Frame) (r c : string) :
  c ∈ labels -> frame_get (reindex_columns labels fr) r c = frame_get fr r c.
Proof.
  intros Hc. unfold frame_get, reindex_columns. cbn [fr_rows fr_columns].
  rewrite (odict_get_map_values
             (fun cells => map (row_get (fr_columns fr) cells) labels)).
  destruct (ODict.get r (fr_rows fr)) as [cells|]; simpl; [|reflexivity].
  now apply row_get_labels.
Qed.

Lemma reindex_index (labels : list string) (fr : Frame) :
  fr_index (reindex_columns labels fr) = fr_index fr.
Proof.
  unfold fr_index, reindex_columns, ODict.keys. cbn [fr_rows].
  rewrite map_map. reflexivity.
Qed.

Lemma rename_index (f : string -> string) (fr : Frame) :
  fr_index (rename_columns f fr) = fr_index fr.
Proof. reflexivity. Qed.

Lemma concat3_index (a b c : Frame) : fr_index (concat3 a b c) = fr_index a.
Proof. unfold fr_index at 1, concat3. cbn [fr_rows]. apply keys_tabulate. Qed.

Lemma frame_get_concat3 (a b c : Frame) (r x : string) :
  r ∈ fr_index a ->
  frame_get (concat3 a b c) r x
  = row_get (fr_columns a ++ fr_columns b ++ fr_columns c)
      (row_or_missing a r ++ row_or_missing b r ++ row_or_missing c r) x.
Proof.
  intros Hr. unfold frame_get, concat3. cbn [fr_rows fr_columns].
  now rewrite odict_get_tabulate, decide_True by exact Hr.
Qed.

Lemma jobs_frame_ids (backups : list BackupView) :
  map (fun row => bk_resource_id (fst row)) (jobs_frame backups)
  = map bk_resource_id backups.
Proof. unfold jobs_frame. now rewrite map_map. Qed.

Lemma jobs_frame_months (backups : list BackupView) :
  map snd (jobs_frame backups) = map month_of backups.
Proof. unfold jobs_frame. now rewrite map_map. Qed.


Variable backups : list BackupView.
Hypothesis months_plain :
  Forall (fun b => PyStr.has_char " " (month_of b) = false) backups.

Lemma observed_month_plain (m : string) :
  m ∈ sorted_set (map month_of backups) -> PyStr.has_char " " m = false.
Proof.
  intros Hm. apply elem_of_sorted_set, list_elem_of_In, in_map_iff in Hm
    as (b & <- & Hb).
  rewrite Forall_forall in months_plain. apply months_plain.
  now apply list_elem_of_In.
Qed.

(** The months recovered from the column labels are the months of the
    frame. *)
Lemma all_months_observed (m : string) :
  m ∈ sorted_set
        (map (fun col => first_item (PyStr.split " " col))
           (map (fun col => col +:+ " (GB Avg)") (sorted_set (map month_of backups))))
  <-> m ∈ map month_of backups.
Proof.
  rewrite elem_of_sorted_set, map_map.
  rewrite (map_ext_in _ (fun x => x)).
  - rewrite map_id. apply elem_of_sorted_set.
  - intros x Hx. apply list_elem_of_In, observed_month_plain in Hx.
    now rewrite split_first.
Qed.

Lemma monthly_columns (c : string) :
  c ∈ fr_columns (monthly_resource_summary backups)
  <-> exists m, m ∈ map month_of backups /\ c ∈ month_columns m.
Proof.
  unfold monthly_resource_summary, reindex_columns, rename_columns, pivot_table.
  cbn [fr_columns]. rewrite jobs_frame_months.
  rewrite list_elem_of_In, in_concat. split.
  - intros (l & Hl & Hc). apply in_map_iff in Hl as (m & <- & Hm).
    exists m. split; [|now apply list_elem_of_In].
    now apply all_months_observed, list_elem_of_In.
  - intros (m & Hm & Hc). exists (month_columns m).
    split; [|now apply list_elem_of_In].
    apply in_map_iff. exists m. split; [reflexivity|].
    now apply list_elem_of_In, all_months_observed.
Qed.

Lemma monthly_index :
  fr_index (monthly_resource_summary backups)
  = sorted_set (map bk_resource_id backups).
Proof.
  unfold monthly_resource_summary.
  rewrite reindex_index, concat3_index, rename_index.
  now rewrite pivot_table_index, jobs_frame_ids.
Qed.

(** The three cells of a resource in an observed month: the aggregates of
    its jobs of that month, or the fill value. *)
Lemma monthly_cells (r m : string) :
  r ∈ map bk_resource_id backups -> m ∈ map month_of backups ->
  frame_get (monthly_resource_summary backups) r (m +:+ " (Count)")
  = filled agg_count (group_sizes (jobs_frame backups) r m)
  /\ frame_get (monthly_resource_summary backups) r (m +:+ " (GB Avg)")
     = filled agg_mean (group_sizes (jobs_frame backups) r m)
  /\ frame_get (monthly_resource_summary backups) r (m +:+ " (GB Total)")
     = filled agg_sum (group_sizes (jobs_frame backups) r m).
Proof.
  intros Hr Hm.
  assert (Hcols : forall c, c ∈ month_columns m ->
            c ∈ fr_columns (monthly_resource_summary backups)).
  { intros c Hc. apply monthly_columns. eauto. }
  assert (Hr' : r ∈ sorted_set
                    (map (fun row => bk_resource_id (fst row)) (jobs_frame backups))).
  { rewrite jobs_frame_ids. now apply elem_of_sorted_set. }
  assert (Hm' : m ∈ sorted_set (map snd (jobs_frame backups))).
  { rewrite jobs_frame_months. now apply elem_of_sorted_set. }
  assert (Hget : forall c, c ∈ month_columns m ->
    frame_get (monthly_resource_summary backups) r c
    = row_get
        (map (fun col => col +:+ " (Count)") (sorted_set (map snd (jobs_frame backups)))
         ++ map (fun col => col +:+ " (GB Avg)") (sorted_set (map snd (jobs_frame backups)))
         ++ map (fun col => col +:+ " (GB Total)") (sorted_set (map snd (jobs_frame backups))))
        (map (fun m => filled agg_count (group_sizes (jobs_frame backups) r m))
           (sorted_set (map snd (jobs_frame backups)))
         ++ map (fun m => filled agg_mean (group_sizes (jobs_frame backups) r m))
              (sorted_set (map snd (jobs_frame backups)))
         ++ map (fun m => filled agg_sum (group_sizes (jobs_frame backups) r m))
              (sorted_set (map snd (jobs_frame backups)))) c).
  { intros c Hc. specialize (Hcols c Hc).
    unfold monthly_resource_summary in *.
    rewrite frame_get_reindex by exact Hcols.
    rewrite frame_get_concat3.
    - now rewrite !pivot_row by exact Hr'.
    - now rewrite rename_index, pivot_table_index. }
  assert (Hnot1 : forall suffix x,
            (forall a, a +:+ suffix <> x) ->
            x ∉ map (fun col => col +:+ suffix) (sorted_set (map snd (jobs_frame backups)))).
  { intros suffix x Hne Hin. apply list_elem_of_In, in_map_iff in Hin as (a & Ha & _).
    now apply (Hne a). }
  split; [|split].
  - rewrite Hget by (apply list_elem_of_In; simpl; auto).
    rewrite row_get_app by now rewrite !length_map.
    rewrite decide_True.
    + apply (row_get_map (fun col => col +:+ " (Count)")); [apply label_inj | exact Hm'].
    + apply list_elem_of_In, in_map_iff. exists m. split; [reflexivity|].
      now apply list_elem_of_In.
  - rewrite Hget by (apply list_elem_of_In; simpl; auto).
    rewrite row_get_app by now rewrite !length_map.
    rewrite decide_False by (apply Hnot1; intros a; apply count_not_avg).
    rewrite row_get_app by now rewrite !length_map.
    rewrite decide_True.
    + apply (row_get_map (fun col => col +:+ " (GB Avg)")); [apply label_inj | exact Hm'].
    + apply list_elem_of_In, in_map_iff. exists m. split; [reflexivity|].
      now apply list_elem_of_In.
  - rewrite Hget by (apply list_elem_of_In; simpl; auto).
    rewrite row_get_app by now rewrite !length_map.
    rewrite decide_False by (apply Hnot1; intros a; apply count_not_total).
    rewrite row_get_app by now rewrite !length_map.
    rewrite decide_False by (apply Hnot1; intros a; apply avg_not_total).
    apply (row_get_map (fun col => col +:+ " (GB Total)")); [apply label_inj | exact Hm'].
Qed.
End PivotFacts.




(** ** Resource identities across the report *)

Section Identities.
Variable jobs : list BackupJob.

Lemma view_ids :
  map bk_resource_id (map backup_view jobs)
  = map (fun job => ur_resource_id (record_of job)) jobs.
Proof. now rewrite map_map. Qed.

(** The normalizer holds the identities of the jobs, and no other. *)
Lemma normalizer_ids (x : string) :
  x ∈ map ur_resource_id (get_unique_resources jobs)
  <-> x ∈ map bk_resource_id (map backup_view jobs).
Proof.
  rewrite unique_values_ids, view_ids.
  destruct (unique_invariant jobs) as (_ & Hall & Hfirst). split.
  - intros Hx. unfold ODict.keys in Hx.
    apply list_elem_of_In, in_map_iff in Hx as (kv & <- & Hkv).
    rewrite Forall_forall in Hfirst.
    destruct (Hfirst kv) as (pre & job & post & Hjobs & _ & -> & _);
      [now apply list_elem_of_In|].
    apply list_elem_of_In, in_map_iff. exists job. split; [reflexivity|].
    rewrite Hjobs. apply in_or_app. right. now left.
  - intros Hx. apply list_elem_of_In, in_map_iff in Hx as (job & <- & Hjob).
    now apply Hall, list_elem_of_In.
Qed.

Lemma normalizer_records (rec : ResourceRecord) :
  rec ∈ get_unique_resources jobs -> exists job, job ∈ jobs /\ rec = record_of job.
Proof.
  intros Hrec. unfold get_unique_resources, ODict.values in Hrec.
  apply list_elem_of_In, in_map_iff in Hrec as (kv & <- & Hkv).
  destruct (unique_invariant jobs) as (_ & _ & Hfirst).
  rewrite Forall_forall in Hfirst.
  destruct (Hfirst kv) as (pre & job & post & Hjobs & _ & _ & Hr);
    [now apply list_elem_of_In|].
  exists job. split; [|exact Hr].
  rewrite Hjobs. apply elem_of_app. right. constructor.
Qed.
End Identities.

(** C5. The resource identity is the final path segment of the resource
    locator (the whole locator when it has no separator), and it is derived
    the same way everywhere: for two jobs with the same locator, the per-job
    view gives both the same identity, the record that the normalizer keeps
    for that locator bears it, and it is a row key of the Resource Summary
    and of the monthly pivot; the normalizer, the view and the pivot hold
    the same set of identities. *)
Theorem resource_identity_consistent (jobs : list BackupJob) (j1 j2 : BackupJob) :
  j1 ∈ jobs -> j2 ∈ jobs -> ResourceArn j1 = ResourceArn j2 ->
  exists r,
    is_final_segment (ResourceArn j1) r
    /\ bk_resource_id (backup_view j1) = r
    /\ bk_resource_id (backup_view j2) = r
    /\ (exists rec, rec ∈ get_unique_resources jobs /\ ur_resource_id rec = r)
    /\ (forall rec, rec ∈ get_unique_resources jobs ->
          ur_resource_arn rec = ResourceArn j2 -> ur_resource_id rec = r)
    /\ r ∈ ODict.keys (resource_summary_of (map backup_view jobs))
    /\ r ∈ fr_index (monthly_resource_summary (map backup_view jobs))
    /\ (forall x,
          (x ∈ map ur_resource_id (get_unique_resources jobs)
           <-> x ∈ map bk_resource_id (map backup_view jobs))
          /\ (x ∈ fr_index (monthly_resource_summary (map backup_view jobs))
              <-> x ∈ map bk_resource_id (map backup_view jobs))).
Proof.
  intros H1 H2 Harn.
  exists (PyStr.last_item (PyStr.split "/" (ResourceArn j1))).
  assert (Hview : PyStr.last_item (PyStr.split "/" (ResourceArn j1))
                  ∈ map bk_resource_id (map backup_view jobs)).
  { apply list_elem_of_In, in_map_iff. exists (backup_view j1).
    split; [reflexivity|]. apply in_map. now apply list_elem_of_In. }
  split; [apply split_last_final_segment|].
  split; [reflexivity|].
  split; [simpl; now rewrite Harn|].
  split.
  { apply normalizer_ids, list_elem_of_In, in_map_iff in Hview as (rec & Hid & Hrec).
    exists rec. split; [now apply list_elem_of_In | exact Hid]. }
  split.
  { intros rec Hrec Hrarn.
    apply normalizer_records in Hrec as (job & _ & ->). simpl in *.
    now rewrite Hrarn, Harn. }
  split; [now apply resource_summary_keys|].
  split; [rewrite monthly_index; now apply elem_of_sorted_set|].
  intros x. split; [apply normalizer_ids|].
  rewrite monthly_index. apply elem_of_sorted_set.
Qed.

(** The two example jobs that share a locator. *)
Lemma resource_identity_consistent_witness :
  exists r,
    is_final_segment (ResourceArn example_job_jan) r
    /\ bk_resource_id (backup_view example_job_jan) = r
    /\ bk_resource_id (backup_view example_job_mar) = r
    /\ (exists rec, rec ∈ get_unique_resources example_jobs /\ ur_resource_id rec = r)
    /\ (forall rec, rec ∈ get_unique_resources example_jobs ->
          ur_resource_arn rec = ResourceArn example_job_mar -> ur_resource_id rec = r)
    /\ r ∈ ODict.keys (resource_summary_of (map backup_view example_jobs))
    /\ r ∈ fr_index (monthly_resource_summary (map backup_view example_jobs))
    /\ (forall x,
          (x ∈ map ur_resource_id (get_unique_resources example_jobs)
           <-> x ∈ map bk_resource_id (map backup_view example_jobs))
          /\ (x ∈ fr_index (monthly_resource_summary (map backup_view example_jobs))
              <-> x ∈ map bk_resource_id (map backup_view example_jobs))).
Proof.
  apply (resource_identity_consistent example_jobs example_job_jan example_job_mar).
  - apply list_elem_of_In. simpl. auto.
  - apply list_elem_of_In. simpl. auto.
  - reflexivity.
Defined.

(** The example client, whose first plan has no fetchable selections. *)
Lemma selection_failure_degrades_witness :
  Forall2 (plan_entry_of example_client) (pages_items (list_backup_plans example_client))
    (plans (fst (generate_backup_report example_client example_collected 90)))
  /\ (forall plan, plan ∈ pages_items (list_backup_plans example_client) ->
        selections_fetch_fails example_client (BackupPlanId plan) ->
        exists e, SelectionsError (BackupPlanId plan) e
                  ∈ snd (generate_backup_report example_client example_collected 90))
  /\ total_backups (fst (generate_backup_report example_client example_collected 90))
     = length (col_backup_jobs example_collected 90)
  /\ job_status_summary (fst (generate_backup_report example_client example_collected 90))
     = get_job_status_summary (col_backup_jobs example_collected 90)
  /\ unique_resources (fst (generate_backup_report example_client example_collected 90))
     = get_unique_resources (col_backup_jobs example_collected 90)
  /\ backups (fst (generate_backup_report example_client example_collected 90))
     = map backup_view (col_backup_jobs example_collected 90)
  /\ storage (fst (generate_backup_report example_client example_collected 90))
     = {| ebs_volumes := col_ebs_volumes example_collected;
          snapshots := col_snapshots example_collected |}.
Proof.
  apply (selection_failure_degrades example_client example_collected 90).
  - reflexivity.
  - repeat constructor; eexists; reflexivity.
Defined.

(** The entry of the first example plan, whose selections could not be
    fetched, is there with no selection, and the failure is printed. *)
Lemma example_plans_degraded :
  map plan_id (fst (get_backup_plans example_client)) = ["plan-1"; "plan-2"]
  /\ map (fun p => length (selections p)) (fst (get_backup_plans example_client))
     = [0%nat; 1%nat]
  /\ snd (get_backup_plans example_client)
     = [SelectionsError "plan-1" (ClientError "AccessDenied")].
Proof. repeat split. Qed.

(** The report of a run without jobs. *)
Lemma empty_backups_raise_witness :
  backups example_empty_report = []
  /\ summary_values (fun q => q) example_empty_report
     = Raise (ValueError "min() arg is an empty sequence")
  /\ project (fun q => q) example_empty_report
     = (Raise (ValueError "min() arg is an empty sequence"), example_empty_report, []).
Proof.
  split; [reflexivity|].
  apply (empty_backups_raise (fun q => q) example_empty_report). reflexivity.
Defined.

(** * Further properties of the pipeline *)

(** ** Status classifier, continued *)

Section StatusMore.
Local Open Scope nat_scope.

Lemma status_key_cases (job : BackupJob) :
  status_key job = State job
  \/ (State job = "COMPLETED" /\ status_key job = "COMPLETED_WITH_ISSUES").
Proof.
  unfold status_key.
  destruct (String.eqb (State job) "COMPLETED") eqn:Es; [|now left].
  destruct (negb _); [right | now left].
  split; [now apply String.eqb_eq | reflexivity].
Qed.

Lemma summary_lookup (jobs : list BackupJob) (k : string) :
  default 0 (get_job_status_summary jobs !! k)
  = length (filter (fun job => status_key job = k) jobs).
Proof. rewrite <- summary_counts. now rewrite lookup_total_alt. Qed.

Lemma summary_lookup_exact (jobs : list BackupJob) (k : string) :
  get_job_status_summary jobs !! k
  = match length (filter (fun job => status_key job = k) jobs) with
    | O => None
    | S n => Some (S n)
    end.
Proof.
  pose proof (summary_lookup jobs k) as Hc.
  pose proof (summary_bound jobs k) as Hb.
  destruct (get_job_status_summary jobs !! k) as [n|] eqn:E; simpl in Hc.
  - destruct Hb as [Hb _]. destruct (Hb (mk_is_Some _ _ eq_refl)) as (job & Hin & Hk).
    rewrite <- Hc. destruct n; [|reflexivity].
    exfalso. symmetry in Hc. apply length_zero_iff_nil in Hc.
    assert (Hf : job ∈ filter (fun job => status_key job = k) jobs)
      by now apply list_elem_of_filter.
    rewrite Hc in Hf. inversion Hf.
  - destruct (filter _ jobs) as [|job rest] eqn:Ef; [reflexivity|].
    exfalso. destruct Hb as [_ Hb].
    assert (Hf : job ∈ filter (fun job => status_key job = k) jobs)
      by (rewrite Ef; constructor).
    apply list_elem_of_filter in Hf as [Hk Hin].
    destruct Hb as [? ?]; [eauto | discriminate].
Qed.
End StatusMore.

(** X1. The status summary does not depend on the order in which the jobs
    were fetched. *)
Theorem status_summary_permutation (jobs jobs' : list BackupJob) :
  jobs ≡ₚ jobs' -> get_job_status_summary jobs = get_job_status_summary jobs'.
Proof.
  intros Hp. apply map_eq. intros k. rewrite !summary_lookup_exact.
  now rewrite Hp.
Qed.

(** The three example jobs, fetched in the opposite order. *)
Lemma status_summary_permutation_witness :
  get_job_status_summary example_jobs = get_job_status_summary (rev example_jobs).
Proof.
  apply (status_summary_permutation example_jobs (rev example_jobs)).
  apply Permutation_rev.
Defined.

Section StatusRows.
Local Open Scope nat_scope.

Lemma length_filter_cons {A : Type} (P : A -> Prop) `{forall x, Decision (P x)}
  (x : A) (l : list A) :
  length (filter P (x :: l)) = (if decide (P x) then 1 else 0) + length (filter P l).
Proof. rewrite filter_cons. now destruct (decide (P x)). Qed.

(** A key is counted in exactly one place: in the row of its name when it
    is one of the five, in no row otherwise. *)
Lemma one_row_per_key (k : string) :
  (if decide (k = "COMPLETED") then 1 else 0)
  + (if decide (k = "COMPLETED_WITH_ISSUES") then 1 else 0)
  + (if decide (k = "FAILED") then 1 else 0)
  + (if decide (k = "EXPIRED") then 1 else 0)
  + (if decide (k = "PARTIAL") then 1 else 0)
  + (if decide (k ∉ fixed_status_rows) then 1 else 0) = 1.
Proof.
  destruct (decide (k ∈ fixed_status_rows)) as [Hin|Hout].
  - unfold fixed_status_rows in Hin.
    repeat (apply elem_of_cons in Hin as [->|Hin]; [reflexivity|]).
    inversion Hin.
  - rewrite (decide_True (P := k ∉ fixed_status_rows)) by exact Hout.
    rewrite !decide_False; [reflexivity|..];
      intros ->; apply Hout; unfold fixed_status_rows;
      repeat (first [apply list_elem_of_here | apply list_elem_of_further]).
Qed.

(** Every job is in one of the five rows or in none. *)
Lemma fixed_rows_accounting (jobs : list BackupJob) :
  fixed_rows_total (get_job_status_summary jobs)
  + length (filter (fun job => status_key job ∉ fixed_status_rows) jobs)
  = length jobs.
Proof.
  unfold fixed_rows_total, fixed_status_rows at 1. simpl.
  rewrite !summary_lookup.
  induction jobs as [|job jobs IH]; [reflexivity|].
  rewrite !length_filter_cons. pose proof (one_row_per_key (status_key job)).
  simpl length. lia.
Qed.

Lemma completed_accounting (jobs : list BackupJob) :
  length (filter (fun job => status_key job = "COMPLETED") jobs)
  + length (filter (fun job => status_key job = "COMPLETED_WITH_ISSUES") jobs)
  = length (filter (fun job => State job = "COMPLETED"
                               \/ State job = "COMPLETED_WITH_ISSUES") jobs).
Proof.
  induction jobs as [|job jobs IH]; [reflexivity|].
  rewrite !length_filter_cons.
  assert ((if decide (status_key job = "COMPLETED") then 1 else 0)
          + (if decide (status_key job = "COMPLETED_WITH_ISSUES") then 1 else 0)
          = (if decide (State job = "COMPLETED" \/ State job = "COMPLETED_WITH_ISSUES")
             then 1 else 0)); [|lia].
  destruct (status_key_cases job) as [Hk|[Hs Hk]]; rewrite Hk.
  - repeat case_decide; try reflexivity; try congruence; intuition congruence.
  - rewrite decide_False by discriminate. rewrite decide_True by reflexivity.
    rewrite decide_True by now left. reflexivity.
Qed.
End StatusRows.

(** X2. The jobs counted under COMPLETED_WITH_ISSUES are taken out of the
    COMPLETED count: the two counters together hold the number of jobs
    whose raw state is COMPLETED (or is itself COMPLETED_WITH_ISSUES). *)
Theorem completed_split (jobs : list BackupJob) :
  (get_job_status_summary jobs !!! "COMPLETED"
   + get_job_status_summary jobs !!! "COMPLETED_WITH_ISSUES")%nat
  = length (filter (fun job => State job = "COMPLETED"
                               \/ State job = "COMPLETED_WITH_ISSUES") jobs).
Proof. rewrite !summary_counts. apply completed_accounting. Qed.

(** X3. The Summary table of a generated report ends with the counts of
    the five fixed status names, a missing name counting 0; every job is
    counted in exactly one of these rows unless it is classified under
    another name, and then it is in no row of the table. *)
Theorem summary_status_rows (round2 : Q -> Q) (client : BackupClient)
  (col : Collected) (days : Z) :
  (forall values,
     summary_values round2 (fst (generate_backup_report client col days)) = Ok values ->
     drop 10 values
     = map (status_count (get_job_status_summary (col_backup_jobs col days)))
         fixed_status_rows)
  /\ (fixed_rows_total (job_status_summary (fst (generate_backup_report client col days)))
      + length (filter (fun job => status_key job ∉ fixed_status_rows)
                  (col_backup_jobs col days)))%nat
     = total_backups (fst (generate_backup_report client col days)).
Proof.
  unfold generate_backup_report. destruct (get_backup_plans client) as [plans log].
  simpl. split; [|apply fixed_rows_accounting].
  intros values. unfold summary_values. simpl.
  destruct (py_min _); simpl; [|discriminate].
  destruct (py_max _); simpl; [|discriminate].
  intros [= <-]. reflexivity.
Qed.

(** ** The job collector *)

Section JobsCollector.
Lemma extend_pages_complete {A B : Type} (f : A -> B) (ps : pages A) (acc : list B) :
  pages_complete ps = true ->
  extend_pages f ps acc = Ok (acc ++ map f (pages_items ps)).
Proof.
  revert acc. induction ps as [|e|items rest IH]; intros acc H; simpl in *.
  - now rewrite app_nil_r.
  - discriminate.
  - rewrite IH by exact H. now rewrite map_app, app_assoc.
Qed.

Lemma extend_pages_fails {A B : Type} (f : A -> B) (ps : pages A) (acc : list B) :
  pages_complete ps = false -> exists e, extend_pages f ps acc = Raise e.
Proof.
  revert acc. induction ps as [|e|items rest IH]; intros acc H; simpl in *.
  - discriminate.
  - eauto.
  - now apply IH.
Qed.

Variable list_backup_jobs : Z -> string -> pages BackupJob.
Variable days : Z.

Lemma jobs_of_states_complete (sts : list string) (acc : list BackupJob) :
  forallb (fun state => pages_complete (list_backup_jobs days state)) sts = true ->
  jobs_of_states list_backup_jobs days sts acc
  = Ok (acc ++ concat (map (fun state => pages_items (list_backup_jobs days state)) sts)).
Proof.
  revert acc. induction sts as [|state sts IH]; intros acc H; simpl in *.
  - now rewrite app_nil_r.
  - apply andb_true_iff in H as [H1 H2].
    rewrite extend_pages_complete by exact H1. simpl.
    rewrite IH by exact H2. now rewrite map_id, app_assoc.
Qed.

Lemma jobs_of_states_fails (sts : list string) (acc : list BackupJob) :
  forallb (fun state => pages_complete (list_backup_jobs days state)) sts = false ->
  exists e, jobs_of_states list_backup_jobs days sts acc = Raise e.
Proof.
  revert acc. induction sts as [|state sts IH]; intros acc H; simpl in *.
  - discriminate.
  - destruct (pages_complete (list_backup_jobs days state)) eqn:E; simpl in H.
    + rewrite extend_pages_complete by exact E. simpl. now apply IH.
    + destruct (extend_pages_fails (fun job => job) _ acc E) as [e ->]. simpl. eauto.
Qed.

Lemma get_backup_jobs_complete_items :
  forallb (fun state => pages_complete (list_backup_jobs days state)) states = true ->
  fst (get_backup_jobs list_backup_jobs days)
  = concat (map (fun state => pages_items (list_backup_jobs days state)) states).
Proof.
  intros H. unfold get_backup_jobs. now rewrite jobs_of_states_complete by exact H.
Qed.

Lemma filter_none {A : Type} (P : A -> Prop) `{forall x, Decision (P x)} (l : list A) :
  Forall (fun x => ~ P x) l -> filter P l = [].
Proof.
  induction 1 as [|x l Hx _ IH]; [reflexivity|].
  rewrite filter_cons. now rewrite decide_False by exact Hx.
Qed.
End JobsCollector.

(** X4. The job collector is all or nothing. When the listings of the four
    states all end without a failing request, it returns their jobs, state
    by state in the order COMPLETED, FAILED, EXPIRED, PARTIAL; when any
    request fails, it returns no job at all, also not those of the pages
    and states fetched before, and prints the error. *)
Theorem get_backup_jobs_all_or_nothing
  (list_backup_jobs : Z -> string -> pages BackupJob) (days : Z) :
  (forallb (fun state => pages_complete (list_backup_jobs days state)) states = true ->
   get_backup_jobs list_backup_jobs days
   = (pages_items (list_backup_jobs days "COMPLETED")
      ++ pages_items (list_backup_jobs days "FAILED")
      ++ pages_items (list_backup_jobs days "EXPIRED")
      ++ pages_items (list_backup_jobs days "PARTIAL"), []))
  /\ (forallb (fun state => pages_complete (list_backup_jobs days state)) states = false ->
      exists e, get_backup_jobs list_backup_jobs days = ([], [JobsError e])).
Proof.
  unfold get_backup_jobs. split; intros H.
  - rewrite jobs_of_states_complete by exact H. simpl. now rewrite app_nil_r.
  - destruct (jobs_of_states_fails list_backup_jobs days states [] H) as [e ->]. eauto.
Qed.

(** In the example the third of the four listings fails: the three jobs of
    the first two are dropped. *)
Lemma get_backup_jobs_all_or_nothing_witness :
  (exists e, get_backup_jobs example_failing_listing 90 = ([], [JobsError e]))
  /\ get_backup_jobs example_listing 90
     = ([example_job_jan; example_job_other; example_job_mar], []).
Proof.
  split.
  - apply (get_backup_jobs_all_or_nothing example_failing_listing 90). reflexivity.
  - apply (get_backup_jobs_all_or_nothing example_listing 90). reflexivity.
Defined.

(** X5. When the service honours the state filter of the listing, every
    collected job is classified under one of the five names with a row in
    the Summary table, so the five rows of the generated report add up to
    its total number of backups. *)
Theorem fixed_rows_cover_collected (client : BackupClient) (now region : string)
  (list_backup_jobs : Z -> string -> pages BackupJob)
  (describe_volumes : pages RawVolume.t) (describe_snapshots : pages RawSnapshot.t)
  (days : Z) :
  state_filter_honoured list_backup_jobs days ->
  Forall (fun job => State job ∈ states /\ status_key job ∈ fixed_status_rows)
    (fst (get_backup_jobs list_backup_jobs days))
  /\ fixed_rows_total
       (job_status_summary
          (fst (generate_backup_report client
                  (collect now region list_backup_jobs describe_volumes describe_snapshots)
                  days)))
     = total_backups
         (fst (generate_backup_report client
                 (collect now region list_backup_jobs describe_volumes describe_snapshots)
                 days)).
Proof.
  intros Hfilter.
  assert (Hjobs : Forall (fun job => State job ∈ states
                                     /\ status_key job ∈ fixed_status_rows)
                    (fst (get_backup_jobs list_backup_jobs days))).
  { destruct (forallb (fun state => pages_complete (list_backup_jobs days state)) states)
      eqn:E.
    - rewrite (get_backup_jobs_complete_items list_backup_jobs days E).
      apply Forall_forall. intros job Hin.
      assert (Hs : State job ∈ states).
      { apply list_elem_of_In, in_concat in Hin as (l & Hl & Hin).
        apply in_map_iff in Hl as (state & <- & Hstate).
        apply list_elem_of_In in Hin. apply Hfilter in Hin. rewrite Hin.
        now apply list_elem_of_In. }
      split; [exact Hs|].
      destruct (status_key_cases job) as [->|[_ ->]].
      + unfold states in Hs. unfold fixed_status_rows.
        repeat (apply elem_of_cons in Hs as [->|Hs];
                [repeat (first [apply list_elem_of_here | apply list_elem_of_further])|]).
        inversion Hs.
      + unfold fixed_status_rows.
        repeat (first [apply list_elem_of_here | apply list_elem_of_further]).
    - destruct (jobs_of_states_fails list_backup_jobs days states [] E) as [e He].
      unfold get_backup_jobs. rewrite He. constructor. }
  split; [exact Hjobs|].
  unfold generate_backup_report. destruct (get_backup_plans client) as [plans log].
  simpl.
  rewrite <- (fixed_rows_accounting (fst (get_backup_jobs list_backup_jobs days))).
  rewrite (filter_none (fun job => status_key job ∉ fixed_status_rows)); [simpl; lia|].
  eapply Forall_impl; [exact Hjobs|]. intros job [_ Hk] Hn. now apply Hn.
Qed.

(** The example listing returns, for each state, jobs of that state. *)
Lemma fixed_rows_cover_collected_witness :
  Forall (fun job => State job ∈ states /\ status_key job ∈ fixed_status_rows)
    (fst (get_backup_jobs example_listing 90))
  /\ fixed_rows_total
       (job_status_summary
          (fst (generate_backup_report example_client
                  (collect "2024-04-01 00:00:00" "us-east-1" example_listing
                     PagesEnd PagesEnd)
                  90)))
     = total_backups
         (fst (generate_backup_report example_client
                 (collect "2024-04-01 00:00:00" "us-east-1" example_listing
                    PagesEnd PagesEnd)
                 90)).
Proof.
  apply (fixed_rows_cover_collected example_client "2024-04-01 00:00:00" "us-east-1"
           example_listing PagesEnd PagesEnd 90).
  intros state job. unfold example_listing.
  destruct (String.eqb state "COMPLETED") eqn:E1.
  - apply String.eqb_eq in E1. subst. intros Hin.
    apply list_elem_of_In in Hin. simpl in Hin.
    destruct Hin as [<-|[<-|[]]]; reflexivity.
  - destruct (String.eqb state "FAILED") eqn:E2.
    + apply String.eqb_eq in E2. subst. intros Hin.
      apply list_elem_of_In in Hin. simpl in Hin.
      destruct Hin as [<-|[]]; reflexivity.
    + intros Hin. inversion Hin.
Defined.


(** ** The sheets agree on the resources *)

Section SheetsAgree.
Local Open Scope nat_scope.

Lemma summary_keys_are_unique_ids (jobs : list BackupJob) :
  ODict.keys (resource_summary_of (map backup_view jobs))
  = ODict.keys (foldl unique_step [] jobs).
Proof.
  induction jobs as [|job jobs IH] using rev_ind; [reflexivity|].
  rewrite map_app. simpl map.
  rewrite resource_summary_snoc, resource_summary_step_keys, unique_snoc.
  change (bk_resource_id (backup_view job)) with (ur_resource_id (record_of job)).
  assert (Hmem : ODict.mem (ur_resource_id (record_of job))
                   (resource_summary_of (map backup_view jobs))
                 = ODict.mem (ur_resource_id (record_of job)) (foldl unique_step [] jobs)).
  { destruct (ODict.mem _ (foldl unique_step [] jobs)) eqn:E.
    - apply odict_mem_keys. rewrite IH. now apply odict_mem_keys.
    - apply odict_mem_false. rewrite IH. now apply odict_mem_false. }
  rewrite Hmem. destruct (ODict.mem _ (foldl unique_step [] jobs)); [exact IH|].
  unfold ODict.keys in *. rewrite map_app, IH. reflexivity.
Qed.

Lemma summary_rows_ids (round2 : Q -> Q) (items : list (string * (nat * Q)))
  (rows : list ResourceSummaryRow) :
  Forall2 (summary_row_of round2) items rows ->
  map rs_resource_id rows = ODict.keys items.
Proof.
  induction 1 as [|kv row items rows (Hid & _) _ IH]; [reflexivity|].
  simpl. now rewrite Hid, IH.
Qed.

Lemma summary_total (jobs : list BackupJob) :
  sum_values (get_job_status_summary jobs) = length jobs.
Proof.
  induction jobs as [|job jobs IH] using rev_ind; [reflexivity|].
  rewrite summary_snoc, sum_values_incr, IH, length_app. simpl. lia.
Qed.
End SheetsAgree.

(** X6. The Unique Resources sheet and the Resource Summary sheet list the
    same resources in the same order (that of their first job), and the
    monthly pivot has the same resources as its rows, in sorted order: the
    three tables have one row per resource. *)
Theorem sheets_list_same_resources (round2 : Q -> Q) (jobs : list BackupJob) :
  exists rows,
    resource_data round2 (resource_summary_of (map backup_view jobs)) = Ok rows
    /\ map rs_resource_id rows = map ur_resource_id (get_unique_resources jobs)
    /\ fr_index (monthly_resource_summary (map backup_view jobs))
       ≡ₚ map ur_resource_id (get_unique_resources jobs)
    /\ Sorted String.le (fr_index (monthly_resource_summary (map backup_view jobs)))
    /\ length rows = length (get_unique_resources jobs)
    /\ length (fr_index (monthly_resource_summary (map backup_view jobs)))
       = length (get_unique_resources jobs).
Proof.
  destruct (resource_data_defined round2 _
              (resource_summary_counts (map backup_view jobs))) as (rows & Hrows & Hall).
  assert (Hids : map rs_resource_id rows = map ur_resource_id (get_unique_resources jobs)).
  { rewrite (summary_rows_ids round2 _ _ Hall), summary_keys_are_unique_ids.
    now rewrite unique_values_ids. }
  assert (Hperm : fr_index (monthly_resource_summary (map backup_view jobs))
                  ≡ₚ map ur_resource_id (get_unique_resources jobs)).
  { rewrite monthly_index. apply NoDup_Permutation.
    - apply NoDup_sorted_set.
    - rewrite unique_values_ids. apply unique_invariant.
    - intros x. rewrite elem_of_sorted_set. symmetry. apply normalizer_ids. }
  exists rows. split; [exact Hrows|]. split; [exact Hids|]. split; [exact Hperm|].
  split; [rewrite monthly_index; apply Sorted_sorted_set|].
  split.
  - rewrite <- (length_map rs_resource_id), Hids. apply length_map.
  - rewrite Hperm. apply length_map.
Qed.

(** X7. The counts of a generated report agree: [total_backups] is the
    number of rows of the per-job view and the sum of the status summary,
    there are never more unique resources than backups, and there is no
    unique resource exactly when there is no backup. *)
Theorem report_counts_agree (client : BackupClient) (col : Collected) (days : Z) :
  total_backups (fst (generate_backup_report client col days))
  = length (backups (fst (generate_backup_report client col days)))
  /\ sum_values (job_status_summary (fst (generate_backup_report client col days)))
     = total_backups (fst (generate_backup_report client col days))
  /\ (length (unique_resources (fst (generate_backup_report client col days)))
      <= total_backups (fst (generate_backup_report client col days)))%nat
  /\ (unique_resources (fst (generate_backup_report client col days)) = []
      <-> total_backups (fst (generate_backup_report client col days)) = 0%nat).
Proof.
  unfold generate_backup_report. destruct (get_backup_plans client) as [plans log].
  simpl. set (jobs := col_backup_jobs col days).
  split; [now rewrite length_map|]. split; [apply summary_total|].
  assert (Hids : map ur_resource_id (get_unique_resources jobs)
                 ⊆+ map bk_resource_id (map backup_view jobs)).
  { apply NoDup_submseteq.
    - rewrite unique_values_ids. apply unique_invariant.
    - intros x. apply normalizer_ids. }
  apply submseteq_length in Hids. rewrite !length_map in Hids.
  split; [exact Hids|]. split.
  - intros He. destruct jobs as [|job jobs'] eqn:Ej; [reflexivity|]. exfalso.
    assert (Hin : ur_resource_id (record_of job)
                  ∈ map ur_resource_id (get_unique_resources (job :: jobs'))).
    { apply normalizer_ids. rewrite view_ids. simpl. constructor. }
    rewrite He in Hin. inversion Hin.
  - intros Hz. apply length_zero_iff_nil in Hz. now rewrite Hz.
Qed.

(** ** Backup plans, continued *)

Section PlanFailures.
Variable client : BackupClient.

Lemma plans_of_page_fails (items : list PlanSummary) (acc : list Plan)
  (log : list log_line) :
  Exists (fun plan => ~ details_ok client plan) items ->
  exists e log', plans_of_page client items acc log = (Raise e, log').
Proof.
  intros Hex. revert acc log.
  induction items as [|plan items IH]; intros acc log; [inversion Hex|]. simpl.
  destruct (get_backup_plan client (BackupPlanId plan)) as [plan_details|e] eqn:Hd;
    [|eauto].
  destruct (fetch_selections client (BackupPlanId plan)) as [sels printed].
  apply IH. apply Exists_cons in Hex as [Hhd|Htl]; [|exact Htl].
  exfalso. apply Hhd. exists plan_details. exact Hd.
Qed.

Lemma plans_of_page_total (items : list PlanSummary) (acc : list Plan)
  (log : list log_line) :
  Forall (details_ok client) items \/ Exists (fun plan => ~ details_ok client plan) items.
Proof.
  induction items as [|plan items [IH|IH]].
  - left. constructor.
  - destruct (get_backup_plan client (BackupPlanId plan)) as [d|e] eqn:Hd.
    + left. constructor; [now exists d | exact IH].
    + right. apply Exists_cons. left. intros [d Hd']. congruence.
  - right. apply Exists_cons. now right.
Qed.

Lemma plans_of_pages_fails (ps : pages PlanSummary) (acc : list Plan)
  (log : list log_line) :
  pages_complete ps = false
  \/ Exists (fun plan => ~ details_ok client plan) (pages_items ps) ->
  exists e log', plans_of_pages client ps acc log = (Raise e, log').
Proof.
  revert acc log. induction ps as [|e|items rest IH]; intros acc log H; simpl in *.
  - destruct H as [H|H]; [discriminate | inversion H].
  - eauto.
  - destruct (plans_of_page_total items acc log) as [Hok|Hbad].
    + destruct (plans_of_page_spec client items acc log Hok)
        as (entries & printed & -> & _ & _).
      apply IH. destruct H as [H|H]; [now left|].
      apply Exists_app in H as [H|H]; [|now right].
      exfalso. apply Exists_exists in H as (plan & Hin & Hn).
      rewrite Forall_forall in Hok. now apply Hn, Hok.
    + destruct (plans_of_page_fails items acc log Hbad) as (e & log' & ->). eauto.
Qed.

(** What is printed about the selections of the listed plans. *)
Lemma plans_of_page_log (items : list PlanSummary) (acc : list Plan)
  (log : list log_line) :
  Forall (details_ok client) items ->
  snd (plans_of_page client items acc log)
  = log ++ concat (map (fun plan => snd (fetch_selections client (BackupPlanId plan)))
                     items).
Proof.
  intros Hok. revert acc log.
  induction Hok as [|plan items [d Hd] _ IH]; intros acc log; simpl.
  - now rewrite app_nil_r.
  - rewrite Hd. destruct (fetch_selections client (BackupPlanId plan)) as [sels printed].
    simpl. rewrite IH. now rewrite app_assoc.
Qed.

Lemma plans_of_pages_log (ps : pages PlanSummary) (acc : list Plan)
  (log : list log_line) :
  pages_complete ps = true ->
  Forall (details_ok client) (pages_items ps) ->
  snd (plans_of_pages client ps acc log)
  = log ++ concat (map (fun plan => snd (fetch_selections client (BackupPlanId plan)))
                     (pages_items ps)).
Proof.
  revert acc log. induction ps as [|e|items rest IH]; intros acc log Hc Hok; simpl in *.
  - now rewrite app_nil_r.
  - discriminate.
  - apply Forall_app in Hok as [Hok1 Hok2].
    pose proof (plans_of_page_log items acc log Hok1) as Hlog.
    destruct (plans_of_page_spec client items acc log Hok1)
      as (entries & printed & Hrun & _ & _).
    rewrite Hrun in *. simpl in Hlog.
    rewrite IH by assumption. rewrite Hlog, map_app, concat_app. now rewrite app_assoc.
Qed.

Lemma fetch_selections_quiet (plan : string) :
  snd (fetch_selections client plan) = [] <-> ~ selections_fetch_fails client plan.
Proof.
  unfold fetch_selections, selections_fetch_fails.
  destruct (selections_of_pages_spec client plan (list_backup_selections client plan) [])
    as [_ Hs].
  destruct (selections_of_pages client plan _ []) as [sels [e|]]; simpl in *.
  - split; [discriminate|]. intros Hn. exfalso. apply Hn.
    destruct (pages_complete _); [|now left].
    destruct (forallb _ _); [|now right].
    destruct Hs as [_ Hs]. now specialize (Hs (conj eq_refl eq_refl)).
  - split; [|reflexivity]. intros _ [H|H];
      destruct Hs as [Hs _]; destruct (Hs eq_refl); congruence.
Qed.
End PlanFailures.

(** X8. A failure outside the selections is not contained: when listing
    the plans fails, or the details of one listed plan cannot be fetched,
    [get_backup_plans] returns no plan at all, also not the plans assembled
    before, and the last line it prints is that error. *)
Theorem plan_failure_loses_all (client : BackupClient) :
  pages_complete (list_backup_plans client) = false
  \/ Exists (fun plan => ~ details_ok client plan)
       (pages_items (list_backup_plans client)) ->
  fst (get_backup_plans client) = []
  /\ exists e printed, snd (get_backup_plans client) = printed ++ [PlansError e].
Proof.
  intros H. unfold get_backup_plans.
  destruct (plans_of_pages_fails client _ [] [] H) as (e & log' & ->).
  simpl. eauto.
Qed.

(** The details of the second example plan fail: the first plan is lost
    too. *)
Lemma plan_failure_loses_all_witness :
  fst (get_backup_plans example_client_broken) = []
  /\ exists e printed,
       snd (get_backup_plans example_client_broken) = printed ++ [PlansError e].
Proof.
  apply (plan_failure_loses_all example_client_broken).
  right. apply Exists_cons. right. apply Exists_cons. left.
  intros [d Hd]. discriminate.
Defined.

(** X9. When the plans are listed and their details fetched, what
    [get_backup_plans] prints is, plan after plan in the order of the
    listing, one line for each plan whose selections could not be fetched
    and nothing for the others; a run without such a failure prints
    nothing. *)
Theorem selection_errors_logged (client : BackupClient) :
  pages_complete (list_backup_plans client) = true ->
  Forall (details_ok client) (pages_items (list_backup_plans client)) ->
  snd (get_backup_plans client)
  = concat (map (fun plan => snd (fetch_selections client (BackupPlanId plan)))
              (pages_items (list_backup_plans client)))
  /\ (forall plan,
        (selections_fetch_fails client plan ->
         exists e, snd (fetch_selections client plan) = [SelectionsError plan e])
        /\ (~ selections_fetch_fails client plan ->
            snd (fetch_selections client plan) = []))
  /\ (Forall (fun plan => ~ selections_fetch_fails client (BackupPlanId plan))
        (pages_items (list_backup_plans client)) ->
      snd (get_backup_plans client) = []).
Proof.
  intros Hc Hok.
  assert (Hlog : snd (get_backup_plans client)
                 = concat (map (fun plan => snd (fetch_selections client (BackupPlanId plan)))
                             (pages_items (list_backup_plans client)))).
  { pose proof (plans_of_pages_log client _ [] [] Hc Hok) as Hlog.
    unfold get_backup_plans.
    destruct (plans_of_pages_spec client _ [] [] Hc Hok) as (entries & printed & Hrun & _).
    rewrite Hrun in *. exact Hlog. }
  split; [exact Hlog|]. split.
  - intros plan. split; [apply fetch_selections_spec | apply fetch_selections_quiet].
  - intros Hquiet. rewrite Hlog. clear Hlog Hok Hc.
    induction Hquiet as [|plan items Hq _ IH]; [reflexivity|]. simpl.
    apply fetch_selections_quiet in Hq. rewrite Hq. exact IH.
Qed.

(** The example client: only the first plan has failing selections. *)
Lemma selection_errors_logged_witness :
  snd (get_backup_plans example_client)
  = concat (map (fun plan => snd (fetch_selections example_client (BackupPlanId plan)))
              (pages_items (list_backup_plans example_client)))
  /\ (forall plan,
        (selections_fetch_fails example_client plan ->
         exists e, snd (fetch_selections example_client plan) = [SelectionsError plan e])
        /\ (~ selections_fetch_fails example_client plan ->
            snd (fetch_selections example_client plan) = []))
  /\ (Forall (fun plan => ~ selections_fetch_fails example_client (BackupPlanId plan))
        (pages_items (list_backup_plans example_client)) ->
      snd (get_backup_plans example_client) = []).
Proof.
  apply (selection_errors_logged example_client).
  - reflexivity.
  - repeat constructor; eexists; reflexivity.
Defined.


(** ** The volume and snapshot collectors *)

Section StorageCollectors.
Lemma name_tag_none (tags : list RawVolume.Tag) :
  no_name_tag tags -> name_tag tags = "N/A".
Proof.
  induction 1 as [|tag tags Hk _ IH]; [reflexivity|]. simpl.
  apply String.eqb_neq in Hk. now rewrite Hk.
Qed.

Lemma name_tag_first (pre post : list RawVolume.Tag) (tag : RawVolume.Tag) :
  no_name_tag pre -> RawVolume.Key tag = "Name" ->
  name_tag (pre ++ tag :: post) = RawVolume.Value tag.
Proof.
  induction 1 as [|t pre Hk _ IH]; intros Hname; simpl.
  - apply String.eqb_eq in Hname. now rewrite Hname.
  - apply String.eqb_neq in Hk. rewrite Hk. now apply IH.
Qed.

(** Either no tag is a name tag, or the list splits at the first one. *)
Lemma name_tag_split (tags : list RawVolume.Tag) :
  no_name_tag tags
  \/ exists pre tag post,
       tags = pre ++ tag :: post /\ no_name_tag pre /\ RawVolume.Key tag = "Name".
Proof.
  induction tags as [|t tags [IH|(pre & tag & post & -> & Hpre & Hk)]].
  - left. constructor.
  - destruct (String.eqb (RawVolume.Key t) "Name") eqn:E.
    + right. exists [], t, tags. repeat split; [constructor | now apply String.eqb_eq].
    + left. constructor; [now apply String.eqb_neq | exact IH].
  - destruct (String.eqb (RawVolume.Key t) "Name") eqn:E.
    + right. exists [], t, (pre ++ tag :: post).
      repeat split; [constructor | now apply String.eqb_eq].
    + right. exists (t :: pre), tag, post.
      repeat split; [constructor; [now apply String.eqb_neq | exact Hpre] | exact Hk].
Qed.
End StorageCollectors.

(** X10. The volume and snapshot collectors are all or nothing: when the
    listing ends without a failing request, the result has one record per
    listed item, in order; when any request fails, the result is empty,
    whatever was listed before, and the error is printed. *)
Theorem storage_collectors_all_or_nothing (describe_volumes : pages RawVolume.t)
  (describe_snapshots : pages RawSnapshot.t) :
  (pages_complete describe_volumes = true ->
   get_ebs_volumes describe_volumes
   = (map volume_info (pages_items describe_volumes), []))
  /\ (pages_complete describe_volumes = false ->
      exists e, get_ebs_volumes describe_volumes = ([], [VolumesError e]))
  /\ (pages_complete describe_snapshots = true ->
      get_snapshots describe_snapshots
      = (map snapshot_info (pages_items describe_snapshots), []))
  /\ (pages_complete describe_snapshots = false ->
      exists e, get_snapshots describe_snapshots = ([], [SnapshotsError e])).
Proof.
  unfold get_ebs_volumes, get_snapshots. repeat split; intros H.
  - now rewrite extend_pages_complete by exact H.
  - destruct (extend_pages_fails volume_info _ [] H) as [e ->]. eauto.
  - now rewrite extend_pages_complete by exact H.
  - destruct (extend_pages_fails snapshot_info _ [] H) as [e ->]. eauto.
Qed.

(** A second page that fails discards the volume of the first page. *)
Lemma storage_collectors_all_or_nothing_witness :
  (exists e, get_ebs_volumes (Page [example_volume] (PagesFail (ClientError "Throttling")))
             = ([], [VolumesError e]))
  /\ get_ebs_volumes (Page [example_volume] PagesEnd)
     = ([volume_info example_volume], []).
Proof.
  split.
  - apply (storage_collectors_all_or_nothing
             (Page [example_volume] (PagesFail (ClientError "Throttling"))) PagesEnd).
    reflexivity.
  - apply (storage_collectors_all_or_nothing (Page [example_volume] PagesEnd) PagesEnd).
    reflexivity.
Defined.

(** X11. The name of a volume or snapshot is the value of its first tag
    with the key 'Name' (the key is compared exactly), and the sentinel
    "N/A" when it has no tags or none with that key. A volume reports the
    instance and device of its first attachment only, and the sentinels
    "Not Attached" and "N/A" when it has none. *)
Theorem storage_names_and_attachments (volume : RawVolume.t)
  (snapshot : RawSnapshot.t) :
  (no_name_tag (default [] (RawVolume.Tags volume)) /\ vol_name (volume_info volume) = "N/A"
   \/ exists pre tag post,
        RawVolume.Tags volume = Some (pre ++ tag :: post)
        /\ no_name_tag pre /\ RawVolume.Key tag = "Name"
        /\ vol_name (volume_info volume) = RawVolume.Value tag)
  /\ (no_name_tag (default [] (RawSnapshot.Tags snapshot))
      /\ snap_name (snapshot_info snapshot) = "N/A"
      \/ exists pre tag post,
           RawSnapshot.Tags snapshot = Some (pre ++ tag :: post)
           /\ no_name_tag pre /\ RawVolume.Key tag = "Name"
           /\ snap_name (snapshot_info snapshot) = RawVolume.Value tag)
  /\ (RawVolume.Attachments volume = [] ->
      vol_attached_instance (volume_info volume) = "Not Attached"
      /\ vol_device (volume_info volume) = "N/A")
  /\ (forall attachment others,
        RawVolume.Attachments volume = attachment :: others ->
        vol_attached_instance (volume_info volume) = RawVolume.InstanceId attachment
        /\ vol_device (volume_info volume) = RawVolume.Device attachment).
Proof.
  split; [|split; [|split]].
  - unfold volume_info. simpl.
    destruct (RawVolume.Tags volume) as [tags|]; simpl.
    + destruct (name_tag_split tags) as [Hn|(pre & tag & post & -> & Hpre & Hk)].
      * left. split; [exact Hn | now apply name_tag_none].
      * right. exists pre, tag, post. repeat split; try assumption.
        now apply name_tag_first.
    + left. split; [constructor | reflexivity].
  - unfold snapshot_info. simpl.
    destruct (RawSnapshot.Tags snapshot) as [tags|]; simpl.
    + destruct (name_tag_split tags) as [Hn|(pre & tag & post & -> & Hpre & Hk)].
      * left. split; [exact Hn | now apply name_tag_none].
      * right. exists pre, tag, post. repeat split; try assumption.
        now apply name_tag_first.
    + left. split; [constructor | reflexivity].
  - unfold volume_info. simpl. now intros ->.
  - unfold volume_info. simpl. now intros attachment others ->.
Qed.

(** The example volume: the first of its two name tags and the first of
    its two attachments are reported. *)
Lemma example_volume_info :
  vol_name (volume_info example_volume) = "data"
  /\ vol_attached_instance (volume_info example_volume) = "i-1"
  /\ vol_device (volume_info example_volume) = "/dev/sda1"
  /\ vol_creation_date (volume_info example_volume) = "2023-12-24 08:30".
Proof. repeat split. Qed.

(** ** When the projection succeeds *)

Section ProjectionOutcome.
Variable round2 : Q -> Q.

Lemma summary_values_defined (report : Report) :
  backups report <> [] ->
  exists values, summary_values round2 report = Ok values /\ length values = 15%nat.
Proof.
  intros Hne. unfold summary_values.
  destruct (backups report) as [|b bs]; [congruence|]. simpl.
  eexists. split; reflexivity.
Qed.

Lemma project_nonempty (report : Report) :
  backups report <> [] ->
  exists values rows,
    summary_values round2 report = Ok values
    /\ resource_data round2 (resource_summary_of (backups report)) = Ok rows
    /\ project round2 report
       = (Ok tt, report,
          [("Summary", SummaryTable summary_information values);
           ("Unique Resources", ResourcesTable (unique_resources report));
           ("Backup Plans", PlansTable (plans_data (plans report)));
           ("Backup Jobs", JobsTable (backups report));
           ("Resource Summary", ResourceSummaryTable rows);
           ("EBS Volumes", VolumesTable (ebs_volumes (storage report)));
           ("Snapshots", SnapshotsTable (snapshots (storage report)));
           ("Monthly Resource Summary",
            PivotTable (monthly_resource_summary (backups report)))]).
Proof.
  intros Hne.
  destruct (summary_values_defined report Hne) as (values & Hv & _).
  destruct (resource_data_defined round2 _ (resource_summary_counts (backups report)))
    as (rows & Hr & _).
  exists values, rows. split; [exact Hv|]. split; [exact Hr|].
  unfold project, create_excel_report, proj_bind, get_report, eval, to_excel. simpl.
  rewrite Hv. simpl. rewrite Hr. reflexivity.
Qed.
End ProjectionOutcome.

(** X12. [create_excel_report] raises exactly when the report has no
    backups. On a report with at least one backup it ends normally, leaves
    the report as it is and writes the eight sheets, in the order Summary,
    Unique Resources, Backup Plans, Backup Jobs, Resource Summary, EBS
    Volumes, Snapshots, Monthly Resource Summary: the pivot is the last
    sheet written although the source starts on it before the two storage
    sheets, and the Summary column has fifteen values. *)
Theorem projection_outcome (round2 : Q -> Q) (report : Report) :
  (fst (fst (project round2 report)) = Ok tt <-> backups report <> [])
  /\ (backups report <> [] ->
      snd (fst (project round2 report)) = report
      /\ map fst (snd (project round2 report)) = sheet_names
      /\ exists values,
           summary_values round2 report = Ok values /\ length values = 15%nat
           /\ snd (project round2 report) !! 0%nat
              = Some ("Summary", SummaryTable summary_information values)
           /\ length summary_information = length values)
  /\ (backups report = [] -> snd (project round2 report) = []).
Proof.
  split; [split|split].
  - intros Hok He. unfold project, create_excel_report, proj_bind, get_report, eval in Hok.
    simpl in Hok. rewrite (summary_values_empty round2 report He) in Hok. discriminate.
  - intros Hne. destruct (project_nonempty round2 report Hne) as (v & r & _ & _ & ->).
    reflexivity.
  - intros Hne. destruct (project_nonempty round2 report Hne) as (v & r & Hv & _ & ->).
    destruct (summary_values_defined round2 report Hne) as (v' & Hv' & Hlen).
    assert (v' = v) by congruence. subst v'.
    repeat split. exists v. repeat split; try assumption. now rewrite Hlen.
  - intros He. unfold project, create_excel_report, proj_bind, get_report, eval.
    simpl. now rewrite (summary_values_empty round2 report He).
Qed.

(** X13. A failing job listing ends the Excel projection: when a request
    of the job listing fails, the generated report has no backups (and no
    unique resource and an empty status summary), and projecting it raises
    the [ValueError] of the minimum over no creation date, with no sheet
    written, whatever the plans, volumes and snapshots are. *)
Theorem failed_listing_ends_projection (round2 : Q -> Q) (client : BackupClient)
  (now region : string) (list_backup_jobs : Z -> string -> pages BackupJob)
  (describe_volumes : pages RawVolume.t) (describe_snapshots : pages RawSnapshot.t)
  (days : Z) :
  forallb (fun state => pages_complete (list_backup_jobs days state)) states = false ->
  total_backups
    (fst (generate_backup_report client
            (collect now region list_backup_jobs describe_volumes describe_snapshots)
            days)) = 0%nat
  /\ unique_resources
       (fst (generate_backup_report client
               (collect now region list_backup_jobs describe_volumes describe_snapshots)
               days)) = []
  /\ job_status_summary
       (fst (generate_backup_report client
               (collect now region list_backup_jobs describe_volumes describe_snapshots)
               days)) = ∅
  /\ fst (project round2
            (fst (generate_backup_report client
                    (collect now region list_backup_jobs describe_volumes
                       describe_snapshots)
                    days)))
     = (Raise (ValueError "min() arg is an empty sequence"),
        fst (generate_backup_report client
               (collect now region list_backup_jobs describe_volumes describe_snapshots)
               days))
  /\ snd (project round2
            (fst (generate_backup_report client
                    (collect now region list_backup_jobs describe_volumes
                       describe_snapshots)
                    days))) = [].
Proof.
  intros Hfail.
  destruct (jobs_of_states_fails list_backup_jobs days states [] Hfail) as [e He].
  assert (Hjobs : fst (get_backup_jobs list_backup_jobs days) = []).
  { unfold get_backup_jobs. now rewrite He. }
  set (report := fst (generate_backup_report client _ days)).
  assert (Hb : backups report = []).
  { unfold report. rewrite report_backups. simpl. now rewrite Hjobs. }
  assert (Hproj : project round2 report
                  = (Raise (ValueError "min() arg is an empty sequence"), report, [])).
  { unfold project, create_excel_report, proj_bind, get_report, eval. simpl.
    now rewrite (summary_values_empty round2 report Hb). }
  rewrite Hproj. unfold report, generate_backup_report.
  destruct (get_backup_plans client) as [plans log]. simpl. rewrite Hjobs.
  repeat split.
Qed.

(** The example listing whose third request fails. *)
Lemma failed_listing_ends_projection_witness :
  fst (project (fun q => q)
         (fst (generate_backup_report example_client
                 (collect "2024-04-01 00:00:00" "us-east-1" example_failing_listing
                    PagesEnd PagesEnd)
                 90)))
  = (Raise (ValueError "min() arg is an empty sequence"),
     fst (generate_backup_report example_client
            (collect "2024-04-01 00:00:00" "us-east-1" example_failing_listing
               PagesEnd PagesEnd)
            90)).
Proof.
  apply (failed_listing_ends_projection (fun q => q) example_client
           "2024-04-01 00:00:00" "us-east-1" example_failing_listing PagesEnd PagesEnd 90).
  reflexivity.
Defined.


(** ** Rows of the Resource Summary sheet *)

Section Grouping.
Local Open Scope nat_scope.
Context {V : Type}.
Implicit Types (d : list (string * V)) (k : string).

Lemma odict_mem_get k d : ODict.mem k d = true <-> is_Some (ODict.get k d).
Proof.
  unfold ODict.mem. induction d as [|[k' v'] d IH]; simpl.
  - split; [discriminate | intros [? ?]; discriminate].
  - destruct (String.eqb k' k); simpl; [split; eauto | exact IH].
Qed.

Lemma odict_get_alter (f : V -> V) k k' d :
  ODict.get k (ODict.alter f k' d)
  = if String.eqb k' k then (f <$> ODict.get k d) else ODict.get k d.
Proof.
  induction d as [|[k0 v0] d IH]; simpl; [now destruct (String.eqb k' k)|].
  destruct (String.eqb k0 k') eqn:E0; simpl.
  - apply String.eqb_eq in E0. subst k0.
    destruct (String.eqb k' k); reflexivity.
  - destruct (String.eqb k0 k) eqn:E1; [|exact IH].
    apply String.eqb_eq in E1. subst k0.
    rewrite String.eqb_sym in E0. now rewrite E0.
Qed.

Lemma odict_get_touch k k' (dflt : V) d :
  ODict.get k (ODict.touch k' dflt d)
  = match ODict.get k d with
    | Some v => Some v
    | None => if String.eqb k' k then Some dflt else None
    end.
Proof.
  unfold ODict.touch. destruct (ODict.mem k' d) eqn:E.
  - destruct (ODict.get k d) eqn:G; [reflexivity|].
    destruct (String.eqb k' k) eqn:Ek; [|reflexivity].
    apply String.eqb_eq in Ek. subst k'.
    apply odict_mem_get in E as [v Hv]. congruence.
  - rewrite odict_set_fresh by exact E. rewrite odict_get_app. simpl.
    now destruct (ODict.get k d).
Qed.

Lemma odict_get_elem k (v : V) d :
  NoDup (ODict.keys d) -> (k, v) ∈ d -> ODict.get k d = Some v.
Proof.
  unfold ODict.keys. induction d as [|[k' v'] d IH]; intros Hnd Hin; [inversion Hin|].
  simpl in *. apply NoDup_cons in Hnd as [Hk' Hnd].
  apply elem_of_cons in Hin as [[= -> ->]|Hin].
  - now rewrite String.eqb_refl.
  - destruct (String.eqb k' k) eqn:E; [|now apply IH].
    apply String.eqb_eq in E. subst k'. exfalso. apply Hk'.
    apply list_elem_of_In, in_map_iff. exists (k, v). split; [reflexivity|].
    now apply list_elem_of_In.
Qed.
End Grouping.

Section Partition.
Local Open Scope nat_scope.
Context {A : Type} (key : A -> string).

Lemma list_sum_zero (ks : list string) (y : string) :
  y ∉ ks -> list_sum (map (fun k => if decide (y = k) then 1 else 0) ks) = 0.
Proof.
  intros Hn.
  induction ks as [|k ks IH]; [reflexivity|]. simpl.
  rewrite decide_False by (intros ->; apply Hn; constructor).
  apply IH. intros H. apply Hn. now constructor.
Qed.

Lemma indicator_sum (y : string) (ks : list string) :
  NoDup ks -> y ∈ ks ->
  list_sum (map (fun k => if decide (y = k) then 1 else 0) ks) = 1.
Proof.
  induction 1 as [|k ks Hk Hnd IH]; intros Hin; [inversion Hin|]. simpl.
  destruct (decide (y = k)) as [->|Hne].
  - rewrite (list_sum_zero ks k Hk). reflexivity.
  - apply elem_of_cons in Hin as [?|Hin]; [congruence|]. now rewrite IH.
Qed.

Lemma list_sum_plus (a b : string -> nat) (ks : list string) :
  list_sum (map (fun k => a k + b k) ks)
  = list_sum (map a ks) + list_sum (map b ks).
Proof. induction ks as [|k ks IH]; simpl; lia. Qed.

(** Counting a list key by key, over distinct keys that cover it, counts
    the list. *)
Lemma count_partition (ks : list string) (l : list A) :
  NoDup ks -> Forall (fun x => key x ∈ ks) l ->
  list_sum (map (fun k => length (filter (fun x => key x = k) l)) ks) = length l.
Proof.
  intros Hnd. induction 1 as [|x l Hx _ IH].
  - induction ks as [|k ks IHk]; [reflexivity|].
    simpl. apply NoDup_cons in Hnd as [_ Hnd]. now apply IHk.
  - rewrite (map_ext _ (fun k => (if decide (key x = k) then 1 else 0)
                                 + length (filter (fun x => key x = k) l))).
    + rewrite list_sum_plus, IH, indicator_sum by assumption. reflexivity.
    + intros k. exact (length_filter_cons (fun x => key x = k) x l).
Qed.
End Partition.

Section ResourceRows.
Local Open Scope nat_scope.

Lemma py_sum_snoc (g : list Q) (x : Q) : py_sum (g ++ [x]) = Qplus (py_sum g) x.
Proof. unfold py_sum. now rewrite fold_left_app. Qed.

Lemma sizes_of_snoc (backups : list BackupView) (job : BackupView) (k : string) :
  sizes_of (backups ++ [job]) k
  = sizes_of backups k
    ++ (if String.eqb (bk_resource_id job) k then [bk_backup_size_gb job] else []).
Proof.
  unfold sizes_of. rewrite filter_app, map_app. f_equal.
  rewrite filter_cons, filter_nil.
  destruct (String.eqb (bk_resource_id job) k) eqn:E.
  - apply String.eqb_eq in E. now rewrite decide_True by exact E.
  - apply String.eqb_neq in E. now rewrite decide_False by exact E.
Qed.

(** Under each resource the grouping holds the number of its jobs and the
    sum of their sizes, added up in the order of the jobs. *)
Lemma resource_summary_get (backups : list BackupView) (k : string) :
  ODict.get k (resource_summary_of backups)
  = if decide (k ∈ map bk_resource_id backups)
    then Some (length (sizes_of backups k), py_sum (sizes_of backups k))
    else None.
Proof.
  induction backups as [|job backups IH] using rev_ind.
  - rewrite decide_False; [reflexivity | intros H; inversion H].
  - rewrite resource_summary_snoc, resource_summary_step_eq.
    rewrite !odict_get_alter, odict_get_touch, IH, sizes_of_snoc, map_app.
    destruct (String.eqb (bk_resource_id job) k) eqn:E.
    + apply String.eqb_eq in E. subst k.
      rewrite (decide_True (P := _ ∈ _ ++ _))
        by (apply elem_of_app; right; constructor).
      rewrite py_sum_snoc, length_app. simpl. rewrite Nat.add_1_r.
      destruct (decide (bk_resource_id job ∈ map bk_resource_id backups)) as [Hin|Hout];
        simpl; [reflexivity|].
      assert (Hnil : sizes_of backups (bk_resource_id job) = []).
      { unfold sizes_of. rewrite (filter_none (fun b => bk_resource_id b = _)); [reflexivity|].
        apply Forall_forall. intros b Hb Heq. apply Hout. rewrite <- Heq.
        apply list_elem_of_In, in_map. now apply list_elem_of_In. }
      now rewrite Hnil.
    + rewrite app_nil_r. apply String.eqb_neq in E.
      destruct (decide (k ∈ map bk_resource_id backups)) as [Hin|Hout].
      * rewrite decide_True; [reflexivity | apply elem_of_app; now left].
      * rewrite decide_False; [reflexivity|].
        intros H. apply elem_of_app in H as [H|H]; [contradiction|].
        apply list_elem_of_singleton in H. congruence.
Qed.

Lemma resource_summary_NoDup (backups : list BackupView) :
  NoDup (ODict.keys (resource_summary_of backups)).
Proof.
  induction backups as [|job backups IH] using rev_ind; [constructor|].
  rewrite resource_summary_snoc, resource_summary_step_keys.
  destruct (ODict.mem _ _) eqn:E; [exact IH|].
  apply odict_mem_false in E. apply NoDup_app. split; [exact IH|].
  split; [|apply NoDup_singleton].
  intros x Hx Hx'. apply list_elem_of_singleton in Hx'. now subst.
Qed.

Lemma resource_summary_entries (backups : list BackupView) (kv : string * (nat * Q)) :
  kv ∈ resource_summary_of backups ->
  snd kv = (length (sizes_of backups (fst kv)), py_sum (sizes_of backups (fst kv))).
Proof.
  destruct kv as [k data]. intros Hin. simpl.
  pose proof (odict_get_elem k data _ (resource_summary_NoDup backups) Hin) as Hget.
  rewrite resource_summary_get in Hget. case_decide; congruence.
Qed.

Lemma resource_summary_total (backups : list BackupView) :
  list_sum (map (fun kv => fst (snd kv)) (resource_summary_of backups)) = length backups.
Proof.
  rewrite <- (count_partition bk_resource_id (ODict.keys (resource_summary_of backups))
                backups).
  - unfold ODict.keys. rewrite map_map. apply f_equal, map_ext_in.
    intros kv Hin. apply list_elem_of_In, resource_summary_entries in Hin.
    rewrite Hin. unfold sizes_of. simpl. now rewrite length_map.
  - apply resource_summary_NoDup.
  - apply Forall_forall. intros b Hb. apply resource_summary_keys.
    apply list_elem_of_In, in_map. now apply list_elem_of_In.
Qed.

Variable round2 : Q -> Q.

Lemma resource_data_rows (backups : list BackupView)
  (items : list (string * (nat * Q))) (rows : list ResourceSummaryRow) :
  (forall kv, kv ∈ items -> kv ∈ resource_summary_of backups) ->
  resource_data round2 items = Ok rows ->
  Forall (summary_row_for round2 backups) rows
  /\ map rs_resource_id rows = ODict.keys items
  /\ map rs_total_backups rows = map (fun kv => fst (snd kv)) items.
Proof.
  revert rows. induction items as [|[k [c s]] items IH]; intros rows Hsub Hrun; simpl in Hrun.
  - injection Hrun as <-. repeat split. constructor.
  - destruct c as [|c]; simpl in Hrun; [discriminate|].
    destruct (resource_data round2 items) as [rows'|] eqn:Hrest; simpl in Hrun;
      [|discriminate].
    injection Hrun as <-.
    destruct (IH rows') as (Hall & Hids & Hcounts);
      [intros kv Hkv; apply Hsub; now constructor | reflexivity |].
    assert (Hdata : (S c, s) = (length (sizes_of backups k), py_sum (sizes_of backups k))).
    { apply (resource_summary_entries backups (k, (S c, s))). apply Hsub. constructor. }
    injection Hdata as Hc Hs.
    split; [|split; simpl; congruence].
    constructor; [|exact Hall].
    unfold summary_row_for. simpl. rewrite <- Hc, <- Hs. repeat split. lia.
Qed.
End ResourceRows.

(** X14. The Resource Summary sheet has one row per resource, and the row
    of a resource holds the number of its jobs (at least 1), the sum of
    their sizes divided by 1024 and the sum divided by the number, both
    rounded; the sum adds the sizes in the order of the jobs. The numbers
    of backups of the rows add up to the number of jobs. *)
Theorem resource_summary_rows (round2 : Q -> Q) (backups : list BackupView) :
  exists rows,
    resource_data round2 (resource_summary_of backups) = Ok rows
    /\ NoDup (map rs_resource_id rows)
    /\ (forall r, r ∈ map rs_resource_id rows <-> r ∈ map bk_resource_id backups)
    /\ Forall (summary_row_for round2 backups) rows
    /\ list_sum (map rs_total_backups rows) = length backups.
Proof.
  destruct (resource_data_defined round2 _ (resource_summary_counts backups))
    as (rows & Hrows & _).
  destruct (resource_data_rows round2 backups _ rows (fun kv H => H) Hrows)
    as (Hall & Hids & Hcounts).
  exists rows. split; [exact Hrows|]. rewrite Hids, Hcounts.
  split; [apply resource_summary_NoDup|].
  split; [intros r; apply resource_summary_keys|].
  split; [exact Hall | apply resource_summary_total].
Qed.

(** ** The monthly pivot, cell by cell *)

Section PivotCells.
Local Open Scope nat_scope.

Lemma group_sizes_cell (backups : list BackupView) (r m : string) :
  group_sizes (jobs_frame backups) r m = cell_sizes backups r m.
Proof.
  unfold group_sizes, cell_sizes, jobs_frame.
  induction backups as [|b backups IH]; [reflexivity|].
  simpl. rewrite filter_cons. fold (month_of b).
  destruct (String.eqb (bk_resource_id b) r) eqn:Er;
    destruct (String.eqb (month_of b) m) eqn:Em; simpl.
  - apply String.eqb_eq in Er, Em. rewrite decide_True by (now split).
    simpl. now rewrite IH.
  - apply String.eqb_neq in Em. now rewrite decide_False by (intros [_ ?]; congruence).
  - apply String.eqb_neq in Er. now rewrite decide_False by (intros [? _]; congruence).
  - apply String.eqb_neq in Er. now rewrite decide_False by (intros [? _]; congruence).
Qed.

Lemma filled_count (g : list Q) :
  filled agg_count g = Some (inject_Z (Z.of_nat (length g))).
Proof. now destruct g. Qed.

Lemma filled_sum (g : list Q) : filled agg_sum g = Some (py_sum g).
Proof. now destruct g. Qed.

Lemma filled_mean (g : list Q) :
  exists avg, filled agg_mean g = Some avg
              /\ Qeq (Qmult avg (inject_Z (Z.of_nat (length g)))) (py_sum g)
              /\ (g <> [] -> avg = Qdiv (py_sum g) (inject_Z (Z.of_nat (length g))))
              /\ (g = [] -> avg = 0%Q).
Proof.
  destruct g as [|x g].
  - exists 0%Q. repeat split; congruence.
  - eexists. split; [reflexivity|]. split; [|split; [reflexivity | discriminate]].
    unfold agg_mean. rewrite Qmult_comm. apply Qmult_div_r.
    simpl length. unfold inject_Z, Qeq. simpl. lia.
Qed.

(** Sorting and removing duplicates twice changes nothing. *)
Lemma sorted_set_idemp (xs : list string) : sorted_set (sorted_set xs) = sorted_set xs.
Proof.
  apply (Sorted_unique String.le); try apply Sorted_sorted_set.
  apply NoDup_Permutation; try apply NoDup_sorted_set.
  intros x. apply elem_of_sorted_set.
Qed.

Lemma cell_sizes_months (backups : list BackupView) (r : string) :
  list_sum (map (fun m => length (cell_sizes backups r m))
              (sorted_set (map month_of backups)))
  = length (sizes_of backups r).
Proof.
  unfold sizes_of. rewrite length_map.
  rewrite <- (count_partition month_of (sorted_set (map month_of backups))
                (filter (fun b => bk_resource_id b = r) backups)).
  - apply f_equal, map_ext. intros m. unfold cell_sizes.
    rewrite length_map, list_filter_filter. apply f_equal.
    apply list_filter_iff. tauto.
  - apply NoDup_sorted_set.
  - apply Forall_forall. intros b Hb. apply list_elem_of_filter in Hb as [_ Hb].
    apply elem_of_sorted_set, list_elem_of_In, in_map. now apply list_elem_of_In.
Qed.

Variable backups : list BackupView.
Hypothesis months_plain :
  Forall (fun b => PyStr.has_char " " (month_of b) = false) backups.

(** The columns are the triplets of the observed months, in sorted order. *)
Lemma monthly_columns_eq :
  fr_columns (monthly_resource_summary backups)
  = concat (map month_columns (sorted_set (map month_of backups))).
Proof.
  unfold monthly_resource_summary, reindex_columns, rename_columns, pivot_table.
  cbn [fr_columns]. rewrite jobs_frame_months, map_map.
  rewrite (map_ext_in _ (fun x => x)).
  - now rewrite map_id, sorted_set_idemp.
  - intros x Hx. apply list_elem_of_In, (observed_month_plain _ months_plain) in Hx.
    now rewrite split_first.
Qed.

(** Every row lays out, column by column, the cells that the lookup by
    labels finds. *)
Lemma reindex_concat3_rows (labels : list string) (a b c : Frame) :
  fr_rows (reindex_columns labels (concat3 a b c))
  = map (fun r => (r, map (frame_get (reindex_columns labels (concat3 a b c)) r) labels))
      (fr_index a).
Proof.
  transitivity
    (map (fun row => (fst row, map (row_get (fr_columns (concat3 a b c)) (snd row)) labels))
       (map (fun r => (r, row_or_missing a r ++ row_or_missing b r ++ row_or_missing c r))
          (fr_index a))); [reflexivity|].
  rewrite map_map. cbn [fst snd].
  apply map_ext_in. intros r Hr. f_equal.
  apply map_ext_in. intros x Hx.
  rewrite frame_get_reindex by (now apply list_elem_of_In).
  rewrite frame_get_concat3 by (now apply list_elem_of_In). reflexivity.
Qed.

Lemma monthly_rows :
  fr_rows (monthly_resource_summary backups)
  = map (fun r => (r, map (frame_get (monthly_resource_summary backups) r)
                        (fr_columns (monthly_resource_summary backups))))
      (fr_index (monthly_resource_summary backups)).
Proof.
  unfold monthly_resource_summary. cbv zeta.
  rewrite reindex_concat3_rows, reindex_index, concat3_index. reflexivity.
Qed.

Lemma monthly_no_missing (r c : string) :
  r ∈ fr_index (monthly_resource_summary backups) ->
  c ∈ fr_columns (monthly_resource_summary backups) ->
  is_Some (frame_get (monthly_resource_summary backups) r c).
Proof.
  intros Hr Hc. rewrite monthly_index in Hr.
  apply (proj1 (elem_of_sorted_set _ _)) in Hr.
  apply (monthly_columns _ months_plain) in Hc as (m & Hm & Hc).
  destruct (monthly_cells _ months_plain r m Hr Hm) as (H1 & H2 & H3).
  destruct (filled_mean (group_sizes (jobs_frame backups) r m)) as (avg & Havg & _).
  unfold month_columns in Hc.
  apply elem_of_cons in Hc as [->|Hc]; [rewrite H1, filled_count; eauto|].
  apply elem_of_cons in Hc as [->|Hc]; [rewrite H2, Havg; eauto|].
  apply elem_of_cons in Hc as [->|Hc]; [rewrite H3, filled_sum; eauto|].
  inversion Hc.
Qed.
End PivotCells.

Lemma views_plain (jobs : list BackupJob) :
  Forall (fun b => PyStr.has_char " " (month_of b) = false) (map backup_view jobs).
Proof.
  apply Forall_forall. intros b Hb.
  apply list_elem_of_In, in_map_iff in Hb as (job & <- & _). apply period_no_space.
Qed.



(** X16. The layout of the monthly pivot: its columns are the triplets
    Count, GB Avg, GB Total of the observed months, month after month in
    ascending order of the month label and each month once; its rows are
    the observed resources in ascending order, each once; every row has a
    cell for every column, and no cell is missing. *)
Theorem pivot_layout (jobs : list BackupJob) :
  fr_columns (monthly_resource_summary (map backup_view jobs))
  = concat (map month_columns (sorted_set (map month_of (map backup_view jobs))))
  /\ Sorted String.le (sorted_set (map month_of (map backup_view jobs)))
  /\ NoDup (sorted_set (map month_of (map backup_view jobs)))
  /\ (forall m, m ∈ sorted_set (map month_of (map backup_view jobs))
                <-> m ∈ map month_of (map backup_view jobs))
  /\ Sorted String.le (fr_index (monthly_resource_summary (map backup_view jobs)))
  /\ NoDup (fr_index (monthly_resource_summary (map backup_view jobs)))
  /\ (forall r, r ∈ fr_index (monthly_resource_summary (map backup_view jobs))
                <-> r ∈ map bk_resource_id (map backup_view jobs))
  /\ Forall (fun row =>
               length (snd row)
               = length (fr_columns (monthly_resource_summary (map backup_view jobs)))
               /\ Forall is_Some (snd row))
       (fr_rows (monthly_resource_summary (map backup_view jobs))).
Proof.
  pose proof (views_plain jobs) as Hplain.
  split; [now apply monthly_columns_eq|].
  split; [apply Sorted_sorted_set|]. split; [apply NoDup_sorted_set|].
  split; [intros m; apply elem_of_sorted_set|].
  rewrite monthly_index.
  split; [apply Sorted_sorted_set|]. split; [apply NoDup_sorted_set|].
  split; [intros r; apply elem_of_sorted_set|].
  rewrite monthly_rows. apply Forall_forall. intros row Hrow.
  apply list_elem_of_In, in_map_iff in Hrow as (r & <- & Hr). simpl.
  split; [apply length_map|].
  apply Forall_forall. intros cell Hcell.
  apply list_elem_of_In, in_map_iff in Hcell as (c & <- & Hc).
  apply (monthly_no_missing _ Hplain); now apply list_elem_of_In.
Qed.

(** X17. For every observed resource, the counts of its row of the monthly
    pivot add up to the number of its jobs, which is its Total Backups in
    the Resource Summary grouping. *)
Theorem pivot_counts_add_up (jobs : list BackupJob) (r : string) :
  r ∈ map bk_resource_id (map backup_view jobs) ->
  exists counts : list nat,
    Forall2 (fun m n =>
               frame_get (monthly_resource_summary (map backup_view jobs)) r
                 (m +:+ " (Count)") = Some (inject_Z (Z.of_nat n)))
      (sorted_set (map month_of (map backup_view jobs))) counts
    /\ fst <$> ODict.get r (resource_summary_of (map backup_view jobs))
       = Some (list_sum counts)
    /\ list_sum counts = length (sizes_of (map backup_view jobs) r).
Proof.
  intros Hr.
  exists (map (fun m => length (cell_sizes (map backup_view jobs) r m))
            (sorted_set (map month_of (map backup_view jobs)))).
  pose proof (cell_sizes_months (map backup_view jobs) r) as Hsum.
  split; [|split; [|exact Hsum]].
  - apply Forall2_fmap_r, Forall_Forall2_diag, Forall_forall. intros m Hm.
    apply (proj1 (elem_of_sorted_set _ _)) in Hm.
    destruct (monthly_cells _ (views_plain jobs) r m Hr Hm) as (Hc & _).
    now rewrite Hc, group_sizes_cell, filled_count.
  - rewrite resource_summary_get, decide_True by exact Hr. simpl. now rewrite Hsum.
Qed.

(** The first example resource: one job in January and one in March. *)
Lemma pivot_counts_add_up_witness :
  exists counts : list nat,
    Forall2 (fun m n =>
               frame_get (monthly_resource_summary (map backup_view example_jobs)) "vol-1"
                 (m +:+ " (Count)") = Some (inject_Z (Z.of_nat n)))
      (sorted_set (map month_of (map backup_view example_jobs))) counts
    /\ fst <$> ODict.get "vol-1" (resource_summary_of (map backup_view example_jobs))
       = Some (list_sum counts)
    /\ list_sum counts = length (sizes_of (map backup_view example_jobs) "vol-1").
Proof.
  apply (pivot_counts_add_up example_jobs "vol-1").
  apply list_elem_of_In. vm_compute. auto.
Defined.


(** ** The Backup Plans sheet *)

Section PlansSheet.

End PlansSheet.


(** ** Rendered timestamps compare as time does *)

Section RenderedOrder.
Local Open Scope nat_scope.

Lemma compare_cons (c1 c2 : ascii) (s1 s2 : string) :
  String.compare (String c1 s1) (String c2 s2)
  = match Ascii.compare c1 c2 with
    | Eq => String.compare s1 s2
    | c => c
    end.
Proof. reflexivity. Qed.

Lemma ascii_compare_refl (c : ascii) : Ascii.compare c c = Eq.
Proof. unfold Ascii.compare. apply N.compare_refl. Qed.

Lemma digit_mod (n : nat) : digit n = digit (n mod 10).
Proof. unfold digit. now rewrite Nat.Div0.mod_mod. Qed.

Lemma digit_compare (a b : nat) :
  a < 10 -> b < 10 -> Ascii.compare (digit a) (digit b) = Nat.compare a b.
Proof.
  intros Ha Hb.
  do 10 (destruct a as [|a]; [do 10 (destruct b as [|b]; [reflexivity|]); lia|]).
  lia.
Qed.

Lemma pad2_split (a : nat) :
  a < 100 ->
  exists a1 a0, a1 < 10 /\ a0 < 10 /\ a = 10 * a1 + a0
                /\ pad2 a = String (digit a1) (String (digit a0) EmptyString).
Proof.
  intros Ha. exists (a / 10), (a mod 10).
  pose proof (Nat.div_mod_eq a 10) as Hdm.
  pose proof (Nat.mod_upper_bound a 10 ltac:(lia)) as Hm.
  repeat split; [lia | lia | lia |].
  unfold pad2. now rewrite (digit_mod a).
Qed.

Lemma pad4_split (a : nat) :
  a < 10 * 1000 ->
  exists a3 a2 a1 a0,
    a3 < 10 /\ a2 < 10 /\ a1 < 10 /\ a0 < 10
    /\ a = 1000 * a3 + 100 * a2 + 10 * a1 + a0
    /\ pad4 a = String (digit a3) (String (digit a2)
                  (String (digit a1) (String (digit a0) EmptyString))).
Proof.
  intros Ha.
  exists (a / 1000), ((a / 100) mod 10), ((a / 10) mod 10), (a mod 10).
  pose proof (Nat.div_mod_eq a 10) as H0.
  pose proof (Nat.mod_upper_bound a 10 ltac:(lia)) as B0.
  pose proof (Nat.div_mod_eq (a / 10) 10) as H1.
  pose proof (Nat.mod_upper_bound (a / 10) 10 ltac:(lia)) as B1.
  pose proof (Nat.div_mod_eq (a / 10 / 10) 10) as H2.
  pose proof (Nat.mod_upper_bound (a / 10 / 10) 10 ltac:(lia)) as B2.
  assert (E2 : a / 100 = a / 10 / 10) by (now rewrite Nat.Div0.div_div).
  assert (E3 : a / 1000 = a / 10 / 10 / 10) by (now rewrite !Nat.Div0.div_div).
  rewrite E2, E3.
  repeat split; try lia.
  unfold pad4, pad2. rewrite E2, E3.
  now rewrite (digit_mod (a / 10 / 10)), (digit_mod (a / 10)), (digit_mod a).
Qed.

Lemma digits2_compare (a1 a0 b1 b0 : nat) (s t : string) :
  a1 < 10 -> a0 < 10 -> b1 < 10 -> b0 < 10 ->
  String.compare (String (digit a1) (String (digit a0) s))
    (String (digit b1) (String (digit b0) t))
  = match Nat.compare (10 * a1 + a0) (10 * b1 + b0) with
    | Eq => String.compare s t
    | c => c
    end.
Proof.
  intros. rewrite !compare_cons, !digit_compare by assumption.
  destruct (Nat.compare_spec a1 b1), (Nat.compare_spec a0 b0),
    (Nat.compare_spec (10 * a1 + a0) (10 * b1 + b0)); try reflexivity; lia.
Qed.

Lemma pad2_compare (a b : nat) (s t : string) :
  a < 100 -> b < 100 ->
  String.compare (pad2 a +:+ s) (pad2 b +:+ t)
  = match Nat.compare a b with
    | Eq => String.compare s t
    | c => c
    end.
Proof.
  intros Ha Hb.
  destruct (pad2_split a Ha) as (a1 & a0 & ? & ? & -> & ->).
  destruct (pad2_split b Hb) as (b1 & b0 & ? & ? & -> & ->).
  rewrite !append_cons, !append_nil_l. now apply digits2_compare.
Qed.

Lemma pad4_compare (a b : nat) (s t : string) :
  a < 10 * 1000 -> b < 10 * 1000 ->
  String.compare (pad4 a +:+ s) (pad4 b +:+ t)
  = match Nat.compare a b with
    | Eq => String.compare s t
    | c => c
    end.
Proof.
  intros Ha Hb.
  destruct (pad4_split a Ha) as (a3 & a2 & a1 & a0 & ? & ? & ? & ? & -> & ->).
  destruct (pad4_split b Hb) as (b3 & b2 & b1 & b0 & ? & ? & ? & ? & -> & ->).
  rewrite !append_cons, !append_nil_l.
  rewrite digits2_compare by assumption.
  destruct (Nat.compare_spec (10 * a3 + a2) (10 * b3 + b2)) as [E|L|G].
  - rewrite digits2_compare by assumption.
    destruct (Nat.compare_spec (10 * a1 + a0) (10 * b1 + b0)),
      (Nat.compare_spec (1000 * a3 + 100 * a2 + 10 * a1 + a0)
         (1000 * b3 + 100 * b2 + 10 * b1 + b0)); try reflexivity; lia.
  - destruct (Nat.compare_spec (1000 * a3 + 100 * a2 + 10 * a1 + a0)
                (1000 * b3 + 100 * b2 + 10 * b1 + b0)); try reflexivity; lia.
  - destruct (Nat.compare_spec (1000 * a3 + 100 * a2 + 10 * a1 + a0)
                (1000 * b3 + 100 * b2 + 10 * b1 + b0)); try reflexivity; lia.
Qed.

Lemma sep_compare (c : ascii) (s t : string) :
  String.compare (String c EmptyString +:+ s) (String c EmptyString +:+ t)
  = String.compare s t.
Proof.
  now rewrite !append_cons, !append_nil_l, compare_cons, ascii_compare_refl.
Qed.

Lemma calendar_bounds (d : datetime) :
  calendar_datetime d ->
  dt_year d < 10 * 1000 /\ dt_month d < 100 /\ dt_day d < 100
  /\ dt_hour d < 100 /\ dt_minute d < 100.
Proof. unfold calendar_datetime. lia. Qed.

(** Rendered timestamps compare, as strings, the way their fields do. *)
Lemma strftime_compare (d1 d2 : datetime) :
  calendar_datetime d1 -> calendar_datetime d2 ->
  String.compare (strftime d1) (strftime d2) = dt_compare d1 d2.
Proof.
  intros H1 H2.
  apply calendar_bounds in H1 as (Y1 & M1 & D1 & h1 & m1).
  apply calendar_bounds in H2 as (Y2 & M2 & D2 & h2 & m2).
  unfold strftime, dt_compare, dt_fields, lex_compare.
  rewrite pad4_compare by assumption.
  destruct (Nat.compare (dt_year d1) (dt_year d2)); try reflexivity.
  rewrite sep_compare, pad2_compare by assumption.
  destruct (Nat.compare (dt_month d1) (dt_month d2)); try reflexivity.
  rewrite sep_compare, pad2_compare by assumption.
  destruct (Nat.compare (dt_day d1) (dt_day d2)); try reflexivity.
  rewrite sep_compare, pad2_compare by assumption.
  destruct (Nat.compare (dt_hour d1) (dt_hour d2)); try reflexivity.
  rewrite sep_compare.
  rewrite <- (append_nil_r (pad2 (dt_minute d1))), <- (append_nil_r (pad2 (dt_minute d2))).
  rewrite pad2_compare by assumption.
  now destruct (Nat.compare (dt_minute d1) (dt_minute d2)).
Qed.

(** The month labels compare the way year and month do. *)
Lemma period_compare (d1 d2 : datetime) :
  calendar_datetime d1 -> calendar_datetime d2 ->
  String.compare (to_period_M (strftime d1)) (to_period_M (strftime d2))
  = lex_compare [dt_year d1; dt_month d1] [dt_year d2; dt_month d2].
Proof.
  intros H1 H2.
  apply calendar_bounds in H1 as (Y1 & M1 & _).
  apply calendar_bounds in H2 as (Y2 & M2 & _).
  rewrite !period_of_strftime. unfold lex_compare.
  rewrite pad4_compare by assumption.
  destruct (Nat.compare (dt_year d1) (dt_year d2)); try reflexivity.
  rewrite <- (append_nil_r (pad2 (dt_month d1))), <- (append_nil_r (pad2 (dt_month d2))).
  rewrite sep_compare, pad2_compare by assumption.
  now destruct (Nat.compare (dt_month d1) (dt_month d2)).
Qed.

Lemma le_compare (s t : string) : String.le s t <-> String.compare s t <> Gt.
Proof.
  unfold String.le, String.leb.
  destruct (String.compare s t); simpl; split; try tauto; try discriminate.
Qed.

Lemma ltb_le (y m : string) : String.ltb y m = true -> String.le y m.
Proof.
  unfold String.ltb. intros H. apply le_compare.
  destruct (String.compare y m); discriminate.
Qed.

Lemma ltb_false_le (y m : string) : String.ltb y m = false -> String.le m y.
Proof.
  unfold String.ltb. intros H. apply le_compare.
  rewrite String.compare_antisym.
  destruct (String.compare y m); simpl; discriminate.
Qed.

Lemma fold_min_spec (xs : list string) (m : string) :
  fold_left (fun m y => if String.ltb y m then y else m) xs m ∈ m :: xs
  /\ String.le (fold_left (fun m y => if String.ltb y m then y else m) xs m) m
  /\ Forall (String.le (fold_left (fun m y => if String.ltb y m then y else m) xs m)) xs.
Proof.
  revert m. induction xs as [|y xs IH]; intros m; simpl.
  - split; [constructor|]. split; [reflexivity | constructor].
  - destruct (IH (if String.ltb y m then y else m)) as (Hin & Hle & Hall).
    destruct (String.ltb y m) eqn:E.
    + apply ltb_le in E. split; [now constructor|].
      split; [now transitivity y|]. now constructor.
    + apply ltb_false_le in E. split.
      * apply elem_of_cons in Hin as [->|Hin]; [constructor | now do 2 constructor].
      * split; [exact Hle|]. constructor; [now transitivity m | exact Hall].
Qed.

Lemma fold_max_spec (xs : list string) (m : string) :
  fold_left (fun m y => if String.ltb m y then y else m) xs m ∈ m :: xs
  /\ String.le m (fold_left (fun m y => if String.ltb m y then y else m) xs m)
  /\ Forall (fun x => String.le x
               (fold_left (fun m y => if String.ltb m y then y else m) xs m)) xs.
Proof.
  revert m. induction xs as [|y xs IH]; intros m; simpl.
  - split; [constructor|]. split; [reflexivity | constructor].
  - destruct (IH (if String.ltb m y then y else m)) as (Hin & Hle & Hall).
    destruct (String.ltb m y) eqn:E.
    + apply ltb_le in E. split; [now constructor|].
      split; [now transitivity y|]. now constructor.
    + apply ltb_false_le in E. split.
      * apply elem_of_cons in Hin as [->|Hin]; [constructor | now do 2 constructor].
      * split; [exact Hle|]. constructor; [now transitivity m | exact Hall].
Qed.

Lemma py_min_spec (xs : list string) :
  xs <> [] ->
  exists first, py_min xs = Ok first /\ first ∈ xs /\ Forall (String.le first) xs.
Proof.
  destruct xs as [|x xs]; [congruence|]. intros _. simpl.
  destruct (fold_min_spec xs x) as (Hin & Hle & Hall).
  eexists. split; [reflexivity|]. split; [exact Hin | now constructor].
Qed.

Lemma py_max_spec (xs : list string) :
  xs <> [] ->
  exists last, py_max xs = Ok last /\ last ∈ xs
               /\ Forall (fun x => String.le x last) xs.
Proof.
  destruct xs as [|x xs]; [congruence|]. intros _. simpl.
  destruct (fold_max_spec xs x) as (Hin & Hle & Hall).
  eexists. split; [reflexivity|]. split; [exact Hin | now constructor].
Qed.

Variable round2 : Q -> Q.

Lemma summary_first_last (report : Report) :
  backups report <> [] ->
  exists values first last,
    summary_values round2 report = Ok values
    /\ values !! 3 = Some (VStr first) /\ values !! 4 = Some (VStr last)
    /\ first ∈ map bk_creation_date (backups report)
    /\ last ∈ map bk_creation_date (backups report)
    /\ Forall (fun d => String.le first d /\ String.le d last)
         (map bk_creation_date (backups report))
    /\ values !! 5 = Some (VInt (Z.of_nat (length (unique_resources report))))
    /\ values !! 6 = Some (VInt (Z.of_nat (length (backups report))))
    /\ values !! 7
       = Some (VNum (round2 (Qdiv (py_sum (map bk_backup_size_gb (backups report)))
                               (inject_Z 1024)))).
Proof.
  intros Hne.
  assert (Hd : map bk_creation_date (backups report) <> []).
  { destruct (backups report); [congruence | discriminate]. }
  destruct (py_min_spec _ Hd) as (first & Hmin & Hfin & Hfle).
  destruct (py_max_spec _ Hd) as (last & Hmax & Hlin & Hlle).
  unfold summary_values. rewrite Hmin, Hmax. simpl.
  eexists _, first, last. split; [reflexivity|].
  repeat split; try assumption.
  apply Forall_forall. intros d Hin.
  rewrite Forall_forall in Hfle, Hlle. auto.
Qed.
End RenderedOrder.

(** X19. On a report with at least one backup, the First and Last Backup
    Date rows of the Summary table hold creation dates of the report that
    are least and greatest among all of them in the order of strings, and
    the next three rows hold the number of unique resources, the number of
    backups and the rounded sum of the sizes divided by 1024. *)
Theorem summary_table_values (round2 : Q -> Q) (report : Report) :
  backups report <> [] ->
  exists values first last,
    summary_values round2 report = Ok values
    /\ values !! 3%nat = Some (VStr first) /\ values !! 4%nat = Some (VStr last)
    /\ first ∈ map bk_creation_date (backups report)
    /\ last ∈ map bk_creation_date (backups report)
    /\ Forall (fun d => String.le first d /\ String.le d last)
         (map bk_creation_date (backups report))
    /\ values !! 5%nat = Some (VInt (Z.of_nat (length (unique_resources report))))
    /\ values !! 6%nat = Some (VInt (Z.of_nat (length (backups report))))
    /\ values !! 7%nat
       = Some (VNum (round2 (Qdiv (py_sum (map bk_backup_size_gb (backups report)))
                               (inject_Z 1024)))).
Proof.
  intros Hne.
  destruct (summary_first_last round2 report Hne) as (values & first & last & Hall).
  exists values, first, last. exact Hall.
Qed.


(** The report of the three example jobs. *)
Lemma summary_table_values_witness :
  exists values first last,
    summary_values (fun q => q) example_report = Ok values
    /\ values !! 3%nat = Some (VStr first) /\ values !! 4%nat = Some (VStr last)
    /\ first ∈ map bk_creation_date (backups example_report)
    /\ last ∈ map bk_creation_date (backups example_report)
    /\ Forall (fun d => String.le first d /\ String.le d last)
         (map bk_creation_date (backups example_report))
    /\ values !! 5%nat
       = Some (VInt (Z.of_nat (length (unique_resources example_report))))
    /\ values !! 6%nat = Some (VInt (Z.of_nat (length (backups example_report))))
    /\ values !! 7%nat
       = Some (VNum (Qdiv (py_sum (map bk_backup_size_gb (backups example_report)))
                       (inject_Z 1024))).
Proof.
  apply (summary_table_values (fun q => q) example_report).
  discriminate.
Defined.

Section Chronology.
Lemma string_compare_refl (s : string) : String.compare s s = Eq.
Proof.
  induction s as [|c s IH]; [reflexivity|].
  now rewrite compare_cons, ascii_compare_refl.
Qed.

Lemma lex_compare2_eq (y1 m1 y2 m2 : nat) :
  lex_compare [y1; m1] [y2; m2] = Eq <-> y1 = y2 /\ m1 = m2.
Proof.
  simpl. destruct (Nat.compare_spec y1 y2) as [->|L|G].
  - destruct (Nat.compare_spec m1 m2) as [->|L|G]; split;
      try discriminate; try tauto; intros [_ ?]; lia.
  - split; [discriminate | intros [? _]; lia].
  - split; [discriminate | intros [? _]; lia].
Qed.

Lemma example_jobs_calendar :
  Forall (fun job => calendar_datetime (CreationDate job)) example_jobs.
Proof.
  unfold example_jobs.
  repeat (apply List.Forall_cons; [unfold calendar_datetime; simpl; lia|]).
  apply List.Forall_nil.
Qed.
End Chronology.

(** X20. In the Summary table of a generated report whose jobs carry
    calendar timestamps, First Backup Date is the rendered creation time
    of a job that no job precedes, and Last Backup Date that of a job that
    no job follows, in the order of time to the minute: taking the least
    and greatest of the rendered strings finds the earliest and the latest
    job. *)
Theorem first_backup_is_earliest (round2 : Q -> Q) (client : BackupClient)
  (col : Collected) (days : Z) :
  col_backup_jobs col days <> [] ->
  Forall (fun job => calendar_datetime (CreationDate job)) (col_backup_jobs col days) ->
  exists values earliest latest,
    summary_values round2 (fst (generate_backup_report client col days)) = Ok values
    /\ earliest ∈ col_backup_jobs col days
    /\ latest ∈ col_backup_jobs col days
    /\ values !! 3%nat = Some (VStr (strftime (CreationDate earliest)))
    /\ values !! 4%nat = Some (VStr (strftime (CreationDate latest)))
    /\ Forall (fun job =>
                 dt_compare (CreationDate earliest) (CreationDate job) <> Gt
                 /\ dt_compare (CreationDate job) (CreationDate latest) <> Gt)
         (col_backup_jobs col days).
Proof.
  intros Hne Hcal.
  assert (Hb : backups (fst (generate_backup_report client col days)) <> []).
  { rewrite report_backups. destruct (col_backup_jobs col days); [congruence | discriminate]. }
  destruct (summary_first_last round2 _ Hb)
    as (values & first & last & Hv & H3 & H4 & Hfin & Hlin & Hall & _).
  rewrite report_backups, map_map in Hfin, Hlin, Hall. simpl in Hfin, Hlin, Hall.
  apply list_elem_of_In, in_map_iff in Hfin as (earliest & <- & He).
  apply list_elem_of_In, in_map_iff in Hlin as (latest & <- & Hl).
  exists values, earliest, latest.
  split; [exact Hv|]. split; [now apply list_elem_of_In|].
  split; [now apply list_elem_of_In|]. split; [exact H3|]. split; [exact H4|].
  rewrite Forall_forall in Hcal. rewrite Forall_forall in Hall.
  apply Forall_forall. intros job Hjob.
  assert (Hin : strftime (CreationDate job)
                ∈ map (fun job => strftime (CreationDate job)) (col_backup_jobs col days)).
  { apply list_elem_of_In, in_map_iff. exists job. split; [reflexivity|].
    now apply list_elem_of_In. }
  destruct (Hall _ Hin) as [Hle1 Hle2].
  apply le_compare in Hle1, Hle2.
  apply list_elem_of_In in He, Hl.
  rewrite strftime_compare in Hle1 by auto.
  rewrite strftime_compare in Hle2 by auto.
  now split.
Qed.

(** The three example jobs, of January and March 2024. *)
Lemma first_backup_is_earliest_witness :
  exists values earliest latest,
    summary_values (fun q => q)
      (fst (generate_backup_report example_client example_collected 90)) = Ok values
    /\ earliest ∈ col_backup_jobs example_collected 90
    /\ latest ∈ col_backup_jobs example_collected 90
    /\ values !! 3%nat = Some (VStr (strftime (CreationDate earliest)))
    /\ values !! 4%nat = Some (VStr (strftime (CreationDate latest)))
    /\ Forall (fun job =>
                 dt_compare (CreationDate earliest) (CreationDate job) <> Gt
                 /\ dt_compare (CreationDate job) (CreationDate latest) <> Gt)
         (col_backup_jobs example_collected 90).
Proof.
  apply (first_backup_is_earliest (fun q => q) example_client example_collected 90).
  - discriminate.
  - apply example_jobs_calendar.
Defined.

(** X21. Two jobs with calendar timestamps fall in the same month of the
    pivot exactly when they were created in the same month of the same
    year, and the order of the month labels, in which the columns are laid
    out, is the order of the months in time. *)
Theorem month_labels_chronological (j1 j2 : BackupJob) :
  calendar_datetime (CreationDate j1) ->
  calendar_datetime (CreationDate j2) ->
  (month_of (backup_view j1) = month_of (backup_view j2)
   <-> dt_year (CreationDate j1) = dt_year (CreationDate j2)
       /\ dt_month (CreationDate j1) = dt_month (CreationDate j2))
  /\ (String.le (month_of (backup_view j1)) (month_of (backup_view j2))
      <-> lex_compare [dt_year (CreationDate j1); dt_month (CreationDate j1)]
            [dt_year (CreationDate j2); dt_month (CreationDate j2)] <> Gt).
Proof.
  intros H1 H2. unfold month_of, backup_view. cbn [bk_creation_date].
  split.
  - split.
    + intros Heq. pose proof (period_compare _ _ H1 H2) as Hcmp.
      rewrite Heq, string_compare_refl in Hcmp. now apply lex_compare2_eq.
    + intros Heq. apply String.compare_eq_iff.
      rewrite (period_compare _ _ H1 H2). now apply lex_compare2_eq.
  - rewrite le_compare, (period_compare _ _ H1 H2). reflexivity.
Qed.

(** The example jobs of January and of March. *)
Lemma month_labels_chronological_witness :
  (month_of (backup_view example_job_jan) = month_of (backup_view example_job_mar)
   <-> dt_year (CreationDate example_job_jan) = dt_year (CreationDate example_job_mar)
       /\ dt_month (CreationDate example_job_jan) = dt_month (CreationDate example_job_mar))
  /\ (String.le (month_of (backup_view example_job_jan))
        (month_of (backup_view example_job_mar))
      <-> lex_compare [dt_year (CreationDate example_job_jan);
                       dt_month (CreationDate example_job_jan)]
            [dt_year (CreationDate example_job_mar);
             dt_month (CreationDate example_job_mar)] <> Gt).
Proof.
  apply (month_labels_chronological example_job_jan example_job_mar);
    unfold calendar_datetime; simpl; lia.
Defined.

(** ** The region prompt *)

Section Prompt.
Lemma region_choice_listed (regions : list string) (line r : string) :
  region_choice regions line = Some r -> r ∈ regions.
Proof.
  unfold region_choice.
  destruct (PyInput.isdigit (PyInput.strip line)).
  - destruct (_ && _); [|discriminate]. apply list_elem_of_lookup_2.
  - destruct (existsb _ regions) eqn:E; [|discriminate].
    intros [= <-]. apply existsb_exists in E as (x & Hx & Heq).
    apply String.eqb_eq in Heq. subst. now apply list_elem_of_In.
Qed.

Lemma region_choice_none (line : string) : region_choice [] line = None.
Proof.
  unfold region_choice. destruct (PyInput.isdigit _); [|reflexivity].
  cbv zeta.
  destruct ((0 <=? PyInput.int (PyInput.strip line) - 1)
            && (PyInput.int (PyInput.strip line) - 1 <? Z.of_nat (length (@nil string))))
    eqn:E; [|reflexivity].
  apply andb_true_iff in E as [E1 E2].
  apply Z.leb_le in E1. apply Z.ltb_lt in E2. simpl in E2. lia.
Qed.

Lemma digit_not_blank (c : ascii) :
  PyInput.is_digit c = true -> PyInput.is_space c = false.
Proof.
  unfold PyInput.is_digit, PyInput.is_space. intros H.
  apply andb_true_iff in H as [H1 H2].
  apply Nat.leb_le in H1. apply Nat.leb_le in H2.
  apply orb_false_iff. split; apply andb_false_iff.
  - right. apply Nat.leb_gt. lia.
  - right. apply Nat.leb_gt. lia.
Qed.

Lemma rstrip_digits (s : string) :
  PyInput.all_digits s = true -> PyInput.rstrip s = s.
Proof.
  induction s as [|c s IH]; [reflexivity|]. simpl. intros H.
  apply andb_true_iff in H as [Hc Hs]. rewrite (IH Hs).
  destruct s; [|reflexivity]. now rewrite (digit_not_blank c Hc).
Qed.

Lemma strip_digits (s : string) :
  PyInput.all_digits s = true -> PyInput.strip s = s.
Proof.
  intros H. unfold PyInput.strip.
  assert (Hl : PyInput.lstrip s = s).
  { destruct s as [|c s]; [reflexivity|]. simpl in *.
    apply andb_true_iff in H as [Hc _]. now rewrite (digit_not_blank c Hc). }
  rewrite Hl. now apply rstrip_digits.
Qed.

Lemma uint_all_digits (d : Decimal.uint) :
  PyInput.all_digits (NilEmpty.string_of_uint d) = true.
Proof. induction d; simpl; auto. Qed.

Lemma uint_int_from (d : Decimal.uint) (acc : nat) :
  PyInput.int_from (Z.of_nat acc) (NilEmpty.string_of_uint d)
  = Z.of_nat (Nat.of_uint_acc d acc).
Proof.
  revert acc. induction d; intros acc; simpl; [reflexivity|..];
    rewrite <- IHd; f_equal; rewrite Nat.tail_mul_spec;
    match goal with
    | |- context [nat_of_ascii ?c] =>
        let v := eval vm_compute in (nat_of_ascii c) in
        change (nat_of_ascii c) with v
    end; lia.
Qed.

Lemma to_uint_nonnil (k : nat) : Nat.to_uint k <> Decimal.Nil.
Proof.
  rewrite <- (Unsigned.of_to k) at 1. rewrite Unsigned.to_of. apply unorm_nonnil.
Qed.

(** A decimal numeral is made of digits and reads back as its number. *)
Lemma numeral_reads_back (k : nat) :
  PyInput.strip (numeral k) = numeral k
  /\ PyInput.isdigit (numeral k) = true
  /\ PyInput.int (numeral k) = Z.of_nat k.
Proof.
  unfold numeral, NilZero.string_of_uint.
  pose proof (to_uint_nonnil k) as Hne.
  pose proof (uint_all_digits (Nat.to_uint k)) as Hd.
  pose proof (uint_int_from (Nat.to_uint k) 0) as Hi.
  change (Nat.of_uint_acc (Nat.to_uint k) 0) with (Nat.of_uint (Nat.to_uint k)) in Hi.
  rewrite Unsigned.of_to in Hi.
  destruct (Nat.to_uint k) eqn:E; try congruence;
    (split; [now apply strip_digits | split; [exact Hd | exact Hi]]).
Qed.
End Prompt.

(** X22. The region prompt only ever returns a region of the list it
    offers, whatever is typed; when that list is empty, as it is when the
    regions could not be fetched, no line is ever accepted and the prompt
    goes on until the input ends. *)
Theorem prompt_returns_listed_region (available_regions lines : list string) :
  (forall region,
     prompt_region_selection available_regions lines = Some region ->
     region ∈ available_regions)
  /\ prompt_region_selection [] lines = None.
Proof.
  split.
  - induction lines as [|line rest IH]; intros region; simpl; [discriminate|].
    destruct (region_choice available_regions line) eqn:E; [|apply IH].
    intros [= <-]. now apply (region_choice_listed _ line).
  - induction lines as [|line rest IH]; simpl; [reflexivity|].
    now rewrite region_choice_none.
Qed.

(** X23. Typing the number of a menu entry selects that entry: the numeral
    of k, for k from 1 to the number of regions, returns the k-th region,
    while 0 and numbers beyond the list are rejected and the next line is
    read. A region name that is not made of digits and has no surrounding
    blanks selects itself when it is in the list. *)
Theorem prompt_menu_number (available_regions : list string) (k : nat)
  (rest : list string) :
  ((1 <= k <= length available_regions)%nat ->
   is_Some (available_regions !! (k - 1)%nat)
   /\ prompt_region_selection available_regions (numeral k :: rest)
      = available_regions !! (k - 1)%nat)
  /\ (k = 0%nat \/ (length available_regions < k)%nat ->
      prompt_region_selection available_regions (numeral k :: rest)
      = prompt_region_selection available_regions rest)
  /\ (forall name,
        name ∈ available_regions ->
        PyInput.isdigit name = false -> PyInput.strip name = name ->
        prompt_region_selection available_regions (name :: rest) = Some name).
Proof.
  destruct (numeral_reads_back k) as (Hs & Hd & Hi).
  split; [|split].
  - intros Hk.
    assert (Hsome : is_Some (available_regions !! (k - 1)%nat))
      by (apply lookup_lt_is_Some; lia).
    split; [exact Hsome|].
    simpl. unfold region_choice. rewrite Hs, Hd, Hi.
    assert (Hin : (0 <=? Z.of_nat k - 1) && (Z.of_nat k - 1 <? Z.of_nat (length available_regions))
                  = true).
    { apply andb_true_iff. split; [apply Z.leb_le | apply Z.ltb_lt]; lia. }
    cbv zeta. rewrite Hin.
    replace (Z.to_nat (Z.of_nat k - 1)) with (k - 1)%nat by lia.
    destruct Hsome as [r Hr]. now rewrite Hr.
  - intros Hk. simpl. unfold region_choice. rewrite Hs, Hd, Hi.
    assert (Hout : (0 <=? Z.of_nat k - 1) && (Z.of_nat k - 1 <? Z.of_nat (length available_regions))
                   = false).
    { apply andb_false_iff. destruct Hk as [->|Hk].
      - left. apply Z.leb_gt. lia.
      - right. apply Z.ltb_ge. lia. }
    cbv zeta. now rewrite Hout.
  - intros name Hin Hnd Hstrip. simpl. unfold region_choice.
    rewrite Hstrip, Hnd.
    assert (He : existsb (String.eqb name) available_regions = true).
    { apply existsb_exists. exists name. split; [now apply list_elem_of_In|].
      apply String.eqb_refl. }
    now rewrite He.
Qed.

(** A menu of two regions: the second number, a number that is too large,
    and a name. *)
Lemma example_prompt :
  prompt_region_selection ["us-east-1"; "eu-west-1"] ["7"; " 2 "] = Some "eu-west-1"
  /\ prompt_region_selection ["us-east-1"; "eu-west-1"] ["0"; "eu-west-1"]
     = Some "eu-west-1"
  /\ prompt_region_selection ["us-east-1"; "eu-west-1"] ["sa-east-1"; EmptyString] = None
  /\ numeral 12 = "12".
Proof. repeat split. Qed.
